(** * Hyper File Inspector: a shallow embedding of [hyper_inspector.py]

    The script is a sequence of SQL queries against the vendor engine whose
    answers are reshaped into JSON.  The embedding keeps that shape:

    - Python values coming out of the engine are a tagged type [value];
    - the engine and the file system are records of oracles, each call
      answering with a value or raising ([outcome]);
    - the methods of [HyperFileInspector] run in a small monad [M] that
      records the observable effects in order (connection opened, query
      issued, line printed, connection closed) and propagates Python
      exceptions;
    - [try]/[except], [with] and [for] are combinators of that monad. *)

From Stdlib Require Import List String Ascii ZArith Lia Bool DecimalString.
Import ListNotations.
Open Scope string_scope.
Open Scope Z_scope.

Set Implicit Arguments.

(** ** Strings: the three [str] methods the script uses *)

(** [str.lower()] on the characters a Rocq [string] holds (bytes): the
    ASCII capitals are mapped to their small letters.  No character outside
    ASCII lower-cases to one of ['.hyper'], so the extension test is the
    one Python performs. *)
Definition lower_ascii (c : ascii) : ascii :=
  let n := nat_of_ascii c in
  if ((65 <=? n)%nat && (n <=? 90)%nat)%bool then ascii_of_nat (n + 32) else c.

Fixpoint lower (s : string) : string :=
  match s with
  | EmptyString => EmptyString
  | String c rest => String (lower_ascii c) (lower rest)
  end.

(** [s.endswith(suffix)]. *)
Fixpoint endswith (s suffix : string) : bool :=
  if String.eqb s suffix then true
  else match s with
       | EmptyString => false
       | String _ rest => endswith rest suffix
       end.

(** [os.path.basename] (and [Path.name] on the normalised paths that
    [rglob] yields): what follows the last ['/']. *)
Fixpoint basename_from (acc p : string) : string :=
  match p with
  | EmptyString => acc
  | String c rest =>
      if Ascii.eqb c "/" then basename_from EmptyString rest
      else basename_from (acc ++ String c EmptyString) rest
  end.

Definition basename (p : string) : string := basename_from EmptyString p.

(** [str(n)] for a Python [int]. *)
Definition str_int (n : Z) : string := NilZero.string_of_int (Z.to_int n).

(** ** Python values handed out by the engine *)

(** A Python [float], identified by its [repr] (the shortest decimal
    string that reads back as the same double): that is what [str] and
    [json.dumps] print. *)
Record pyfloat := PyFloat { float_repr : string }.

(** A Python object that has an [isoformat] method: a [datetime.date],
    [datetime.time] or [datetime.datetime].  The engine's own [Date] and
    [Timestamp] objects have no such method: they are among the other
    objects below. *)
Record temporal := Temporal { isoformat : string; temporal_str : string }.

(** Any other object the engine may return ([bytes], [Decimal], and the
    [Date], [Timestamp] and [Interval] of [tableauhyperapi]): no
    [isoformat], known by what [str] prints. *)
Record pyobject := PyObject { object_str : string }.

Inductive value :=
| VNone
| VStr (s : string)
| VInt (n : Z)
| VFloat (f : pyfloat)
| VBool (b : bool)
| VTemporal (t : temporal)
| VOther (o : pyobject).

(** [str(value)]. *)
Definition py_str (v : value) : string :=
  match v with
  | VNone => "None"
  | VStr s => s
  | VInt n => str_int n
  | VFloat f => float_repr f
  | VBool true => "True"
  | VBool false => "False"
  | VTemporal t => temporal_str t
  | VOther o => object_str o
  end.

(** [hasattr(value, 'isoformat')]. *)
Definition has_isoformat (v : value) : bool :=
  match v with VTemporal _ => true | _ => false end.

(** ** Exceptions and outcomes *)

Inductive exn :=
| HyperException (msg : string)
| PyException (msg : string).

(** [str(e)]. *)
Definition str_exn (e : exn) : string :=
  match e with HyperException msg => msg | PyException msg => msg end.

Inductive outcome (A : Type) :=
| Returned (a : A)
| Raised (e : exn).

Arguments Returned {A} a.
Arguments Raised {A} e.

(** ** The queries the script sends *)

(** The three system views a schema listing is read from. *)
Inductive schema_view :=
| InformationSchemaTables
| PgTables
| PgNamespace.

Inductive query :=
| ListSchemas (view : schema_view)
| TablesOfSchema (schema : string)
| ColumnsOfTable (schema table_name : string)
| CountRows (full_table_name : string)
| SelectRows (full_table_name : string) (limit : option Z).

(** One row of the column listing:
    [attname, format_type(...), 'YES'/'NO', NULL]. *)
Record column_row := ColumnRow {
  col0 : string;
  col1 : string;
  col2 : string;
  col3 : value
}.

(** The vendor engine, as seen through a read-only connection to one
    file: what each query answers.  The select lists fix the shape of the
    catalog answers; the rows of [SELECT *] are untyped. *)
Record Engine := {
  open_connection : string -> outcome unit;
  schema_names : schema_view -> outcome (list string);
  tables_of : string -> outcome (list (string * string));
  columns_of : string -> string -> outcome (list column_row);
  count_rows : string -> outcome Z;
  select_rows : string -> option Z -> outcome (list (list value))
}.

(** ** The file system *)

Record stat_result := StatResult { st_size : Z; st_mtime : pyfloat }.

Record FileSystem := {
  path_exists : string -> bool;
  path_isdir : string -> bool;
  getsize : string -> outcome Z;
  (** every path below a directory, in the order the recursive walk of
      [Path.rglob] visits them; the walk may raise *)
  walk : string -> outcome (list string);
  path_stat : string -> outcome stat_result;
  path_absolute : string -> string
}.

(** ** The monad of the inspector's methods *)

Inductive event :=
| EvConnect (database : string)
| EvQuery (q : query)
| EvPrint (line : string)
| EvClose.

Definition trace := list event.

(** A computation ends by returning or raising and leaves the effects it
    performed, oldest first.  Nothing in the script reads back what it has
    done, so the effects are only written. *)
Definition M (A : Type) : Type := (outcome A * trace)%type.

Definition ret {A} (a : A) : M A := (Returned a, []).

Definition bind {A B} (m : M A) (k : A -> M B) : M B :=
  match m with
  | (Returned a, t1) => let '(r, t2) := k a in (r, (t1 ++ t2)%list)
  | (Raised ex, t1) => (Raised ex, t1)
  end.

Definition raise {A} (ex : exn) : M A := (Raised ex, []).

(** [try: body  except ...: handler]. *)
Definition try_except {A} (body : M A) (handler : exn -> M A) : M A :=
  match body with
  | (Returned a, t1) => (Returned a, t1)
  | (Raised ex, t1) => let '(r, t2) := handler ex in (r, (t1 ++ t2)%list)
  end.

Definition emit (ev : event) : M unit := (Returned tt, [ev]).

(** An oracle's answer enters the monad as it is. *)
Definition lift {A} (o : outcome A) : M A := (o, []).

(** What a computation returned or raised, and what it did. *)
Definition outcome_of {A} (m : M A) : outcome A := fst m.
Definition effects_of {A} (m : M A) : trace := snd m.

Declare Scope py_scope.
Delimit Scope py_scope with py.
Notation "x <- c1 ;; c2" := (bind c1 (fun x => c2))
  (at level 61, c1 at next level, right associativity) : py_scope.
Notation "c1 ;;; c2" := (bind c1 (fun _ => c2))
  (at level 61, right associativity) : py_scope.
Open Scope py_scope.

(** [connection.execute_list_query] / [execute_scalar_query]: the query is
    sent (and seen in the trace), then the engine answers. *)
Definition execute {A} (q : query) (answer : outcome A) : M A :=
  emit (EvQuery q) ;;; lift answer.

(** [print(line)]. *)
Definition print (line : string) : M unit := emit (EvPrint line).

(** [with Connection(...) as connection: body]: the connection is closed
    on every way out of the body. *)
Definition with_connection {A} (e : Engine) (database : string) (body : M A) : M A :=
  emit (EvConnect database) ;;;
  lift (open_connection e database) ;;;
  (let '(r, t) := body in (r, (t ++ [EvClose])%list)).

(** [for x in xs: acc = body x acc]. *)
Fixpoint for_each {A S} (xs : list A) (body : A -> S -> M S) (acc : S) : M S :=
  match xs with
  | [] => ret acc
  | x :: rest => acc' <- body x acc ;; for_each rest body acc'
  end.

(** ** The JSON-shaped results

    Each Python [dict] literal of the script is a record whose fields are
    the keys; a result that has two shapes is an inductive type. *)

Module Column.
Record t := Make {
  name : string;
  type : string;
  nullable : bool;
  default : value
}.
End Column.

(** A Python [dict] keyed by strings: keys stay in insertion order and a
    second assignment to a key replaces its value in place. *)
Definition dict := list (string * value).

Fixpoint dict_set (d : dict) (k : string) (v : value) : dict :=
  match d with
  | [] => [(k, v)]
  | (k', v') :: rest =>
      if String.eqb k' k then (k, v) :: rest else (k', v') :: dict_set rest k v
  end.

Module ExportedTable.
Record t := Make {
  schema : string;
  name : string;
  full_name : string;
  type : string;
  columns : list Column.t;
  total_rows : Z;
  exported_rows : Z;
  data : list dict
}.
End ExportedTable.

Module ExportedFile.
Record t := Make {
  file_path : string;
  file_name : string;
  file_size : Z;
  export_type : string;
  max_rows_per_table : option Z;
  schemas : list string;
  tables : list ExportedTable.t;
  total_tables : Z;
  total_rows_exported : Z
}.
End ExportedFile.

(** What [export_file_data] returns: a [dict] with [success: False], an
    [error] and, when the failure came from inside the [try], the
    [file_path]; or the export with [success: True]. *)
Inductive export_result :=
| ExportFailed (error : string) (file_path : option string)
| Exported (r : ExportedFile.t).

(** The [row_count] of an inspected table: the count, or the string the
    script stores when the count query raised. *)
Inductive row_count_field :=
| RowCount (n : Z)
| UnableToDetermine.

(** The [sample_data] of an inspected table: the converted rows, or the
    one-element list holding the error message. *)
Inductive sample_field :=
| SampleRows (rows : list (list value))
| SampleError (message : string).

Module InspectedTable.
Record t := Make {
  schema : string;
  name : string;
  full_name : string;
  type : string;
  columns : list Column.t;
  row_count : row_count_field;
  sample_data : sample_field
}.
End InspectedTable.

Module InspectedFile.
Record t := Make {
  file_path : string;
  file_name : string;
  file_size : Z;
  schemas : list string;
  tables : list InspectedTable.t;
  total_tables : Z;
  total_rows : Z
}.
End InspectedFile.

Inductive inspect_result :=
| InspectFailed (error : string) (file_path : option string)
| Inspected (r : InspectedFile.t).

Module FileInfo.
Record t := Make {
  path : string;
  name : string;
  size : Z;
  modified : pyfloat
}.
End FileInfo.

Inductive discover_result :=
| DiscoverFailed (error : string) (directory : option string)
| Discovered (directory : string) (files_found : Z) (files : list FileInfo.t).

(** The keys of the returned [dict], in the order of the literal. *)
Definition export_keys (r : export_result) : list string :=
  match r with
  | ExportFailed _ None => ["error"; "success"]
  | ExportFailed _ (Some _) => ["error"; "success"; "file_path"]
  | Exported _ =>
      ["file_path"; "file_name"; "file_size"; "export_type";
       "max_rows_per_table"; "success"; "schemas"; "tables"; "total_tables";
       "total_rows_exported"]
  end.

Definition inspect_keys (r : inspect_result) : list string :=
  match r with
  | InspectFailed _ None => ["error"; "success"]
  | InspectFailed _ (Some _) => ["error"; "success"; "file_path"]
  | Inspected _ =>
      ["file_path"; "file_name"; "file_size"; "success"; "schemas"; "tables";
       "total_tables"; "total_rows"]
  end.

Definition discover_keys (r : discover_result) : list string :=
  match r with
  | DiscoverFailed _ None => ["error"; "success"]
  | DiscoverFailed _ (Some _) => ["error"; "success"; "directory"]
  | Discovered _ _ _ => ["success"; "directory"; "files_found"; "files"]
  end.

(** The value stored under [success]. *)
Definition export_success (r : export_result) : bool :=
  match r with Exported _ => true | ExportFailed _ _ => false end.

Definition inspect_success (r : inspect_result) : bool :=
  match r with Inspected _ => true | InspectFailed _ _ => false end.

Definition discover_success (r : discover_result) : bool :=
  match r with Discovered _ _ _ => true | DiscoverFailed _ _ => false end.

(** ** [HyperFileInspector.export_file_data] *)

Definition dquote : string := String (ascii_of_nat 34) EmptyString.

(** [f'"{schema}"."{table_name}"']. *)
Definition full_table_name_of (schema table_name : string) : string :=
  dquote ++ schema ++ dquote ++ "." ++ dquote ++ table_name ++ dquote.

Definition column_info_of (col_row : column_row) : Column.t :=
  {| Column.name := col0 col_row;
     Column.type := col1 col_row;
     Column.nullable := String.eqb (col2 col_row) "YES";
     Column.default := col3 col_row |}.

(** The value stored in an exported row. *)
Definition export_value (v : value) : value :=
  match v with
  | VNone => VNone
  | VTemporal t => VStr (isoformat t)
  | _ => v
  end.

(** [for i, value in enumerate(data_row): row_data[column_names[i]] = ...];
    [column_names[i]] raises [IndexError] past the end of the list. *)
Fixpoint export_row (column_names : list string) (i : nat)
    (data_row : list value) (row_data : dict) : outcome dict :=
  match data_row with
  | [] => Returned row_data
  | v :: rest =>
      match nth_error column_names i with
      | None => Raised (PyException "list index out of range")
      | Some column_name =>
          export_row column_names (S i) rest
            (dict_set row_data column_name (export_value v))
      end
  end.

(** Truth value of [max_rows_per_table] in [elif max_rows_per_table:]. *)
Definition truthy (max_rows_per_table : option Z) : bool :=
  match max_rows_per_table with
  | None => false
  | Some n => negb (n =? 0)
  end.

(** "Determine how many rows to export": [rows_to_export] (which nothing
    reads afterwards) and the [LIMIT] of [data_query]. *)
Definition rows_to_export_and_limit (include_sample_only : bool)
    (max_rows_per_table : option Z) (total_rows : Z) : Z * option Z :=
  if include_sample_only then (Z.min 5 total_rows, Some 5)
  else if truthy max_rows_per_table then
    match max_rows_per_table with
    | Some n => (Z.min n total_rows, Some n)
    | None => (total_rows, None)
    end
  else (total_rows, None).

(** The schema listing of the export, with its fallback. *)
Definition export_schemas (e : Engine) : M (list string) :=
  try_except
    (execute (ListSchemas InformationSchemaTables)
       (schema_names e InformationSchemaTables))
    (fun _ => execute (ListSchemas PgTables) (schema_names e PgTables)).

(** "Get row count": a count that cannot be read is taken as 0. *)
Definition count_or_zero (e : Engine) (full_table_name : string) : M Z :=
  try_except
    (execute (CountRows full_table_name) (count_rows e full_table_name))
    (fun _ => ret 0).

(** [f"Warning: Could not export data from {full_table_name}: {e}"]. *)
Definition export_warning (full_table_name : string) (ex : exn) : string :=
  "Warning: Could not export data from " ++ full_table_name ++ ": "
  ++ str_exn ex.

(** The body of the loop over the scanned rows. *)
Definition append_row (column_names : list string) (data_row : list value)
    (exported_data : list dict) : M (list dict) :=
  row_data <- lift (export_row column_names 0 data_row []) ;;
  ret (exported_data ++ [row_data])%list.

(** "Export all data": the scan, the conversion of every row and the
    update of [total_exported]; on any exception the table's data is
    emptied and a warning is printed. *)
Definition export_data (e : Engine) (column_names : list string)
    (full_table_name : string) (limit : option Z) (total_exported : Z)
    : M (list dict * Z) :=
  try_except
    (data_rows <- execute (SelectRows full_table_name limit)
                    (select_rows e full_table_name limit) ;;
     exported_data <- for_each data_rows (append_row column_names) [] ;;
     ret (exported_data, total_exported + Z.of_nat (List.length exported_data)))
    (fun ex =>
       print (export_warning full_table_name ex) ;;;
       ret ([], total_exported)).

(** The body of the loop over the tables of a schema; the accumulator is
    [(tables_data, total_exported)]. *)
Definition export_table (e : Engine) (include_sample_only : bool)
    (max_rows_per_table : option Z) (schema : string)
    (table_row : string * string) (acc : list ExportedTable.t * Z)
    : M (list ExportedTable.t * Z) :=
  let '(tables_data, total_exported) := acc in
  let table_name := fst table_row in
  let table_type := snd table_row in
  let full_table_name := full_table_name_of schema table_name in
  col_rows <- execute (ColumnsOfTable schema table_name)
                (columns_of e schema table_name) ;;
  let columns := map column_info_of col_rows in
  let column_names := map col0 col_rows in
  total_rows <- count_or_zero e full_table_name ;;
  let limit :=
    snd (rows_to_export_and_limit include_sample_only max_rows_per_table
           total_rows) in
  exported <- export_data e column_names full_table_name limit total_exported ;;
  let exported_data := fst exported in
  let table_info :=
    {| ExportedTable.schema := schema;
       ExportedTable.name := table_name;
       ExportedTable.full_name := full_table_name;
       ExportedTable.type := table_type;
       ExportedTable.columns := columns;
       ExportedTable.total_rows := total_rows;
       ExportedTable.exported_rows := Z.of_nat (List.length exported_data);
       ExportedTable.data := exported_data |} in
  ret ((tables_data ++ [table_info])%list, snd exported).

(** The body of the loop over the schemas. *)
Definition export_schema (e : Engine) (include_sample_only : bool)
    (max_rows_per_table : option Z) (schema : string)
    (acc : list ExportedTable.t * Z) : M (list ExportedTable.t * Z) :=
  table_rows <- execute (TablesOfSchema schema) (tables_of e schema) ;;
  for_each table_rows
    (export_table e include_sample_only max_rows_per_table schema) acc.

(** How the two [except] clauses around the body report an exception. *)
Definition error_message (ex : exn) : string :=
  match ex with
  | HyperException msg => "Hyper API error: " ++ msg
  | PyException msg => "Unexpected error: " ++ msg
  end.

(** What runs inside the [try] of [export_file_data]. *)
Definition export_body (fs : FileSystem) (e : Engine) (file_path : string)
    (include_sample_only : bool) (max_rows_per_table : option Z)
    : M export_result :=
  file_size <- lift (getsize fs file_path) ;;
  with_connection e file_path
    (schemas <- export_schemas e ;;
     acc <- for_each schemas
              (export_schema e include_sample_only max_rows_per_table)
              ([], 0) ;;
     ret (Exported
            {| ExportedFile.file_path := file_path;
               ExportedFile.file_name := basename file_path;
               ExportedFile.file_size := file_size;
               ExportedFile.export_type :=
                 if include_sample_only then "sample_only" else "full_data";
               ExportedFile.max_rows_per_table := max_rows_per_table;
               ExportedFile.schemas := schemas;
               ExportedFile.tables := fst acc;
               ExportedFile.total_tables := Z.of_nat (List.length (fst acc));
               ExportedFile.total_rows_exported := snd acc |})).

Definition export_file_data (fs : FileSystem) (e : Engine) (file_path : string)
    (include_sample_only : bool) (max_rows_per_table : option Z)
    : M export_result :=
  if negb (path_exists fs file_path) then
    ret (ExportFailed ("File not found: " ++ file_path) None)
  else if negb (endswith (lower file_path) ".hyper") then
    ret (ExportFailed ("Not a .hyper file: " ++ file_path) None)
  else
    try_except
      (export_body fs e file_path include_sample_only max_rows_per_table)
      (fun ex => ret (ExportFailed (error_message ex) (Some file_path))).

(** ** [HyperFileInspector.inspect_file] *)

(** The value stored in a sample row. *)
Definition inspect_value (v : value) : value :=
  match v with
  | VNone => VNone
  | VTemporal t => VStr (isoformat t)
  | _ => VStr (py_str v)
  end.

(** "Get row count": the count is added to [total_rows]; a count that
    cannot be read is reported as such and adds nothing. *)
Definition count_or_unknown (e : Engine) (full_table_name : string)
    (total_rows : Z) : M (row_count_field * Z) :=
  try_except
    (row_count <- execute (CountRows full_table_name)
                    (count_rows e full_table_name) ;;
     ret (RowCount row_count, total_rows + row_count))
    (fun _ => ret (UnableToDetermine, total_rows)).

(** "Get sample data (first 5 rows)". *)
Definition sample_of (e : Engine) (full_table_name : string) : M sample_field :=
  try_except
    (sample_rows <- execute (SelectRows full_table_name (Some 5))
                      (select_rows e full_table_name (Some 5)) ;;
     ret (SampleRows (map (map inspect_value) sample_rows)))
    (fun ex =>
       ret (SampleError ("Error retrieving sample data: " ++ str_exn ex))).

(** The body of the loop over the tables of a schema; the accumulator is
    [(tables_info, total_rows)]. *)
Definition inspect_table (e : Engine) (schema : string)
    (table_row : string * string) (acc : list InspectedTable.t * Z)
    : M (list InspectedTable.t * Z) :=
  let '(tables_info, total_rows) := acc in
  let table_name := fst table_row in
  let table_type := snd table_row in
  let full_table_name := full_table_name_of schema table_name in
  col_rows <- execute (ColumnsOfTable schema table_name)
                (columns_of e schema table_name) ;;
  let columns := map column_info_of col_rows in
  counted <- count_or_unknown e full_table_name total_rows ;;
  sample_data <- sample_of e full_table_name ;;
  let table_info :=
    {| InspectedTable.schema := schema;
       InspectedTable.name := table_name;
       InspectedTable.full_name := full_table_name;
       InspectedTable.type := table_type;
       InspectedTable.columns := columns;
       InspectedTable.row_count := fst counted;
       InspectedTable.sample_data := sample_data |} in
  ret ((tables_info ++ [table_info])%list, snd counted).

Definition inspect_schema (e : Engine) (schema : string)
    (acc : list InspectedTable.t * Z) : M (list InspectedTable.t * Z) :=
  table_rows <- execute (TablesOfSchema schema) (tables_of e schema) ;;
  for_each table_rows (inspect_table e schema) acc.

(** What runs inside the [try] of [inspect_file]. *)
Definition inspect_body (fs : FileSystem) (e : Engine) (file_path : string)
    : M inspect_result :=
  file_size <- lift (getsize fs file_path) ;;
  with_connection e file_path
    (schemas <- execute (ListSchemas PgNamespace) (schema_names e PgNamespace) ;;
     acc <- for_each schemas (inspect_schema e) ([], 0) ;;
     ret (Inspected
            {| InspectedFile.file_path := file_path;
               InspectedFile.file_name := basename file_path;
               InspectedFile.file_size := file_size;
               InspectedFile.schemas := schemas;
               InspectedFile.tables := fst acc;
               InspectedFile.total_tables := Z.of_nat (List.length (fst acc));
               InspectedFile.total_rows := snd acc |})).

Definition inspect_file (fs : FileSystem) (e : Engine) (file_path : string)
    : M inspect_result :=
  if negb (path_exists fs file_path) then
    ret (InspectFailed ("File not found: " ++ file_path) None)
  else if negb (endswith (lower file_path) ".hyper") then
    ret (InspectFailed ("Not a .hyper file: " ++ file_path) None)
  else
    try_except
      (inspect_body fs e file_path)
      (fun ex => ret (InspectFailed (error_message ex) (Some file_path))).

(** ** [HyperFileInspector.discover_hyper_files] *)

(** [directory_path.rglob("*.hyper")] on a POSIX file system: the paths
    below the directory whose last component matches the pattern, letter
    case included. *)
Definition rglob_hyper (fs : FileSystem) (directory : string)
    : outcome (list string) :=
  match walk fs directory with
  | Returned paths =>
      Returned (filter (fun p => endswith (basename p) ".hyper") paths)
  | Raised ex => Raised ex
  end.

(** The body of the loop over the files found: [stat()] is called once
    for the size and once for the modification time. *)
Definition file_info_of (fs : FileSystem) (hyper_file : string)
    (hyper_files : list FileInfo.t) : M (list FileInfo.t) :=
  st1 <- lift (path_stat fs hyper_file) ;;
  st2 <- lift (path_stat fs hyper_file) ;;
  ret (hyper_files ++
       [ {| FileInfo.path := path_absolute fs hyper_file;
            FileInfo.name := basename hyper_file;
            FileInfo.size := st_size st1;
            FileInfo.modified := st_mtime st2 |} ])%list.

Definition discover_hyper_files (fs : FileSystem) (directory : string)
    : M discover_result :=
  if negb (path_exists fs directory) then
    ret (DiscoverFailed ("Directory not found: " ++ directory) None)
  else if negb (path_isdir fs directory) then
    ret (DiscoverFailed ("Not a directory: " ++ directory) None)
  else
    try_except
      (found <- lift (rglob_hyper fs directory) ;;
       hyper_files <- for_each found (file_info_of fs) [] ;;
       ret (Discovered directory (Z.of_nat (List.length hyper_files)) hyper_files))
      (fun ex =>
         ret (DiscoverFailed ("Error discovering files: " ++ str_exn ex)
                (Some directory))).

(** ** The command line: [main] *)

Inductive command := CmdInspect | CmdDiscover | CmdExport.

(** The parsed arguments: [command], [path], [--sample-only] and
    [--max-rows] ([None] when the option is not given). *)
Record arguments := Arguments_ {
  arg_command : command;
  arg_path : string;
  arg_sample_only : bool;
  arg_max_rows : option Z
}.

Inductive command_result :=
| OfInspect (r : inspect_result)
| OfDiscover (r : discover_result)
| OfExport (r : export_result).

(** The dispatch of [main] on the command, inside
    [with HyperFileInspector() as inspector]. *)
Definition run_command (fs : FileSystem) (e : Engine) (args : arguments)
    : M command_result :=
  match arg_command args with
  | CmdInspect =>
      r <- inspect_file fs e (arg_path args) ;; ret (OfInspect r)
  | CmdDiscover =>
      r <- discover_hyper_files fs (arg_path args) ;; ret (OfDiscover r)
  | CmdExport =>
      r <- export_file_data fs e (arg_path args) (arg_sample_only args)
             (arg_max_rows args) ;;
      ret (OfExport r)
  end.

Definition result_success (r : command_result) : bool :=
  match r with
  | OfInspect r => inspect_success r
  | OfDiscover r => discover_success r
  | OfExport r => export_success r
  end.

Definition result_keys (r : command_result) : list string :=
  match r with
  | OfInspect r => inspect_keys r
  | OfDiscover r => discover_keys r
  | OfExport r => export_keys r
  end.

Definition result_error (r : command_result) : option string :=
  match r with
  | OfInspect (InspectFailed msg _) => Some msg
  | OfDiscover (DiscoverFailed msg _) => Some msg
  | OfExport (ExportFailed msg _) => Some msg
  | _ => None
  end.

(** ** A reference engine and the sample file of [create-sample.py]

    A file is a list of tables; the reference engine answers the catalog
    queries from it, counts with [COUNT( * )] and cuts a scan at its
    [LIMIT].  It is used to run the inspector on concrete files. *)

Record stored_table := StoredTable {
  stored_schema : string;
  stored_name : string;
  stored_columns : list column_row;
  stored_rows : list (list value)
}.

Definition database := list stored_table.

(** [GROUP BY]: each schema once, in order of first appearance. *)
Fixpoint distinct (names : list string) : list string :=
  match names with
  | [] => []
  | n :: rest =>
      n :: filter (fun m => negb (String.eqb m n)) (distinct rest)
  end.

Definition find_table (db : database) (full_table_name : string)
    : option stored_table :=
  find (fun tb =>
          String.eqb (full_table_name_of (stored_schema tb) (stored_name tb))
            full_table_name) db.

Definition no_such_table {A} (full_table_name : string) : outcome A :=
  Raised (HyperException ("table " ++ full_table_name ++ " does not exist")).

Definition db_engine (db : database) : Engine :=
  {| open_connection := fun _ => Returned tt;
     schema_names := fun _ => Returned (distinct (map stored_schema db));
     tables_of := fun schema =>
       Returned
         (map (fun tb => (stored_name tb, "TABLE"))
            (filter (fun tb => String.eqb (stored_schema tb) schema) db));
     columns_of := fun schema table_name =>
       match find_table db (full_table_name_of schema table_name) with
       | Some tb => Returned (stored_columns tb)
       | None => no_such_table (full_table_name_of schema table_name)
       end;
     count_rows := fun full_table_name =>
       match find_table db full_table_name with
       | Some tb => Returned (Z.of_nat (List.length (stored_rows tb)))
       | None => no_such_table full_table_name
       end;
     select_rows := fun full_table_name limit =>
       match find_table db full_table_name with
       | Some tb =>
           match limit with
           | None => Returned (stored_rows tb)
           | Some n =>
               if n <? 0 then Raised (HyperException "LIMIT must not be negative")
               else Returned (firstn (Z.to_nat n) (stored_rows tb))
           end
       | None => no_such_table full_table_name
       end |}.

Definition not_null (column_name data_type : string) : column_row :=
  ColumnRow column_name data_type "NO" VNone.

Definition nullable (column_name data_type : string) : column_row :=
  ColumnRow column_name data_type "YES" VNone.

(** A [DATE] value as the engine hands it out: a [tableauhyperapi.Date],
    which has no [isoformat] method and which [str] prints as the ISO
    date. *)
Definition date (iso : string) : value := VOther (PyObject iso).

(** A [TIME] value: a [datetime.time], which has an [isoformat] method. *)
Definition time_of_day (iso : string) : value := VTemporal (Temporal iso iso).

Definition double (repr : string) : value := VFloat (PyFloat repr).

Definition sample_customers : list (list value) :=
  [ [VInt 1; VStr "Alice Johnson"; VStr "alice@email.com"; VStr "Premium"; date "2023-01-15"];
    [VInt 2; VStr "Bob Smith"; VStr "bob@email.com"; VStr "Standard"; date "2023-02-20"];
    [VInt 3; VStr "Carol Davis"; VStr "carol@email.com"; VStr "Premium"; date "2023-01-10"];
    [VInt 4; VStr "David Wilson"; VStr "david@email.com"; VStr "Basic"; date "2023-03-05"];
    [VInt 5; VStr "Eva Brown"; VStr "eva@email.com"; VStr "Standard"; date "2023-02-28"] ].

Definition sample_orders : list (list value) :=
  [ [VInt 101; VInt 1; VStr "Widget A"; VInt 2; double "25.99"; date "2023-03-01"];
    [VInt 102; VInt 1; VStr "Widget B"; VInt 1; double "45.5"; date "2023-03-02"];
    [VInt 103; VInt 2; VStr "Widget A"; VInt 3; double "25.99"; date "2023-03-03"];
    [VInt 104; VInt 3; VStr "Widget C"; VInt 1; double "120.0"; date "2023-03-04"];
    [VInt 105; VInt 2; VStr "Widget B"; VInt 2; double "45.5"; date "2023-03-05"];
    [VInt 106; VInt 4; VStr "Widget A"; VInt 1; double "25.99"; date "2023-03-06"];
    [VInt 107; VInt 5; VStr "Widget C"; VInt 1; double "120.0"; date "2023-03-07"];
    [VInt 108; VInt 3; VStr "Widget B"; VInt 3; double "45.5"; date "2023-03-08"] ].

Definition customers_table : stored_table :=
  StoredTable "SampleDB" "Customers"
    [ not_null "customer_id" "bigint"; not_null "name" "text";
      nullable "email" "text"; nullable "tier" "text";
      nullable "signup_date" "date" ]
    sample_customers.

Definition orders_table : stored_table :=
  StoredTable "SampleDB" "Orders"
    [ not_null "order_id" "bigint"; not_null "customer_id" "bigint";
      not_null "product_name" "text"; not_null "quantity" "integer";
      not_null "unit_price" "double precision"; nullable "order_date" "date" ]
    sample_orders.

Definition sample_db : database := [customers_table; orders_table].

Definition sample_engine : Engine := db_engine sample_db.

(** A file system holding [sample-data.hyper] and two more files in the
    directory [data]. *)
Definition sample_fs : FileSystem :=
  {| path_exists := fun p =>
       existsb (String.eqb p)
         ["sample-data.hyper"; "data"; "data/a.hyper"; "data/sub/B.HYPER";
          "data/notes.txt"; "empty"];
     path_isdir := fun p => existsb (String.eqb p) ["data"; "data/sub"; "empty"];
     getsize := fun _ => Returned 65536;
     walk := fun d =>
       if String.eqb d "data" then
         Returned ["data/a.hyper"; "data/notes.txt"; "data/sub";
                   "data/sub/B.HYPER"]
       else Returned [];
     path_stat := fun _ => Returned (StatResult 65536 (PyFloat "1700000000.0"));
     path_absolute := fun p => "/home/user/" ++ p |}.


(** The same engine with one of its answers replaced. *)
Definition with_schema_names (f : schema_view -> outcome (list string))
    (e : Engine) : Engine :=
  {| open_connection := open_connection e;
     schema_names := f;
     tables_of := tables_of e;
     columns_of := columns_of e;
     count_rows := count_rows e;
     select_rows := select_rows e |}.

Definition with_columns_of (f : string -> string -> outcome (list column_row))
    (e : Engine) : Engine :=
  {| open_connection := open_connection e;
     schema_names := schema_names e;
     tables_of := tables_of e;
     columns_of := f;
     count_rows := count_rows e;
     select_rows := select_rows e |}.

Definition with_count_rows (f : string -> outcome Z) (e : Engine) : Engine :=
  {| open_connection := open_connection e;
     schema_names := schema_names e;
     tables_of := tables_of e;
     columns_of := columns_of e;
     count_rows := f;
     select_rows := select_rows e |}.

Definition with_select_rows
    (f : string -> option Z -> outcome (list (list value))) (e : Engine)
    : Engine :=
  {| open_connection := open_connection e;
     schema_names := schema_names e;
     tables_of := tables_of e;
     columns_of := columns_of e;
     count_rows := count_rows e;
     select_rows := f |}.

Definition orders_full_name : string := full_table_name_of "SampleDB" "Orders".

(** The sample file on an engine that cannot scan [Orders]. *)
Definition orders_scan_fails : Engine :=
  with_select_rows
    (fun full limit =>
       if String.eqb full orders_full_name
       then Raised (HyperException "scan failed")
       else select_rows sample_engine full limit)
    sample_engine.

(** The sample file on an engine that cannot list the columns of
    [Orders]. *)
Definition orders_columns_fail : Engine :=
  with_columns_of
    (fun schema table_name =>
       if String.eqb table_name "Orders"
       then Raised (HyperException "column listing failed")
       else columns_of sample_engine schema table_name)
    sample_engine.

(** The sample file on an engine that cannot count [Orders]. *)
Definition orders_count_fails : Engine :=
  with_count_rows
    (fun full =>
       if String.eqb full orders_full_name
       then Raised (HyperException "count failed")
       else count_rows sample_engine full)
    sample_engine.

(** The sample file on an engine where [information_schema.tables] cannot
    be read. *)
Definition no_information_schema : Engine :=
  with_schema_names
    (fun view =>
       match view with
       | InformationSchemaTables =>
           Raised (HyperException "information_schema.tables does not exist")
       | _ => schema_names sample_engine view
       end)
    sample_engine.

(** The sample file on an engine where [pg_namespace] cannot be read. *)
Definition no_pg_namespace : Engine :=
  with_schema_names
    (fun view =>
       match view with
       | PgNamespace => Raised (HyperException "pg_namespace does not exist")
       | _ => schema_names sample_engine view
       end)
    sample_engine.

(** The sample file with a third, empty table, on an engine that cannot
    scan it. *)
Definition log_table : stored_table :=
  StoredTable "SampleDB" "Log" [ not_null "message" "text" ] [].

Definition log_full_name : string := full_table_name_of "SampleDB" "Log".

Definition log_scan_fails : Engine :=
  with_select_rows
    (fun full limit =>
       if String.eqb full log_full_name
       then Raised (HyperException "scan failed")
       else select_rows (db_engine (sample_db ++ [log_table])%list) full limit)
    (db_engine (sample_db ++ [log_table])%list).

(** A directory holding [a.hyper] and a dangling symbolic link
    [broken.hyper]: the walk yields both, [stat] follows the link and
    raises. *)
Definition dangling_fs : FileSystem :=
  {| path_exists := fun p =>
       existsb (String.eqb p) ["data"; "data/a.hyper"];
     path_isdir := fun p => String.eqb p "data";
     getsize := fun _ => Returned 65536;
     walk := fun _ => Returned ["data/a.hyper"; "data/broken.hyper"];
     path_stat := fun p =>
       if String.eqb p "data/broken.hyper"
       then Raised (PyException
                      "[Errno 2] No such file or directory: 'data/broken.hyper'")
       else Returned (StatResult 65536 (PyFloat "1700000000.0"));
     path_absolute := fun p => "/home/user/" ++ p |}.

(** * Notions used in the statements *)

(** [sum(t["exported_rows"] for t in tables)]. *)
Definition sum_exported_rows (tables : list ExportedTable.t) : Z :=
  fold_right Z.add 0 (map ExportedTable.exported_rows tables).

(** A table entry as one iteration builds it: from a listed table whose
    columns could be read, the count (or 0) and what the data block kept. *)
Definition exported_from (e : Engine) (sample_only : bool) (max_rows : option Z)
    (tb : ExportedTable.t) : Prop :=
  exists schema table_row col_rows total tr,
    let full := full_table_name_of schema (fst table_row) in
    let n := match count_rows e full with Returned n => n | Raised _ => 0 end in
    let limit := snd (rows_to_export_and_limit sample_only max_rows n) in
    columns_of e schema (fst table_row) = Returned col_rows
    /\ export_data e (map col0 col_rows) full limit total
       = (Returned (ExportedTable.data tb,
                    total + Z.of_nat (List.length (ExportedTable.data tb))), tr)
    /\ tb = {| ExportedTable.schema := schema;
               ExportedTable.name := fst table_row;
               ExportedTable.full_name := full;
               ExportedTable.type := snd table_row;
               ExportedTable.columns := map column_info_of col_rows;
               ExportedTable.total_rows := n;
               ExportedTable.exported_rows :=
                 Z.of_nat (List.length (ExportedTable.data tb));
               ExportedTable.data := ExportedTable.data tb |}.

Definition export_accumulator (e : Engine) (sample_only : bool)
    (max_rows : option Z) (acc : list ExportedTable.t * Z) : Prop :=
  Forall (exported_from e sample_only max_rows) (fst acc)
  /\ snd acc = sum_exported_rows (fst acc).


(** What the count block stores in [row_count]. *)
Definition row_count_of (counted : outcome Z) : row_count_field :=
  match counted with
  | Returned n => RowCount n
  | Raised _ => UnableToDetermine
  end.

(** What the sample block stores in [sample_data]. *)
Definition sample_data_of (scanned : outcome (list (list value))) : sample_field :=
  match scanned with
  | Returned rows => SampleRows (map (map inspect_value) rows)
  | Raised ex => SampleError ("Error retrieving sample data: " ++ str_exn ex)
  end.

(** What a [row_count] adds to [total_rows]. *)
Definition counted_rows (f : row_count_field) : Z :=
  match f with
  | RowCount n => n
  | UnableToDetermine => 0
  end.

Definition sum_counted_rows (tables : list InspectedTable.t) : Z :=
  fold_right Z.add 0
    (map (fun tb => counted_rows (InspectedTable.row_count tb)) tables).

(** [sum(t["row_count"] for t in tables)], which is defined only when
    every [row_count] is a number. *)
Fixpoint sum_row_counts (tables : list InspectedTable.t) : option Z :=
  match tables with
  | [] => Some 0
  | tb :: rest =>
      match InspectedTable.row_count tb, sum_row_counts rest with
      | RowCount n, Some s => Some (n + s)
      | _, _ => None
      end
  end.

(** [len(sample_data)]. *)
Definition sample_length (f : sample_field) : Z :=
  match f with
  | SampleRows rows => Z.of_nat (List.length rows)
  | SampleError _ => 1
  end.

(** A table entry as one iteration of the inspection builds it. *)
Definition inspected_from (e : Engine) (tb : InspectedTable.t) : Prop :=
  exists schema table_row col_rows,
    let full := full_table_name_of schema (fst table_row) in
    columns_of e schema (fst table_row) = Returned col_rows
    /\ tb = {| InspectedTable.schema := schema;
               InspectedTable.name := fst table_row;
               InspectedTable.full_name := full;
               InspectedTable.type := snd table_row;
               InspectedTable.columns := map column_info_of col_rows;
               InspectedTable.row_count := row_count_of (count_rows e full);
               InspectedTable.sample_data :=
                 sample_data_of (select_rows e full (Some 5)) |}.

Definition inspect_accumulator (e : Engine)
    (acc : list InspectedTable.t * Z) : Prop :=
  Forall (inspected_from e) (fst acc)
  /\ snd acc = sum_counted_rows (fst acc).

(** The engine honours [LIMIT 5]: such a scan answers with at most five
    rows. *)
Definition honours_sample_limit (e : Engine) : Prop :=
  forall full rows,
    select_rows e full (Some 5) = Returned rows -> (List.length rows <= 5)%nat.

(** The engine's count of a table is not below what a scan of it
    answers. *)
Definition count_covers_scan (e : Engine) : Prop :=
  forall full limit n rows,
    count_rows e full = Returned n ->
    select_rows e full limit = Returned rows ->
    Z.of_nat (List.length rows) <= n.

(** [len(sample_data) <= row_count]; the comparison has no value when
    [row_count] is the string. *)
Definition at_most_row_count (len : Z) (f : row_count_field) : Prop :=
  match f with
  | RowCount n => len <= n
  | UnableToDetermine => False
  end.

(** The engine [e] with [information_schema.tables] answering [schemas]. *)
Definition primary_answering (schemas : list string) (e : Engine) : Engine :=
  with_schema_names
    (fun view =>
       match view with
       | InformationSchemaTables => Returned schemas
       | _ => schema_names e view
       end)
    e.

(** The tables the catalog lists for the given schemas, each with its
    schema, in the order the loops visit them. *)
Definition listed_tables (e : Engine) (schemas : list string)
    : list (string * string) :=
  flat_map
    (fun schema =>
       match tables_of e schema with
       | Returned rows => map (fun row => (schema, fst row)) rows
       | Raised _ => []
       end)
    schemas.

Definition table_key (tb : ExportedTable.t) : string * string :=
  (ExportedTable.schema tb, ExportedTable.name tb).

(** How a failed count and a failed scan of a table show in its entry and
    in the effects [t] of the export. *)
Definition failure_contained (e : Engine) (sample_only : bool)
    (max_rows : option Z) (t : trace) (tb : ExportedTable.t) : Prop :=
  let full := ExportedTable.full_name tb in
  let limit :=
    snd (rows_to_export_and_limit sample_only max_rows
           (ExportedTable.total_rows tb)) in
  (forall ex, count_rows e full = Raised ex -> ExportedTable.total_rows tb = 0)
  /\ (forall ex,
        select_rows e full limit = Raised ex ->
        ExportedTable.data tb = []
        /\ ExportedTable.exported_rows tb = 0
        /\ In (EvPrint (export_warning full ex)) t).

(** The values the row type of the specification allows: null, a string
    (a timestamp is an ISO-8601 string) or a number. *)
Definition json_scalar (v : value) : bool :=
  match v with
  | VNone | VStr _ | VInt _ | VFloat _ => true
  | _ => false
  end.

Definition is_number (v : value) : bool :=
  match v with
  | VInt _ | VFloat _ => true
  | _ => false
  end.

(** Null, text, numbers and the objects that have an [isoformat]
    method. *)
Definition plain_value (v : value) : bool :=
  match v with
  | VNone | VStr _ | VInt _ | VFloat _ | VTemporal _ => true
  | _ => false
  end.

(** [v] is a value of a row that the data scan of the exported table
    answered with. *)
Definition scanned (e : Engine) (sample_only : bool) (max_rows : option Z)
    (tb : ExportedTable.t) (v : value) : Prop :=
  exists rows row,
    select_rows e (ExportedTable.full_name tb)
      (snd (rows_to_export_and_limit sample_only max_rows
              (ExportedTable.total_rows tb)))
    = Returned rows
    /\ In row rows /\ In v row.

(** [sub in s]. *)
Fixpoint contains (s sub : string) : bool :=
  if String.prefix sub s then true
  else match s with
       | EmptyString => false
       | String _ rest => contains rest sub
       end.

(** The entry [discover_hyper_files] builds for a found path. *)
Definition describes (fs : FileSystem) (p : string) (info : FileInfo.t) : Prop :=
  exists st,
    path_stat fs p = Returned st
    /\ info = {| FileInfo.path := path_absolute fs p;
                 FileInfo.name := basename p;
                 FileInfo.size := st_size st;
                 FileInfo.modified := st_mtime st |}.

(** No stored row is wider than the column list of its table. *)
Definition rows_fit (tb : stored_table) : Prop :=
  Forall (fun row => (List.length row <= List.length (stored_columns tb))%nat)
    (stored_rows tb).

(** * The command line as a whole: [HyperFileInspector.__enter__],
    [__exit__] and [main] *)

(** What [parser.parse_args()] makes of the command line: the parsed
    arguments ([command] is one of the three choices, [--max-rows] an
    integer, [--output] the name given or [None]); or the end of the
    program that [argparse] decides by itself: after [-h] the help text is
    written on standard output and the exit status is 0, after a command
    line it rejects (an unknown command, a missing path, [--max-rows] with
    a value that is not an integer, an unknown option) the usage and the
    message go to standard error and the exit status is 2. *)
Inductive parsed :=
| Parsed (args : arguments) (output : option string)
| HelpRequested (help : string)
| UsageError (message : string).

(** What [main] uses besides the engine and the file system: the parser
    of lines 435-442 applied to the command line, the start of the Hyper
    process, the rendering of [json.dumps] (of a result with
    [indent=2, default=str], and of the dictionary of a critical error),
    and the writing of the output file. *)
Record Host := {
  parse_args : list string -> parsed;
  start_hyper_process : outcome unit;
  json_dumps : command_result -> string;
  json_dumps_error : string -> string;
  write_text : string -> string -> outcome unit
}.

(** What a run of [main] does, oldest first: the help text shown by the
    parser, the Hyper process started and closed, the effects of the
    command, the output file written. *)
Inductive main_event :=
| ShowedHelp (help : string)
| HyperStarted
| HyperClosed
| Did (ev : event)
| Wrote (path content : string).

(** How [with HyperFileInspector() as inspector] begins: the process is
    started, or [__enter__] raises the exception it builds at line 36,
    [HyperException(message)].  The message is passed where the class
    expects its context id, so this exception has no text of its own:
    [str] of it raises an [AttributeError]. *)
Inductive entered :=
| Entered
| StartFailed (message : string).

(** [__enter__]. *)
Definition enter (host : Host) : entered :=
  match start_hyper_process host with
  | Returned tt => Entered
  | Raised ex =>
      StartFailed ("Failed to start Hyper process: " ++ str_exn ex)
  end.

(** Truth value of [args.output] in [if args.output:]. *)
Definition output_given (output : option string) : option string :=
  match output with
  | Some EmptyString => None
  | other => other
  end.

(** The [except Exception] clause of [main] for an exception that has a
    text: the error is printed and the exit status is 1. *)
Definition critical_error (host : Host) (ex : exn) : list main_event :=
  [Did (EvPrint (json_dumps_error host ("Critical error: " ++ str_exn ex)))].

(** [main] on the command line [argv]: the exit status and what was done.
    When the parser ends the program nothing else happens.  When the
    process cannot be started, the [except] clause is entered with the
    exception of [__enter__]; [str(e)] raises there, before anything is
    printed, and the program ends on that uncaught exception, with status
    1 and nothing on standard output.  Otherwise the inspector is left,
    and the process closed, before an exception reaches the [except]
    clause. *)
Definition main (host : Host) (fs : FileSystem) (e : Engine)
    (argv : list string) : Z * list main_event :=
  match parse_args host argv with
  | HelpRequested help => (0, [ShowedHelp help])
  | UsageError _ => (2, [])
  | Parsed args output =>
      match enter host with
      | StartFailed _ => (1, [])
      | Entered =>
          let '(o, t) := run_command fs e args in
          match o with
          | Raised ex =>
              (1, (HyperStarted :: map Did t ++ [HyperClosed]
                   ++ critical_error host ex)%list)
          | Returned result =>
              let json_output := json_dumps host result in
              match output_given output with
              | Some path =>
                  match write_text host path json_output with
                  | Returned _ =>
                      (0, (HyperStarted :: map Did t
                           ++ [Wrote path json_output; HyperClosed])%list)
                  | Raised ex =>
                      (1, (HyperStarted :: map Did t ++ [HyperClosed]
                           ++ critical_error host ex)%list)
                  end
              | None =>
                  (0, (HyperStarted :: map Did t
                       ++ [Did (EvPrint json_output); HyperClosed])%list)
              end
          end
      end
  end.

(** The lines a trace prints, in order. *)
Fixpoint printed_lines (t : trace) : list string :=
  match t with
  | [] => []
  | EvPrint line :: rest => line :: printed_lines rest
  | _ :: rest => printed_lines rest
  end.

(** What a run of [main] writes on standard output. *)
Fixpoint stdout_of (t : list main_event) : list string :=
  match t with
  | [] => []
  | ShowedHelp help :: rest => help :: stdout_of rest
  | Did (EvPrint line) :: rest => line :: stdout_of rest
  | _ :: rest => stdout_of rest
  end.

Definition command_named (name : string) : option command :=
  if (name =? "inspect")%string then Some CmdInspect
  else if (name =? "discover")%string then Some CmdDiscover
  else if (name =? "export")%string then Some CmdExport
  else None.

Definition is_option (word : string) : bool :=
  match word with
  | String "-" _ => true
  | _ => false
  end.

(** A parser for the examples.  It follows the parser of [main] on the
    command lines it knows: none at all, [-h] or [--help] alone, one word,
    [command path], and [command path --output file], where no word but
    the option begins with a dash.  Any other command line it takes as
    rejected, which is all the examples need. *)
Definition sample_parse_args (argv : list string) : parsed :=
  match argv with
  | [] => UsageError "the following arguments are required: command, path"
  | [word] =>
      if ((word =? "-h") || (word =? "--help"))%string
      then HelpRequested "usage: hyper_inspector.py"
      else UsageError "the following arguments are required"
  | [name; path] =>
      match command_named name with
      | Some cmd =>
          if is_option path then UsageError "unrecognized arguments"
          else Parsed (Arguments_ cmd path false None) None
      | None => UsageError "argument command: invalid choice"
      end
  | [name; path; option; file] =>
      match command_named name with
      | Some cmd =>
          if (negb (is_option path) && (option =? "--output")%string
              && negb (is_option file))%bool
          then Parsed (Arguments_ cmd path false None) (Some file)
          else UsageError "unrecognized arguments"
      | None => UsageError "argument command: invalid choice"
      end
  | _ => UsageError "unrecognized arguments"
  end.

(** A host for the examples: the process starts, the renderings are left
    symbolic, every file can be written. *)
Definition sample_host : Host :=
  {| parse_args := sample_parse_args;
     start_hyper_process := Returned tt;
     json_dumps := fun r => if result_success r then "{success}" else "{failure}";
     json_dumps_error := fun msg => msg;
     write_text := fun _ _ => Returned tt |}.

(** The same host on a machine where the Hyper process cannot be
    started. *)
Definition no_hyper_host : Host :=
  {| parse_args := sample_parse_args;
     start_hyper_process := Raised (PyException "hyperd not found");
     json_dumps := json_dumps sample_host;
     json_dumps_error := json_dumps_error sample_host;
     write_text := write_text sample_host |}.

(** * More notions used in the statements *)

(** The effects that can only happen on an open connection. *)
Definition on_connection (ev : event) : Prop :=
  match ev with
  | EvQuery _ | EvPrint _ => True
  | _ => False
  end.

(** The effects of a method bracket its use of the connection: nothing
    was done; or the connection was refused and nothing else was done; or
    it was opened first, closed last, and used in between. *)
Definition scoped (e : Engine) (database : string) (t : trace) : Prop :=
  t = []
  \/ (t = [EvConnect database]
      /\ exists ex, open_connection e database = Raised ex)
  \/ (open_connection e database = Returned tt
      /\ exists used, t = (EvConnect database :: used ++ [EvClose])%list
                      /\ Forall on_connection used).

Definition not_a_print (ev : event) : Prop :=
  match ev with
  | EvPrint _ => False
  | _ => True
  end.

Definition inspected_key (tb : InspectedTable.t) : string * string :=
  (InspectedTable.schema tb, InspectedTable.name tb).

(** The export of the same file with another [max_rows_per_table]
    recorded in the result. *)
Definition recording_max_rows (max_rows : option Z) (o : outcome export_result)
    : outcome export_result :=
  match o with
  | Returned (Exported r) =>
      Returned (Exported
        {| ExportedFile.file_path := ExportedFile.file_path r;
           ExportedFile.file_name := ExportedFile.file_name r;
           ExportedFile.file_size := ExportedFile.file_size r;
           ExportedFile.export_type := ExportedFile.export_type r;
           ExportedFile.max_rows_per_table := max_rows;
           ExportedFile.schemas := ExportedFile.schemas r;
           ExportedFile.tables := ExportedFile.tables r;
           ExportedFile.total_tables := ExportedFile.total_tables r;
           ExportedFile.total_rows_exported := ExportedFile.total_rows_exported r |})
  | other => other
  end.

(** The number of queries in a trace. *)
Fixpoint queries_sent (t : trace) : nat :=
  match t with
  | [] => 0
  | EvQuery _ :: rest => S (queries_sent rest)
  | _ :: rest => queries_sent rest
  end.

(** The entry of an inspected table agrees with the catalog key and shows
    how its count and its sample scan ended. *)
Definition inspects (e : Engine) (key : string * string)
    (tb : InspectedTable.t) : Prop :=
  inspected_key tb = key
  /\ InspectedTable.full_name tb = full_table_name_of (fst key) (snd key)
  /\ InspectedTable.row_count tb
     = row_count_of (count_rows e (InspectedTable.full_name tb))
  /\ InspectedTable.sample_data tb
     = sample_data_of (select_rows e (InspectedTable.full_name tb) (Some 5)).

(** A table whose second row holds one value more than the column list
    names. *)
Definition ragged_table : stored_table :=
  StoredTable "SampleDB" "Ragged" [ not_null "id" "bigint" ]
    [ [VInt 1]; [VInt 2; VStr "extra"] ].

Definition ragged_full_name : string := full_table_name_of "SampleDB" "Ragged".

(** The sample file on an engine where neither [information_schema.tables]
    nor [pg_tables] can be read for the schema listing. *)
Definition no_schema_listing : Engine :=
  with_schema_names
    (fun view =>
       match view with
       | InformationSchemaTables =>
           Raised (PyException "information_schema.tables does not exist")
       | PgTables => Raised (HyperException "pg_tables does not exist")
       | PgNamespace => schema_names sample_engine PgNamespace
       end)
    sample_engine.

(** What [main] does without the engine: printing and writing the output
    file. *)
Definition output_only (ev : main_event) : Prop :=
  match ev with
  | Did (EvPrint _) | Wrote _ _ => True
  | _ => False
  end.

(** The line the data block of an exported table prints: the warning of
    the exception when the scan raised, the warning of the [IndexError]
    when some scanned row is wider than the column list, nothing
    otherwise.  The count of the table has no part in it. *)
Definition data_warning (e : Engine) (sample_only : bool) (max_rows : option Z)
    (tb : ExportedTable.t) : list string :=
  let full := ExportedTable.full_name tb in
  let limit :=
    snd (rows_to_export_and_limit sample_only max_rows
           (ExportedTable.total_rows tb)) in
  match select_rows e full limit with
  | Raised ex => [export_warning full ex]
  | Returned rows =>
      if forallb
           (fun row =>
              (List.length row <=? List.length (ExportedTable.columns tb))%nat)
           rows
      then []
      else [export_warning full (PyException "list index out of range")]
  end.

(** How [inspect_file] shows a scanned value in a sample row: null stays
    null, an object with an [isoformat] method is shown by that text,
    every other value (text, numbers, booleans, the engine's own dates
    and timestamps, decimals, ...) by the text [str] gives. *)
Inductive sample_shows : value -> value -> Prop :=
| shows_none : sample_shows VNone VNone
| shows_isoformat (t : temporal) :
    sample_shows (VTemporal t) (VStr (isoformat t))
| shows_text (s : string) : sample_shows (VStr s) (VStr s)
| shows_int (n : Z) : sample_shows (VInt n) (VStr (str_int n))
| shows_float (f : pyfloat) : sample_shows (VFloat f) (VStr (float_repr f))
| shows_bool (b : bool) :
    sample_shows (VBool b) (VStr (if b then "True" else "False"))
| shows_other (o : pyobject) : sample_shows (VOther o) (VStr (object_str o)).

(** What [export_file_data] stores for a scanned value: null for null,
    the [isoformat] text for an object that has the method, and the value
    itself, unchanged, in every other case. *)
Inductive export_stores : value -> value -> Prop :=
| stores_none : export_stores VNone VNone
| stores_isoformat (t : temporal) :
    export_stores (VTemporal t) (VStr (isoformat t))
| stores_text (s : string) : export_stores (VStr s) (VStr s)
| stores_int (n : Z) : export_stores (VInt n) (VInt n)
| stores_float (f : pyfloat) : export_stores (VFloat f) (VFloat f)
| stores_bool (b : bool) : export_stores (VBool b) (VBool b)
| stores_other (o : pyobject) : export_stores (VOther o) (VOther o).
(** * Properties *)

Open Scope list_scope.

(** ** Reasoning about the monad and its loops *)

Section Loops.
Context {A S : Type}.
Variable body : A -> S -> M S.

Lemma for_each_step (x : A) (xs : list A) (s : S) :
  for_each (x :: xs) body s = bind (body x s) (for_each xs body).
Proof. reflexivity. Qed.

(** An invariant of the accumulator that every returning iteration
    keeps holds when the loop returns. *)
Lemma for_each_invariant (I : S -> Prop) (xs : list A) :
  (forall x s s' t, In x xs -> I s -> body x s = (Returned s', t) -> I s') ->
  forall s s' t, I s -> for_each xs body s = (Returned s', t) -> I s'.
Proof.
  induction xs as [|x xs IH]; intros Hbody s s' t Hs Hrun.
  - simpl in Hrun. unfold ret in Hrun. congruence.
  - rewrite for_each_step in Hrun. unfold bind in Hrun.
    destruct (body x s) as [[s1|ex] t1] eqn:Hx; [|discriminate].
    destruct (for_each xs body s1) as [r t2] eqn:Hrest.
    injection Hrun as -> _.
    apply (IH (fun y u u' v H => Hbody y u u' v (in_cons _ _ _ H)) s1 s' t2).
    + exact (Hbody x s s1 t1 (in_eq _ _) Hs Hx).
    + exact Hrest.
Qed.

(** When no iteration raises the loop returns, and an invariant that
    relates the items already visited, the accumulator and the effects
    performed so far holds at the end. *)
Lemma for_each_returns (I : list A -> S -> trace -> Prop) (xs : list A) :
  (forall visited x s t,
      In x xs -> I visited s t ->
      exists s' t', body x s = (Returned s', t')
                    /\ I (visited ++ [x])%list s' (t ++ t')%list) ->
  forall visited s t,
    I visited s t ->
    exists s' t', for_each xs body s = (Returned s', t')
                  /\ I (visited ++ xs)%list s' (t ++ t')%list.
Proof.
  induction xs as [|x xs IH]; intros Hbody visited s t Hs.
  - exists s, []. simpl. rewrite !app_nil_r. auto.
  - destruct (Hbody visited x s t (in_eq _ _) Hs) as (s1 & t1 & Hx & H1).
    destruct (IH (fun v y s t H => Hbody v y s t (in_cons _ _ _ H))
                _ _ _ H1) as (s2 & t2 & Hrest & H2).
    exists s2, (t1 ++ t2)%list.
    rewrite for_each_step. unfold bind. rewrite Hx, Hrest.
    rewrite <- app_assoc in H2. simpl in H2. rewrite app_assoc. auto.
Qed.
End Loops.

Lemma execute_eq {A} (q : query) (answer : outcome A) :
  execute q answer = (answer, [EvQuery q]).
Proof. unfold execute, bind, emit, lift. destruct answer; reflexivity. Qed.

(** The effects of a connection: opened first, closed last. *)
Lemma with_connection_opened {A} (e : Engine) (database : string) (body : M A) :
  open_connection e database = Returned tt ->
  with_connection e database body
  = (outcome_of body, (EvConnect database :: effects_of body ++ [EvClose])%list).
Proof.
  intros Hopen. unfold with_connection, bind, emit, lift. rewrite Hopen.
  destruct body as [r t]. reflexivity.
Qed.

Lemma with_connection_refused {A} (e : Engine) (database : string) (body : M A) ex :
  open_connection e database = Raised ex ->
  with_connection e database body = (Raised ex, [EvConnect database]).
Proof.
  intros Hopen. unfold with_connection, bind, emit, lift. rewrite Hopen.
  reflexivity.
Qed.

(** ** The blocks of the export, one table at a time *)

Lemma count_or_zero_eq (e : Engine) (full : string) :
  count_or_zero e full
  = (Returned match count_rows e full with Returned n => n | Raised _ => 0 end,
     [EvQuery (CountRows full)]).
Proof.
  unfold count_or_zero, try_except. rewrite execute_eq.
  destruct (count_rows e full); reflexivity.
Qed.

(** The conversion loop performs no effect; when it returns, every
    scanned row has been converted and appended, in order. *)
Lemma append_rows_spec (column_names : list string) (rows : list (list value)) :
  forall acc,
  exists o,
    for_each rows (append_row column_names) acc = (o, [])
    /\ forall d, o = Returned d ->
         exists ds, d = (acc ++ ds)%list
           /\ Forall2 (fun row dct => export_row column_names 0 row [] = Returned dct)
                rows ds.
Proof.
  induction rows as [|row rows IH]; intros acc.
  - exists (Returned acc). split; [reflexivity|].
    intros d [= <-]. exists []. rewrite app_nil_r. auto.
  - rewrite for_each_step. unfold append_row at 1, bind, lift, ret.
    destruct (export_row column_names 0 row []) as [dct|ex] eqn:Hrow.
    + destruct (IH (acc ++ [dct])%list) as (o & Hrun & Hspec). rewrite Hrun.
      exists o. split; [reflexivity|].
      intros d Hd. destruct (Hspec d Hd) as (ds & -> & Hall).
      exists (dct :: ds). rewrite <- app_assoc. auto.
    + exists (Raised ex). split; [reflexivity|]. discriminate.
Qed.

(** The data block always returns; its second component is the running
    total plus the number of rows kept.  Either every scanned row was
    converted, or the table's data is empty and a warning was printed. *)
Lemma export_data_spec (e : Engine) (column_names : list string)
    (full : string) (limit : option Z) (total : Z) :
  exists d tr,
    export_data e column_names full limit total
    = (Returned (d, total + Z.of_nat (List.length d)), tr)
    /\ ((exists rows,
           select_rows e full limit = Returned rows
           /\ Forall2 (fun row dct => export_row column_names 0 row [] = Returned dct)
                rows d
           /\ tr = [EvQuery (SelectRows full limit)])
        \/ (exists ex,
              d = []
              /\ (forall ex', select_rows e full limit = Raised ex' -> ex' = ex)
              /\ tr = [EvQuery (SelectRows full limit);
                       EvPrint (export_warning full ex)])).
Proof.
  unfold export_data, try_except. rewrite execute_eq. unfold bind at 1.
  destruct (select_rows e full limit) as [rows|ex] eqn:Hsel.
  - destruct (append_rows_spec column_names rows []) as (o & Hrun & Hspec).
    unfold bind at 1. rewrite Hrun. destruct o as [d|ex].
    + destruct (Hspec d eq_refl) as (ds & -> & Hall). simpl in *.
      exists ds, [EvQuery (SelectRows full limit)]. split; [reflexivity|].
      left. exists rows. auto.
    + simpl. exists [], [EvQuery (SelectRows full limit);
                         EvPrint (export_warning full ex)].
      split; [now rewrite Z.add_0_r|]. right. exists ex. repeat split.
      discriminate.
  - simpl. exists [], [EvQuery (SelectRows full limit);
                       EvPrint (export_warning full ex)].
    split; [now rewrite Z.add_0_r|]. right. exists ex. repeat split.
    congruence.
Qed.

Lemma bind_returned {A B} (m : M A) (k : A -> M B) (b : B) (t : trace) :
  bind m k = (Returned b, t) ->
  exists a t1 t2,
    m = (Returned a, t1) /\ k a = (Returned b, t2) /\ t = (t1 ++ t2)%list.
Proof.
  unfold bind. destruct m as [[a|ex] t1]; [|discriminate].
  destruct (k a) as [r t2] eqn:Hk. intros [= -> <-].
  exists a, t1, t2. auto.
Qed.

(** Every outcome of the body of a loop being a return or a raise, a
    loop that returned has visited every item: an invariant relating the
    items visited, the accumulator and the effects holds at the end. *)
Lemma for_each_visited {A S} (body : A -> S -> M S)
    (I : list A -> S -> trace -> Prop) (xs : list A) :
  (forall visited x s t s' t',
      In x xs -> I visited s t -> body x s = (Returned s', t') ->
      I (visited ++ [x]) s' (t ++ t')) ->
  forall visited s t s' t',
    I visited s t -> for_each xs body s = (Returned s', t') ->
    I (visited ++ xs) s' (t ++ t').
Proof.
  induction xs as [|x xs IH]; intros Hbody visited s t s' t' Hs Hrun.
  - simpl in Hrun. unfold ret in Hrun. injection Hrun as <- <-.
    now rewrite !app_nil_r.
  - rewrite for_each_step in Hrun. apply bind_returned in Hrun.
    destruct Hrun as (s1 & t1 & t2 & Hx & Hrest & ->).
    pose proof (Hbody visited x s t s1 t1 (in_eq _ _) Hs Hx) as H1.
    pose proof (IH (fun v y u w u' w' H => Hbody v y u w u' w' (in_cons _ _ _ H))
                  _ _ _ _ _ H1 Hrest) as H2.
    rewrite <- app_assoc in H2. simpl in H2. rewrite app_assoc. exact H2.
Qed.

(** What one iteration of the table loop does once the column listing has
    answered: it returns, with one more table and the rows it kept added
    to the total. *)
Lemma export_table_spec (e : Engine) (sample_only : bool) (max_rows : option Z)
    (schema : string) (table_row : string * string)
    (tables_data : list ExportedTable.t) (total : Z) (col_rows : list column_row) :
  columns_of e schema (fst table_row) = Returned col_rows ->
  let full := full_table_name_of schema (fst table_row) in
  let n := match count_rows e full with Returned n => n | Raised _ => 0 end in
  let limit := snd (rows_to_export_and_limit sample_only max_rows n) in
  exists d tr,
    export_data e (map col0 col_rows) full limit total
    = (Returned (d, total + Z.of_nat (List.length d)), tr)
    /\ export_table e sample_only max_rows schema table_row (tables_data, total)
       = (Returned
            ((tables_data ++
              [ {| ExportedTable.schema := schema;
                   ExportedTable.name := fst table_row;
                   ExportedTable.full_name := full;
                   ExportedTable.type := snd table_row;
                   ExportedTable.columns := map column_info_of col_rows;
                   ExportedTable.total_rows := n;
                   ExportedTable.exported_rows := Z.of_nat (List.length d);
                   ExportedTable.data := d |} ])%list,
             total + Z.of_nat (List.length d)),
          (EvQuery (ColumnsOfTable schema (fst table_row))
           :: EvQuery (CountRows full) :: tr)).
Proof.
  intros Hcols full n limit.
  destruct (export_data_spec e (map col0 col_rows) full limit total)
    as (d & tr & Hdata & _).
  exists d, tr. split; [exact Hdata|].
  unfold export_table. rewrite execute_eq, Hcols. unfold bind at 1.
  rewrite count_or_zero_eq. unfold bind at 1.
  fold full. fold n. fold limit. rewrite Hdata. unfold bind, ret. simpl.
  rewrite app_nil_r. reflexivity.
Qed.

Lemma export_table_listed (e : Engine) sample_only max_rows schema table_row acc acc' t :
  export_table e sample_only max_rows schema table_row acc = (Returned acc', t) ->
  exists col_rows, columns_of e schema (fst table_row) = Returned col_rows.
Proof.
  destruct acc as [tables_data total]. unfold export_table.
  rewrite execute_eq. intros H. apply bind_returned in H.
  destruct H as (col_rows & t1 & t2 & [= H _] & _). eauto.
Qed.

(** ** What the tables of an export are *)

Lemma sum_exported_rows_app (l1 l2 : list ExportedTable.t) :
  sum_exported_rows (l1 ++ l2) = sum_exported_rows l1 + sum_exported_rows l2.
Proof.
  unfold sum_exported_rows. induction l1 as [|tb l1 IH]; simpl; [reflexivity|].
  rewrite IH. lia.
Qed.

Lemma export_table_accumulates e sample_only max_rows schema table_row acc acc' t :
  export_accumulator e sample_only max_rows acc ->
  export_table e sample_only max_rows schema table_row acc = (Returned acc', t) ->
  export_accumulator e sample_only max_rows acc'.
Proof.
  intros [Hall Hsum] Hrun.
  destruct (export_table_listed _ _ _ _ _ _ Hrun) as (col_rows & Hcols).
  destruct acc as [tables_data total]. simpl in Hall, Hsum.
  destruct (export_table_spec e sample_only max_rows schema table_row
              tables_data total Hcols) as (d & tr & Hdata & Hspec).
  rewrite Hspec in Hrun. injection Hrun as <- _.
  split; simpl.
  - apply Forall_app. split; [exact Hall|]. constructor; [|constructor].
    exists schema, table_row, col_rows, total, tr. simpl. auto.
  - rewrite sum_exported_rows_app. unfold sum_exported_rows at 2. simpl. lia.
Qed.

Lemma export_schema_accumulates e sample_only max_rows schema acc acc' t :
  export_accumulator e sample_only max_rows acc ->
  export_schema e sample_only max_rows schema acc = (Returned acc', t) ->
  export_accumulator e sample_only max_rows acc'.
Proof.
  intros Hacc Hrun. unfold export_schema in Hrun. rewrite execute_eq in Hrun.
  apply bind_returned in Hrun. destruct Hrun as (rows & t1 & t2 & _ & Hloop & _).
  revert Hacc Hloop. apply for_each_invariant.
  intros x s s' t' _. apply export_table_accumulates.
Qed.

(** A successful export went through both guards, read the file size,
    opened the connection, and its tables and total are what the loop over
    the listed schemas accumulated. *)
Lemma export_file_data_exported fs e file_path sample_only max_rows r :
  outcome_of (export_file_data fs e file_path sample_only max_rows)
  = Returned (Exported r) ->
  exists schemas t,
    for_each schemas (export_schema e sample_only max_rows) ([], 0)
    = (Returned (ExportedFile.tables r, ExportedFile.total_rows_exported r), t)
    /\ ExportedFile.schemas r = schemas
    /\ ExportedFile.total_tables r
       = Z.of_nat (List.length (ExportedFile.tables r)).
Proof.
  unfold export_file_data.
  destruct (path_exists fs file_path); simpl; [|discriminate].
  destruct (endswith (lower file_path) ".hyper"); simpl; [|discriminate].
  unfold try_except, export_body, lift. unfold bind at 1.
  destruct (getsize fs file_path) as [size|ex]; [|discriminate].
  destruct (open_connection e file_path) as [[]|ex] eqn:Hopen.
  - rewrite (with_connection_opened _ _ _ Hopen). simpl.
    unfold outcome_of.
    destruct (export_schemas e) as [[schemas|ex] t1]; simpl; [|discriminate].
    destruct (for_each schemas (export_schema e sample_only max_rows) ([], 0))
      as [[[tables_data total]|ex] t2] eqn:Hloop; simpl; [|discriminate].
    intros [= <-]. simpl. exists schemas, t2. auto.
  - rewrite (with_connection_refused _ _ _ Hopen). simpl. discriminate.
Qed.

Lemma export_file_data_tables fs e file_path sample_only max_rows r :
  outcome_of (export_file_data fs e file_path sample_only max_rows)
  = Returned (Exported r) ->
  export_accumulator e sample_only max_rows
    (ExportedFile.tables r, ExportedFile.total_rows_exported r).
Proof.
  intros Hrun.
  destruct (export_file_data_exported _ _ _ _ _ Hrun) as (schemas & t & Hloop & _).
  revert Hloop. apply for_each_invariant.
  - intros x s s' t' _. apply export_schema_accumulates.
  - split; [constructor|reflexivity].
Qed.

(** C9: in every successful export result each table's [exported_rows] is
    the length of its [data] list, and [total_rows_exported] is the sum of
    the [exported_rows] of all tables, tables whose data query failed
    (and so hold no row) included. *)
Theorem export_rows_accounting fs e file_path sample_only max_rows r :
  outcome_of (export_file_data fs e file_path sample_only max_rows)
  = Returned (Exported r) ->
  Forall (fun tb => ExportedTable.exported_rows tb
                    = Z.of_nat (List.length (ExportedTable.data tb)))
    (ExportedFile.tables r)
  /\ ExportedFile.total_rows_exported r
     = sum_exported_rows (ExportedFile.tables r).
Proof.
  intros Hrun. destruct (export_file_data_tables _ _ _ _ _ Hrun) as [Hall Hsum].
  split; [|exact Hsum].
  eapply Forall_impl; [|exact Hall].
  intros tb (schema & table_row & col_rows & total & tr & _ & _ & ->).
  reflexivity.
Qed.

(** ** What the tables of an inspection are *)

Lemma count_or_unknown_eq (e : Engine) (full : string) (total : Z) :
  count_or_unknown e full total
  = (Returned (row_count_of (count_rows e full),
               total + counted_rows (row_count_of (count_rows e full))),
     [EvQuery (CountRows full)]).
Proof.
  unfold count_or_unknown, try_except. rewrite execute_eq. unfold bind, ret.
  destruct (count_rows e full); simpl; [reflexivity|].
  now rewrite Z.add_0_r.
Qed.

Lemma sample_of_eq (e : Engine) (full : string) :
  sample_of e full
  = (Returned (sample_data_of (select_rows e full (Some 5))),
     [EvQuery (SelectRows full (Some 5))]).
Proof.
  unfold sample_of, try_except. rewrite execute_eq. unfold bind, ret.
  destruct (select_rows e full (Some 5)); reflexivity.
Qed.

Lemma inspect_table_spec (e : Engine) (schema : string)
    (table_row : string * string) (tables_info : list InspectedTable.t)
    (total : Z) (col_rows : list column_row) :
  columns_of e schema (fst table_row) = Returned col_rows ->
  let full := full_table_name_of schema (fst table_row) in
  inspect_table e schema table_row (tables_info, total)
  = (Returned
       ((tables_info ++
         [ {| InspectedTable.schema := schema;
              InspectedTable.name := fst table_row;
              InspectedTable.full_name := full;
              InspectedTable.type := snd table_row;
              InspectedTable.columns := map column_info_of col_rows;
              InspectedTable.row_count := row_count_of (count_rows e full);
              InspectedTable.sample_data :=
                sample_data_of (select_rows e full (Some 5)) |} ])%list,
        total + counted_rows (row_count_of (count_rows e full))),
     [EvQuery (ColumnsOfTable schema (fst table_row));
      EvQuery (CountRows full);
      EvQuery (SelectRows full (Some 5))]).
Proof.
  intros Hcols full. unfold inspect_table.
  rewrite execute_eq, Hcols. unfold bind at 1.
  rewrite count_or_unknown_eq. unfold bind at 1.
  rewrite sample_of_eq. reflexivity.
Qed.

Lemma inspect_table_listed (e : Engine) schema table_row acc acc' t :
  inspect_table e schema table_row acc = (Returned acc', t) ->
  exists col_rows, columns_of e schema (fst table_row) = Returned col_rows.
Proof.
  destruct acc as [tables_info total]. unfold inspect_table.
  rewrite execute_eq. intros H. apply bind_returned in H.
  destruct H as (col_rows & t1 & t2 & [= H _] & _). eauto.
Qed.

Lemma sum_counted_rows_app (l1 l2 : list InspectedTable.t) :
  sum_counted_rows (l1 ++ l2) = sum_counted_rows l1 + sum_counted_rows l2.
Proof.
  unfold sum_counted_rows. induction l1 as [|tb l1 IH]; simpl; [reflexivity|].
  rewrite IH. lia.
Qed.

Lemma inspect_table_accumulates e schema table_row acc acc' t :
  inspect_accumulator e acc ->
  inspect_table e schema table_row acc = (Returned acc', t) ->
  inspect_accumulator e acc'.
Proof.
  intros [Hall Hsum] Hrun.
  destruct (inspect_table_listed _ _ _ _ Hrun) as (col_rows & Hcols).
  destruct acc as [tables_info total]. simpl in Hall, Hsum.
  rewrite (inspect_table_spec e schema table_row tables_info total Hcols) in Hrun.
  injection Hrun as <- _.
  split; simpl.
  - apply Forall_app. split; [exact Hall|]. constructor; [|constructor].
    exists schema, table_row, col_rows. simpl. auto.
  - rewrite sum_counted_rows_app. unfold sum_counted_rows at 2. simpl. lia.
Qed.

Lemma inspect_schema_accumulates e schema acc acc' t :
  inspect_accumulator e acc ->
  inspect_schema e schema acc = (Returned acc', t) ->
  inspect_accumulator e acc'.
Proof.
  intros Hacc Hrun. unfold inspect_schema in Hrun. rewrite execute_eq in Hrun.
  apply bind_returned in Hrun. destruct Hrun as (rows & t1 & t2 & _ & Hloop & _).
  revert Hacc Hloop. apply for_each_invariant.
  intros x s s' t' _. apply inspect_table_accumulates.
Qed.

Lemma inspect_file_inspected fs e file_path r :
  outcome_of (inspect_file fs e file_path) = Returned (Inspected r) ->
  exists schemas t,
    for_each schemas (inspect_schema e) ([], 0)
    = (Returned (InspectedFile.tables r, InspectedFile.total_rows r), t)
    /\ schema_names e PgNamespace = Returned schemas
    /\ InspectedFile.schemas r = schemas
    /\ InspectedFile.total_tables r
       = Z.of_nat (List.length (InspectedFile.tables r)).
Proof.
  unfold inspect_file.
  destruct (path_exists fs file_path); simpl; [|discriminate].
  destruct (endswith (lower file_path) ".hyper"); simpl; [|discriminate].
  unfold try_except, inspect_body, lift. unfold bind at 1.
  destruct (getsize fs file_path) as [size|ex]; [|discriminate].
  destruct (open_connection e file_path) as [[]|ex] eqn:Hopen.
  - rewrite (with_connection_opened _ _ _ Hopen). rewrite execute_eq.
    unfold outcome_of, effects_of.
    destruct (schema_names e PgNamespace) as [schemas|ex]; simpl; [|discriminate].
    destruct (for_each schemas (inspect_schema e) ([], 0))
      as [[[tables_info total]|ex] t2] eqn:Hloop; simpl; [|discriminate].
    intros [= <-]. simpl. exists schemas, t2. auto.
  - rewrite (with_connection_refused _ _ _ Hopen). simpl. discriminate.
Qed.

Lemma inspect_file_tables fs e file_path r :
  outcome_of (inspect_file fs e file_path) = Returned (Inspected r) ->
  inspect_accumulator e (InspectedFile.tables r, InspectedFile.total_rows r).
Proof.
  intros Hrun.
  destruct (inspect_file_inspected _ _ _ Hrun) as (schemas & t & Hloop & _).
  revert Hloop. apply for_each_invariant.
  - intros x s s' t' _. apply inspect_schema_accumulates.
  - split; [constructor|reflexivity].
Qed.

Lemma export_rows_accounting_witness :
  exists r,
    outcome_of (export_file_data sample_fs orders_scan_fails "sample-data.hyper"
                  false (Some 3))
    = Returned (Exported r)
    /\ map ExportedTable.exported_rows (ExportedFile.tables r) = [3; 0]
    /\ Forall (fun tb => ExportedTable.exported_rows tb
                         = Z.of_nat (List.length (ExportedTable.data tb)))
         (ExportedFile.tables r)
    /\ ExportedFile.total_rows_exported r
       = sum_exported_rows (ExportedFile.tables r).
Proof.
  eexists. split; [vm_compute; reflexivity|]. split; [reflexivity|].
  apply (@export_rows_accounting sample_fs orders_scan_fails
           "sample-data.hyper" false (Some 3)).
  reflexivity.
Defined.

Lemma sum_row_counts_counted (tables : list InspectedTable.t) :
  Forall (fun tb => exists n, InspectedTable.row_count tb = RowCount n) tables ->
  sum_row_counts tables = Some (sum_counted_rows tables).
Proof.
  induction 1 as [|tb tables [n Hn] _ IH]; [reflexivity|].
  simpl. rewrite Hn, IH. unfold sum_counted_rows. simpl. rewrite Hn. reflexivity.
Qed.

(** The [row_count] of an entry tells whether the count query of its
    table answered. *)
Lemma inspected_row_count (e : Engine) (tb : InspectedTable.t) :
  inspected_from e tb ->
  InspectedTable.row_count tb
  = row_count_of (count_rows e (InspectedTable.full_name tb)).
Proof. intros (schema & table_row & col_rows & _ & ->). reflexivity. Qed.

(** C7: in a successful inspect result in which no count query failed
    (the count of every table of the result answered), every [row_count]
    is a number and [total_rows] is their sum. *)
Theorem inspect_total_rows_is_sum fs e file_path r :
  outcome_of (inspect_file fs e file_path) = Returned (Inspected r) ->
  (forall tb, In tb (InspectedFile.tables r) ->
      exists n, count_rows e (InspectedTable.full_name tb) = Returned n) ->
  sum_row_counts (InspectedFile.tables r) = Some (InspectedFile.total_rows r).
Proof.
  intros Hrun Hcounts.
  destruct (inspect_file_tables _ _ _ Hrun) as [Hall Hsum]. simpl in Hall, Hsum.
  rewrite Hsum. apply sum_row_counts_counted.
  rewrite Forall_forall in *. intros tb Htb.
  destruct (Hcounts tb Htb) as (n & Hn). exists n.
  rewrite (inspected_row_count (Hall tb Htb)), Hn. reflexivity.
Qed.

Lemma inspect_total_rows_is_sum_witness :
  exists r,
    outcome_of (inspect_file sample_fs sample_engine "sample-data.hyper")
    = Returned (Inspected r)
    /\ map InspectedTable.row_count (InspectedFile.tables r)
       = [RowCount 5; RowCount 8]
    /\ InspectedFile.total_rows r = 13
    /\ sum_row_counts (InspectedFile.tables r)
       = Some (InspectedFile.total_rows r).
Proof.
  eexists. split; [vm_compute; reflexivity|].
  split; [reflexivity|]. split; [reflexivity|].
  apply (@inspect_total_rows_is_sum sample_fs sample_engine "sample-data.hyper").
  - reflexivity.
  - intros tb [<-|[<-|[]]]; eexists; reflexivity.
Defined.

(** ** Sample sizes *)

(** The data of an exported table: the conversion of every row the scan
    answered with, or nothing. *)
Lemma exported_data_cases e sample_only max_rows tb :
  exported_from e sample_only max_rows tb ->
  let limit :=
    snd (rows_to_export_and_limit sample_only max_rows
           (ExportedTable.total_rows tb)) in
  (exists rows column_names,
      select_rows e (ExportedTable.full_name tb) limit = Returned rows
      /\ Forall2 (fun row dct => export_row column_names 0 row [] = Returned dct)
           rows (ExportedTable.data tb))
  \/ ExportedTable.data tb = [].
Proof.
  intros (schema & table_row & col_rows & total & tr & _ & Hdata & Htb).
  rewrite Htb. cbn [ExportedTable.total_rows ExportedTable.full_name
                    ExportedTable.data].
  cbv zeta in Hdata.
  destruct (export_data_spec e (map col0 col_rows)
              (full_table_name_of schema (fst table_row))
              (snd (rows_to_export_and_limit sample_only max_rows
                      match count_rows e (full_table_name_of schema (fst table_row))
                      with Returned n => n | Raised _ => 0 end))
              total) as (d & tr' & Hrun & Hcases).
  rewrite Hrun in Hdata. injection Hdata as Hd _ _. subst d.
  destruct Hcases as [(rows & Hsel & Hall & _)|(ex & Hnil & _)].
  - left. exists rows, (map col0 col_rows). auto.
  - right. exact Hnil.
Qed.

Lemma sample_only_limit (max_rows : option Z) (n : Z) :
  snd (rows_to_export_and_limit true max_rows n) = Some 5.
Proof. reflexivity. Qed.

(** C5, amended: on an engine that honours [LIMIT 5], every table of an
    inspect result has a [sample_data] of length at most 5, and of length
    at most [row_count] when both the count and the sample scan answered
    (on an engine whose count covers its scans); when the sample scan of
    a table raised, its [sample_data] is the one-element list holding the
    error message, whatever its row count; every table of an export with
    [--sample-only] holds at most 5 rows. *)
Theorem sample_sizes_bounded fs e file_path :
  honours_sample_limit e ->
  (forall r,
      outcome_of (inspect_file fs e file_path) = Returned (Inspected r) ->
      Forall (fun tb =>
                sample_length (InspectedTable.sample_data tb) <= 5
                /\ (count_covers_scan e ->
                    forall n rows,
                      InspectedTable.row_count tb = RowCount n ->
                      InspectedTable.sample_data tb = SampleRows rows ->
                      Z.of_nat (List.length rows) <= n)
                /\ (forall ex,
                      select_rows e (InspectedTable.full_name tb) (Some 5)
                      = Raised ex ->
                      InspectedTable.sample_data tb
                      = SampleError
                          ("Error retrieving sample data: " ++ str_exn ex)%string
                      /\ sample_length (InspectedTable.sample_data tb) = 1))
        (InspectedFile.tables r))
  /\ (forall max_rows r,
        outcome_of (export_file_data fs e file_path true max_rows)
        = Returned (Exported r) ->
        Forall (fun tb =>
                  (List.length (ExportedTable.data tb) <= 5)%nat
                  /\ ExportedTable.exported_rows tb <= 5)
          (ExportedFile.tables r)).
Proof.
  intros Hlimit. split.
  - intros r Hrun. destruct (inspect_file_tables _ _ _ Hrun) as [Hall _].
    eapply Forall_impl; [|exact Hall].
    intros tb (schema & table_row & col_rows & _ & ->).
    cbn [InspectedTable.sample_data InspectedTable.row_count
         InspectedTable.full_name].
    set (full := full_table_name_of schema (fst table_row)).
    destruct (select_rows e full (Some 5)) as [rows|ex] eqn:Hsel; simpl.
    + pose proof (Hlimit full rows Hsel) as Hlen.
      rewrite !length_map. split; [lia|]. split; [|discriminate].
      intros Hcover n rows' Hcount [= <-]. rewrite length_map.
      destruct (count_rows e full) as [n'|ex] eqn:Hn; simpl in Hcount;
        [|discriminate].
      injection Hcount as ->.
      exact (Hcover full (Some 5) n rows Hn Hsel).
    + split; [lia|]. split; [discriminate|].
      intros ex' [= <-]. split; reflexivity.
  - intros max_rows r Hrun.
    destruct (export_file_data_tables _ _ _ _ _ Hrun) as [Hall _].
    eapply Forall_impl; [|exact Hall].
    intros tb Hfrom.
    assert (Hlen : (List.length (ExportedTable.data tb) <= 5)%nat).
    { destruct (exported_data_cases Hfrom) as [(rows & cn & Hsel & Hconv)|Hnil].
      - rewrite sample_only_limit in Hsel.
        rewrite <- (Forall2_length Hconv). exact (Hlimit _ _ Hsel).
      - rewrite Hnil. simpl. lia. }
    split; [exact Hlen|].
    destruct Hfrom as (schema & table_row & col_rows & total & tr & _ & _ & ->).
    simpl in *. lia.
Qed.

(** The reference engine cuts a scan at its [LIMIT]. *)
Lemma db_engine_limit (db : database) (full : string) (k : Z)
    (rows : list (list value)) :
  select_rows (db_engine db) full (Some k) = Returned rows ->
  0 <= k /\ Z.of_nat (List.length rows) <= k.
Proof.
  unfold db_engine. cbn [select_rows].
  destruct (find_table db full) as [tb|]; [|unfold no_such_table; discriminate].
  destruct (Z.ltb_spec k 0); [discriminate|].
  intros [= <-]. rewrite length_firstn. lia.
Qed.

Lemma db_engine_honours_limit (db : database) :
  honours_sample_limit (db_engine db).
Proof.
  intros full rows Hsel. apply db_engine_limit in Hsel. lia.
Qed.

Lemma db_engine_count_covers_scan (db : database) :
  count_covers_scan (db_engine db).
Proof.
  intros full limit n rows. unfold db_engine. cbn [select_rows count_rows].
  destruct (find_table db full) as [tb|]; [|unfold no_such_table; discriminate].
  intros [= <-]. destruct limit as [k|].
  - destruct (k <? 0); [discriminate|]. intros [= <-].
    rewrite length_firstn. lia.
  - intros [= <-]. lia.
Qed.

Lemma log_scan_fails_honours_limit : honours_sample_limit log_scan_fails.
Proof.
  intros full rows. unfold log_scan_fails, with_select_rows. cbn [select_rows].
  destruct (String.eqb full log_full_name); [discriminate|].
  apply (db_engine_honours_limit (sample_db ++ [log_table])%list).
Qed.

Lemma log_scan_fails_count_covers_scan : count_covers_scan log_scan_fails.
Proof.
  intros full limit n rows. unfold log_scan_fails, with_select_rows.
  cbn [select_rows count_rows].
  destruct (String.eqb full log_full_name); [discriminate|].
  apply (db_engine_count_covers_scan (sample_db ++ [log_table])%list).
Qed.

Lemma sample_sizes_bounded_witness :
  honours_sample_limit log_scan_fails
  /\ count_covers_scan log_scan_fails
  /\ (exists r,
        outcome_of (inspect_file sample_fs log_scan_fails "sample-data.hyper")
        = Returned (Inspected r)
        /\ map (fun tb => sample_length (InspectedTable.sample_data tb))
             (InspectedFile.tables r) = [5; 5; 1]
        /\ Forall (fun tb =>
                     sample_length (InspectedTable.sample_data tb) <= 5
                     /\ (forall n rows,
                           InspectedTable.row_count tb = RowCount n ->
                           InspectedTable.sample_data tb = SampleRows rows ->
                           Z.of_nat (List.length rows) <= n)
                     /\ (forall ex,
                           select_rows log_scan_fails
                             (InspectedTable.full_name tb) (Some 5)
                           = Raised ex ->
                           InspectedTable.sample_data tb
                           = SampleError
                               ("Error retrieving sample data: "
                                ++ str_exn ex)%string
                           /\ sample_length (InspectedTable.sample_data tb) = 1))
             (InspectedFile.tables r))
  /\ (exists r,
        outcome_of (export_file_data sample_fs log_scan_fails
                      "sample-data.hyper" true (Some 7))
        = Returned (Exported r)
        /\ map ExportedTable.exported_rows (ExportedFile.tables r) = [5; 5; 0]
        /\ Forall (fun tb =>
                     (List.length (ExportedTable.data tb) <= 5)%nat
                     /\ ExportedTable.exported_rows tb <= 5)
             (ExportedFile.tables r)).
Proof.
  destruct (sample_sizes_bounded sample_fs "sample-data.hyper"
              log_scan_fails_honours_limit) as [Hinspect Hexport].
  split; [exact log_scan_fails_honours_limit|].
  split; [exact log_scan_fails_count_covers_scan|]. split.
  - eexists. split; [vm_compute; reflexivity|]. split; [reflexivity|].
    eapply Forall_impl; [|apply Hinspect; reflexivity].
    intros tb (H1 & H2 & H3).
    split; [exact H1|]. split; [|exact H3].
    exact (H2 log_scan_fails_count_covers_scan).
  - eexists. split; [vm_compute; reflexivity|]. split; [reflexivity|].
    apply (Hexport (Some 7)). reflexivity.
Defined.

(** C5, as stated, fails: the engine honours [LIMIT 5], the empty table
    [Log] is counted at 0 rows, its sample scan raises, and its
    [sample_data] holds one element (the error message). *)
Lemma sample_data_exceeds_row_count :
  honours_sample_limit log_scan_fails
  /\ exists r,
      outcome_of (inspect_file sample_fs log_scan_fails "sample-data.hyper")
      = Returned (Inspected r)
      /\ ~ Forall (fun tb =>
                     sample_length (InspectedTable.sample_data tb) <= 5
                     /\ at_most_row_count
                          (sample_length (InspectedTable.sample_data tb))
                          (InspectedTable.row_count tb))
            (InspectedFile.tables r).
Proof.
  split.
  - intros full rows. unfold log_scan_fails, with_select_rows.
    cbn [select_rows].
    destruct (String.eqb full log_full_name); [discriminate|].
    apply (db_engine_honours_limit (sample_db ++ [log_table])%list).
  - eexists. split; [vm_compute; reflexivity|].
    intros H. do 2 apply Forall_inv_tail in H. apply Forall_inv in H.
    destruct H as [_ H]. vm_compute in H. apply H. reflexivity.
Qed.

(** ** The row limit of the export *)

Lemma limit_of_nonzero_max_rows (n total : Z) :
  n <> 0 ->
  rows_to_export_and_limit false (Some n) total = (Z.min n total, Some n).
Proof.
  intros Hn. unfold rows_to_export_and_limit, truthy.
  destruct (Z.eqb_spec n 0); [contradiction|reflexivity].
Qed.

Lemma export_row_fits (column_names : list string) (data_row : list value) :
  forall i row_data,
    (i + List.length data_row <= List.length column_names)%nat ->
    exists d, export_row column_names i data_row row_data = Returned d.
Proof.
  induction data_row as [|v rest IH]; intros i row_data Hlen; simpl in *.
  - eauto.
  - destruct (nth_error column_names i) as [column_name|] eqn:Hnth.
    + apply IH. lia.
    + apply nth_error_None in Hnth. lia.
Qed.

Lemma append_rows_fit (column_names : list string) (rows : list (list value)) :
  Forall (fun row => (List.length row <= List.length column_names)%nat) rows ->
  forall acc,
  exists ds,
    for_each rows (append_row column_names) acc = (Returned (acc ++ ds), [])
    /\ List.length ds = List.length rows.
Proof.
  induction 1 as [|row rows Hrow _ IH]; intros acc.
  - exists []. rewrite app_nil_r. auto.
  - destruct (@export_row_fits column_names row 0%nat [] Hrow) as (d & Hd).
    destruct (IH (acc ++ [d])) as (ds & Hrun & Hlen).
    exists (d :: ds). rewrite for_each_step.
    unfold append_row at 1, bind, lift, ret. rewrite Hd, Hrun.
    rewrite <- app_assoc. simpl. auto.
Qed.

Lemma Forall_firstn {A} (P : A -> Prop) (n : nat) (l : list A) :
  Forall P l -> Forall P (firstn n l).
Proof.
  revert l. induction n as [|n IH]; intros l Hl; [constructor|].
  destruct Hl; simpl; constructor; auto.
Qed.

(** On the reference engine an export with [--max-rows N], [N] positive,
    keeps [min(N, total_rows)] rows of every table. *)
Lemma positive_max_rows_limits_export fs db file_path (N : Z) r :
  Forall rows_fit db ->
  0 < N ->
  outcome_of (export_file_data fs (db_engine db) file_path false (Some N))
  = Returned (Exported r) ->
  Forall (fun tb => ExportedTable.exported_rows tb
                    = Z.min N (ExportedTable.total_rows tb))
    (ExportedFile.tables r).
Proof.
  intros Hfit HN Hrun.
  destruct (export_file_data_tables _ _ _ _ _ Hrun) as [Hall _].
  eapply Forall_impl; [|exact Hall].
  intros tb (schema & table_row & col_rows & total & tr & Hcols & Hdata & ->).
  cbn [ExportedTable.exported_rows ExportedTable.total_rows].
  cbv zeta in Hdata. rewrite limit_of_nonzero_max_rows in Hdata by lia.
  cbn [snd] in Hdata. revert Hcols Hdata.
  unfold export_data, try_except. rewrite execute_eq.
  unfold db_engine. cbn [columns_of count_rows select_rows].
  set (full := full_table_name_of schema (fst table_row)).
  destruct (find_table db full) as [st|] eqn:Hfind;
    [|unfold no_such_table; discriminate].
  intros [= <-].
  destruct (Z.ltb_spec N 0); [lia|].
  assert (Hst : rows_fit st).
  { apply find_some in Hfind. rewrite Forall_forall in Hfit.
    apply Hfit, Hfind. }
  assert (Hcut : Forall (fun row => (List.length row
                                     <= List.length (map col0 (stored_columns st)))%nat)
                   (firstn (Z.to_nat N) (stored_rows st))).
  { rewrite length_map. apply Forall_firstn. exact Hst. }
  destruct (@append_rows_fit _ _ Hcut []) as (ds & Hloop & Hlen).
  unfold bind. rewrite Hloop. simpl.
  intros [= <- _]. rewrite Hlen, length_firstn. lia.
Qed.

(** C1 fails at [--max-rows 0]: the option's value is tested for truth,
    0 is false, and the scan is sent without a [LIMIT]; on the sample file
    the 5 and 8 rows of the two tables are exported where [min(0, total)]
    is 0. *)
Theorem max_rows_zero_exports_every_row :
  (forall total, rows_to_export_and_limit false (Some 0) total = (total, None))
  /\ exists r,
      outcome_of (export_file_data sample_fs sample_engine "sample-data.hyper"
                    false (Some 0))
      = Returned (Exported r)
      /\ map ExportedTable.exported_rows (ExportedFile.tables r) = [5; 8]
      /\ map (fun tb => Z.min 0 (ExportedTable.total_rows tb))
           (ExportedFile.tables r) = [0; 0].
Proof.
  split; [reflexivity|].
  eexists. split; [vm_compute; reflexivity|]. split; reflexivity.
Qed.

(** ** The schema listing and its fallback *)

Lemma export_schemas_primary (e : Engine) (schemas : list string) :
  schema_names e InformationSchemaTables = Returned schemas ->
  export_schemas e
  = (Returned schemas, [EvQuery (ListSchemas InformationSchemaTables)]).
Proof.
  intros H. unfold export_schemas, try_except. rewrite !execute_eq, H.
  reflexivity.
Qed.

Lemma export_schemas_alternate (e : Engine) (ex : exn) :
  schema_names e InformationSchemaTables = Raised ex ->
  export_schemas e
  = (schema_names e PgTables,
     [EvQuery (ListSchemas InformationSchemaTables);
      EvQuery (ListSchemas PgTables)]).
Proof.
  intros H. unfold export_schemas, try_except. rewrite !execute_eq, H.
  reflexivity.
Qed.

(** The export reads nothing else from the schema listing than the list
    of names: two engines that differ only there and list the same
    schemas give the same result. *)
Lemma export_file_data_same_schemas fs e f file_path sample_only max_rows :
  outcome_of (export_schemas (with_schema_names f e))
  = outcome_of (export_schemas e) ->
  outcome_of (export_file_data fs (with_schema_names f e) file_path
                sample_only max_rows)
  = outcome_of (export_file_data fs e file_path sample_only max_rows).
Proof.
  intros Hsame. unfold export_file_data.
  destruct (negb (path_exists fs file_path)); [reflexivity|].
  destruct (negb (endswith (lower file_path) ".hyper")); [reflexivity|].
  unfold try_except, export_body, with_connection.
  change (export_schema (with_schema_names f e)) with (export_schema e).
  change (open_connection (with_schema_names f e)) with (open_connection e).
  unfold outcome_of in *.
  destruct (export_schemas (with_schema_names f e)) as [o1 t1].
  destruct (export_schemas e) as [o2 t2]. simpl in Hsame. subst o2.
  unfold bind, lift, emit.
  destruct (getsize fs file_path) as [size|ex]; [|reflexivity].
  destruct (open_connection e file_path) as [[]|ex]; [|reflexivity].
  destruct o1 as [schemas|ex]; [|reflexivity].
  destruct (for_each schemas (export_schema e sample_only max_rows) ([], 0))
    as [[acc|ex] t3]; reflexivity.
Qed.

(** C2, amended: when [information_schema.tables] cannot be read the
    export lists the schemas from [pg_tables] instead, these two attempts
    and no more, and its result is the one it would have given had the
    first view answered with that list; [inspect_file] reads
    [pg_namespace] only, and when that query raises it returns a failure
    without having tried another view. *)
Theorem schema_listing_fallback fs e file_path size :
  path_exists fs file_path = true ->
  endswith (lower file_path) ".hyper" = true ->
  getsize fs file_path = Returned size ->
  open_connection e file_path = Returned tt ->
  (forall ex,
      schema_names e InformationSchemaTables = Raised ex ->
      export_schemas e
      = (schema_names e PgTables,
         [EvQuery (ListSchemas InformationSchemaTables);
          EvQuery (ListSchemas PgTables)])
      /\ forall schemas sample_only max_rows,
          schema_names e PgTables = Returned schemas ->
          outcome_of (export_file_data fs e file_path sample_only max_rows)
          = outcome_of (export_file_data fs (primary_answering schemas e)
                          file_path sample_only max_rows))
  /\ (forall ex,
        schema_names e PgNamespace = Raised ex ->
        inspect_file fs e file_path
        = (Returned (InspectFailed (error_message ex) (Some file_path)),
           [EvConnect file_path; EvQuery (ListSchemas PgNamespace); EvClose])).
Proof.
  intros Hexists Hext Hsize Hopen. split.
  - intros ex Hprimary. split; [exact (export_schemas_alternate _ Hprimary)|].
    intros schemas sample_only max_rows Halt.
    symmetry. apply export_file_data_same_schemas.
    rewrite (export_schemas_alternate _ Hprimary), Halt.
    unfold primary_answering. now rewrite (export_schemas_primary _ (schemas := schemas)).
  - intros ex Hns. unfold inspect_file. rewrite Hexists, Hext. simpl.
    unfold try_except, inspect_body, lift. unfold bind at 1. rewrite Hsize.
    rewrite (with_connection_opened _ _ _ Hopen).
    rewrite execute_eq, Hns. destruct ex; reflexivity.
Qed.

Lemma schema_listing_fallback_witness :
  (forall ex,
      schema_names no_information_schema InformationSchemaTables = Raised ex ->
      export_schemas no_information_schema
      = (schema_names no_information_schema PgTables,
         [EvQuery (ListSchemas InformationSchemaTables);
          EvQuery (ListSchemas PgTables)])
      /\ forall schemas sample_only max_rows,
          schema_names no_information_schema PgTables = Returned schemas ->
          outcome_of (export_file_data sample_fs no_information_schema
                        "sample-data.hyper" sample_only max_rows)
          = outcome_of (export_file_data sample_fs
                          (primary_answering schemas no_information_schema)
                          "sample-data.hyper" sample_only max_rows))
  /\ (forall ex,
        schema_names no_information_schema PgNamespace = Raised ex ->
        inspect_file sample_fs no_information_schema "sample-data.hyper"
        = (Returned (InspectFailed (error_message ex) (Some "sample-data.hyper")),
           [EvConnect "sample-data.hyper"; EvQuery (ListSchemas PgNamespace);
            EvClose])).
Proof.
  apply (@schema_listing_fallback sample_fs no_information_schema
           "sample-data.hyper" 65536); reflexivity.
Defined.

(** C2, as stated, fails for [inspect_file]: [pg_namespace] cannot be
    read, the other two views would answer, and the inspection fails
    after its single listing query. *)
Lemma inspect_has_no_fallback :
  schema_names no_pg_namespace InformationSchemaTables = Returned ["SampleDB"]
  /\ schema_names no_pg_namespace PgTables = Returned ["SampleDB"]
  /\ inspect_file sample_fs no_pg_namespace "sample-data.hyper"
     = (Returned
          (InspectFailed "Hyper API error: pg_namespace does not exist"
             (Some "sample-data.hyper")),
        [EvConnect "sample-data.hyper"; EvQuery (ListSchemas PgNamespace);
         EvClose])
  /\ inspect_success
       (InspectFailed "Hyper API error: pg_namespace does not exist"
          (Some "sample-data.hyper")) = false.
Proof. repeat split; reflexivity. Qed.

(** ** Failures of one table *)

Lemma printed_lines_app (t1 t2 : trace) :
  printed_lines (t1 ++ t2) = printed_lines t1 ++ printed_lines t2.
Proof.
  induction t1 as [|ev t1 IH]; [reflexivity|].
  destruct ev; simpl; rewrite IH; reflexivity.
Qed.

Lemma export_row_wide (column_names : list string) (data_row : list value) :
  forall i row_data,
    (i <= List.length column_names)%nat ->
    (List.length column_names < i + List.length data_row)%nat ->
    export_row column_names i data_row row_data
    = Raised (PyException "list index out of range").
Proof.
  induction data_row as [|v rest IH]; intros i row_data Hi Hwide; simpl in *.
  - lia.
  - destruct (nth_error column_names i) as [column_name|] eqn:Hnth;
      [|reflexivity].
    assert (i < List.length column_names)%nat
      by (apply nth_error_Some; congruence).
    apply IH; lia.
Qed.

Lemma append_rows_wide (column_names : list string) (rows : list (list value)) :
  Exists (fun row => (List.length column_names < List.length row)%nat) rows ->
  forall acc,
    for_each rows (append_row column_names) acc
    = (Raised (PyException "list index out of range"), []).
Proof.
  induction rows as [|row rows IH]; intros Hwide acc.
  - inversion Hwide.
  - rewrite for_each_step. unfold append_row at 1, bind, lift, ret.
    destruct (Nat.le_gt_cases (List.length row) (List.length column_names))
      as [Hfit|Hrow].
    + destruct (@export_row_fits column_names row 0%nat [] Hfit) as (d & ->).
      inversion Hwide as [? ? Hhere|? ? Hlater]; subst; [lia|].
      rewrite (IH Hlater). reflexivity.
    + rewrite export_row_wide by (simpl; lia). reflexivity.
Qed.

Lemma export_schema_keys e sample_only max_rows schema acc acc' t :
  export_schema e sample_only max_rows schema acc = (Returned acc', t) ->
  exists rows,
    tables_of e schema = Returned rows
    /\ map table_key (fst acc')
       = map table_key (fst acc) ++ map (fun row => (schema, fst row)) rows.
Proof.
  unfold export_schema. rewrite execute_eq. intros H.
  apply bind_returned in H. destruct H as (rows & t1 & t2 & [= Hrows _] & Hloop & _).
  exists rows. split; [exact Hrows|].
  pose proof (for_each_visited
                (export_table e sample_only max_rows schema)
                (fun visited s _ =>
                   map table_key (fst s)
                   = map table_key (fst acc)
                     ++ map (fun row => (schema, fst row)) visited)
                rows) as Hinv.
  apply (Hinv) with (visited := []) (s := acc) (t := []) (s' := acc') (t' := t2).
  - intros visited row [tables_data total] t0 s' t' _ Hkeys Hrun.
    destruct (export_table_listed _ _ _ _ _ _ Hrun) as (col_rows & Hcols).
    destruct (export_table_spec e sample_only max_rows schema row
                tables_data total Hcols) as (d & tr & _ & Hspec).
    rewrite Hspec in Hrun. injection Hrun as <- _. cbn [fst] in *.
    rewrite !map_app, Hkeys, <- app_assoc. reflexivity.
  - simpl. now rewrite app_nil_r.
  - exact Hloop.
Qed.


Lemma failure_contained_later e sample_only max_rows t1 t2 t3 tb :
  failure_contained e sample_only max_rows t2 tb ->
  failure_contained e sample_only max_rows (t1 ++ t2 ++ t3) tb.
Proof.
  intros [Hcount Hscan]. split; [exact Hcount|].
  intros ex Hex. destruct (Hscan ex Hex) as (Hd & Hn & Hin).
  repeat split; auto. apply in_or_app. right. apply in_or_app. now left.
Qed.

Lemma export_table_contained e sample_only max_rows schema table_row
    tables_data total t0 col_rows :
  columns_of e schema (fst table_row) = Returned col_rows ->
  Forall (failure_contained e sample_only max_rows t0) tables_data ->
  exists acc' t',
    export_table e sample_only max_rows schema table_row (tables_data, total)
    = (Returned acc', t')
    /\ map table_key (fst acc')
       = (map table_key tables_data ++ [(schema, fst table_row)])%list
    /\ Forall (failure_contained e sample_only max_rows (t0 ++ t')) (fst acc').
Proof.
  intros Hcols Hold.
  destruct (export_table_spec e sample_only max_rows schema table_row
              tables_data total Hcols) as (d & tr & Hdata & Hspec).
  eexists. eexists. split; [exact Hspec|]. cbn [fst]. split.
  - rewrite map_app. reflexivity.
  - apply Forall_app. split.
    + eapply Forall_impl; [|exact Hold]. intros tb Htb.
      rewrite <- (app_nil_l t0), <- app_assoc.
      now apply failure_contained_later.
    + constructor; [|constructor].
      set (full := full_table_name_of schema (fst table_row)) in *.
      split; cbn [ExportedTable.full_name ExportedTable.total_rows
                  ExportedTable.data ExportedTable.exported_rows].
      * intros ex Hex. rewrite Hex. reflexivity.
      * intros ex Hex.
        destruct (export_data_spec e (map col0 col_rows) full
                    (snd (rows_to_export_and_limit sample_only max_rows
                            match count_rows e full with
                            | Returned n => n
                            | Raised _ => 0
                            end)) total) as (d' & tr' & Hrun & Hcases).
        rewrite Hrun in Hdata. injection Hdata as Hd _ Htr. subst d' tr'.
        destruct Hcases as [(rows & Hsel & _)|(ex' & -> & Hsame & ->)];
          [congruence|].
        rewrite <- (Hsame ex Hex). repeat split.
        apply in_or_app. right. simpl. auto.
Qed.

Lemma export_schema_contained e sample_only max_rows schema acc t0 rows :
  tables_of e schema = Returned rows ->
  (forall row, In row rows ->
      exists col_rows, columns_of e schema (fst row) = Returned col_rows) ->
  Forall (failure_contained e sample_only max_rows t0) (fst acc) ->
  exists acc' t',
    export_schema e sample_only max_rows schema acc = (Returned acc', t')
    /\ map table_key (fst acc')
       = (map table_key (fst acc) ++ map (fun row => (schema, fst row)) rows)%list
    /\ Forall (failure_contained e sample_only max_rows (t0 ++ t')) (fst acc').
Proof.
  intros Hrows Hcols Hold.
  destruct (for_each_returns
              (export_table e sample_only max_rows schema)
              (fun visited s t =>
                 map table_key (fst s)
                 = (map table_key (fst acc)
                    ++ map (fun row => (schema, fst row)) visited)%list
                 /\ Forall (failure_contained e sample_only max_rows
                              (t0 ++ [EvQuery (TablesOfSchema schema)] ++ t))
                      (fst s))
              rows) with (visited := @nil (string * string)) (s := acc)
                         (t := @nil event)
    as (acc' & t' & Hloop & Hkeys & Hall).
  - intros visited table_row [tables_data total] t Hin [Hkeys Hall].
    destruct (Hcols table_row Hin) as (col_rows & Hc).
    destruct (@export_table_contained e sample_only max_rows schema table_row
                tables_data total _ col_rows Hc Hall)
      as (s' & t1 & Hrun & Hk & Hf).
    exists s', t1. split; [exact Hrun|]. split.
    + rewrite Hk. cbn [fst] in Hkeys. rewrite Hkeys, map_app, <- app_assoc.
      reflexivity.
    + rewrite <- !app_assoc in Hf. exact Hf.
  - split; [simpl; now rewrite app_nil_r|].
    eapply Forall_impl; [|exact Hold]. intros tb Htb.
    rewrite <- (app_nil_l t0), <- app_assoc.
    now apply failure_contained_later.
  - exists acc', (EvQuery (TablesOfSchema schema) :: t'). split.
    + unfold export_schema. rewrite execute_eq, Hrows. unfold bind.
      rewrite Hloop. reflexivity.
    + split; [exact Hkeys|exact Hall].
Qed.

Lemma listed_tables_app (e : Engine) (l1 l2 : list string) :
  listed_tables e (l1 ++ l2) = listed_tables e l1 ++ listed_tables e l2.
Proof. apply flat_map_app. Qed.

(** When the catalog listings answer, the export succeeds whatever the
    count and the scan of each table do, with one entry for each listed
    table. *)
Lemma export_contains_failures fs e file_path sample_only max_rows size schemas :
  path_exists fs file_path = true ->
  endswith (lower file_path) ".hyper" = true ->
  getsize fs file_path = Returned size ->
  open_connection e file_path = Returned tt ->
  outcome_of (export_schemas e) = Returned schemas ->
  (forall schema, In schema schemas ->
      exists rows, tables_of e schema = Returned rows) ->
  (forall schema table_name,
      In (schema, table_name) (listed_tables e schemas) ->
      exists col_rows, columns_of e schema table_name = Returned col_rows) ->
  exists r t,
    export_file_data fs e file_path sample_only max_rows
    = (Returned (Exported r), t)
    /\ map table_key (ExportedFile.tables r) = listed_tables e schemas
    /\ Forall (failure_contained e sample_only max_rows t)
         (ExportedFile.tables r).
Proof.
  intros Hexists Hext Hsize Hopen Hschemas Htables Hcols.
  destruct (for_each_returns
              (export_schema e sample_only max_rows)
              (fun visited s t =>
                 map table_key (fst s) = listed_tables e visited
                 /\ Forall (failure_contained e sample_only max_rows t) (fst s))
              schemas) with (visited := @nil string)
                            (s := (@nil ExportedTable.t, 0)) (t := @nil event)
    as (acc & tl & Hloop & Hkeys & Hall).
  - intros visited schema s t Hin [Hkeys Hall].
    destruct (Htables schema Hin) as (rows & Hrows).
    assert (Hlisted : forall row, In row rows ->
              In (schema, fst row) (listed_tables e schemas)).
    { intros row Hrow. apply in_flat_map. exists schema. split; [exact Hin|].
      rewrite Hrows. now apply (in_map (fun row => (schema, fst row))). }
    destruct (@export_schema_contained e sample_only max_rows schema s t rows
                Hrows (fun row Hrow => Hcols _ _ (Hlisted row Hrow)) Hall)
      as (s' & t' & Hrun & Hk & Hf).
    exists s', t'. split; [exact Hrun|]. split; [|exact Hf].
    rewrite Hk, Hkeys, listed_tables_app. unfold listed_tables at 3.
    simpl. rewrite Hrows, app_nil_r. reflexivity.
  - split; [reflexivity|constructor].
  - simpl in Hkeys, Hall. unfold outcome_of in Hschemas.
    destruct (export_schemas e) as [o ts] eqn:Hs. simpl in Hschemas. subst o.
    exists {| ExportedFile.file_path := file_path;
              ExportedFile.file_name := basename file_path;
              ExportedFile.file_size := size;
              ExportedFile.export_type :=
                if sample_only then "sample_only"%string else "full_data"%string;
              ExportedFile.max_rows_per_table := max_rows;
              ExportedFile.schemas := schemas;
              ExportedFile.tables := fst acc;
              ExportedFile.total_tables := Z.of_nat (List.length (fst acc));
              ExportedFile.total_rows_exported := snd acc |},
           (EvConnect file_path :: (ts ++ tl ++ []) ++ [EvClose]).
    split; [|split].
    + unfold export_file_data. rewrite Hexists, Hext. simpl.
      unfold try_except, export_body, lift. unfold bind at 1. rewrite Hsize.
      rewrite (with_connection_opened _ _ _ Hopen). rewrite Hs.
      unfold bind. rewrite Hloop. reflexivity.
    + exact Hkeys.
    + cbn [ExportedFile.tables]. eapply Forall_impl; [|exact Hall].
      intros tb Htb.
      change (EvConnect file_path :: (ts ++ tl ++ []) ++ [EvClose])
        with ([EvConnect file_path] ++ (ts ++ tl ++ []) ++ [EvClose]).
      rewrite <- !app_assoc, app_nil_l.
      rewrite (app_assoc [EvConnect file_path] ts).
      now apply failure_contained_later.
Qed.


Lemma forallb_false_exists {A} (f : A -> bool) (l : list A) :
  forallb f l = false -> Exists (fun x => f x = false) l.
Proof.
  induction l as [|x l IH]; simpl; [discriminate|].
  destruct (f x) eqn:Hx; simpl; [|intros _; now left].
  intros H. right. auto.
Qed.

(** What the data block prints. *)
Lemma export_data_prints e column_names full limit total :
  printed_lines (effects_of (export_data e column_names full limit total))
  = match select_rows e full limit with
    | Raised ex => [export_warning full ex]
    | Returned rows =>
        if forallb
             (fun row => (List.length row <=? List.length column_names)%nat)
             rows
        then []
        else [export_warning full (PyException "list index out of range")]
    end.
Proof.
  unfold export_data, try_except. rewrite execute_eq.
  destruct (select_rows e full limit) as [rows|ex]; [|reflexivity].
  destruct (forallb _ rows) eqn:Hfit.
  - assert (Hall : Forall (fun row => (List.length row
                                       <= List.length column_names)%nat) rows).
    { apply Forall_forall. intros row Hrow.
      rewrite forallb_forall in Hfit. apply Nat.leb_le. auto. }
    destruct (@append_rows_fit _ _ Hall []) as (ds & Hloop & _).
    unfold bind. rewrite Hloop. reflexivity.
  - assert (Hwide : Exists (fun row => (List.length column_names
                                        < List.length row)%nat) rows).
    { apply forallb_false_exists in Hfit.
      eapply Exists_impl; [|exact Hfit].
      intros row Hrow. now apply Nat.leb_gt. }
    unfold bind. rewrite (@append_rows_wide _ _ Hwide). reflexivity.
Qed.

Lemma export_table_prints e sample_only max_rows schema table_row acc acc' t :
  export_table e sample_only max_rows schema table_row acc = (Returned acc', t) ->
  exists info,
    fst acc' = fst acc ++ [info]
    /\ printed_lines t = data_warning e sample_only max_rows info.
Proof.
  intros Hrun.
  destruct (export_table_listed _ _ _ _ _ _ Hrun) as (col_rows & Hcols).
  destruct acc as [tables_data total].
  destruct (export_table_spec e sample_only max_rows schema table_row
              tables_data total Hcols) as (d & tr & Hdata & Hspec).
  rewrite Hspec in Hrun. injection Hrun as <- <-.
  eexists. split; [reflexivity|].
  unfold data_warning.
  cbn [ExportedTable.full_name ExportedTable.total_rows ExportedTable.columns
       printed_lines].
  match type of Hdata with
  | export_data _ _ ?full ?limit _ = _ =>
      pose proof (export_data_prints e (map col0 col_rows) full limit total)
        as Hp
  end.
  rewrite Hdata in Hp. unfold effects_of in Hp. cbn [snd] in Hp.
  rewrite length_map in Hp. rewrite length_map. exact Hp.
Qed.

Lemma export_schema_prints e sample_only max_rows schema acc acc' t :
  export_schema e sample_only max_rows schema acc = (Returned acc', t) ->
  flat_map (data_warning e sample_only max_rows) (fst acc')
  = flat_map (data_warning e sample_only max_rows) (fst acc) ++ printed_lines t.
Proof.
  unfold export_schema. rewrite execute_eq. intros H.
  apply bind_returned in H.
  destruct H as (rows & t1 & t2 & [= _ <-] & Hloop & ->).
  pose proof (for_each_visited
                (export_table e sample_only max_rows schema)
                (fun _ s t0 =>
                   flat_map (data_warning e sample_only max_rows) (fst s)
                   = flat_map (data_warning e sample_only max_rows) (fst acc)
                     ++ printed_lines t0)
                rows) as Hinv.
  apply (Hinv) with (visited := []) (s := acc) (t := []) (s' := acc') (t' := t2).
  - intros _ row s t0 s' t' _ Hs Hstep.
    destruct (export_table_prints _ _ _ _ _ _ Hstep) as (info & -> & Hp).
    rewrite flat_map_app, Hs, printed_lines_app, Hp. simpl.
    now rewrite app_nil_r, app_assoc.
  - simpl. now rewrite app_nil_r.
  - exact Hloop.
Qed.

(** A successful export: the guards passed, the schemas listed, the loop
    over them run between the opening and the closing of the
    connection. *)
Lemma export_file_data_run fs e file_path sample_only max_rows r t :
  export_file_data fs e file_path sample_only max_rows
  = (Returned (Exported r), t) ->
  exists ts tl,
    export_schemas e = (Returned (ExportedFile.schemas r), ts)
    /\ for_each (ExportedFile.schemas r)
         (export_schema e sample_only max_rows) ([], 0)
       = (Returned (ExportedFile.tables r, ExportedFile.total_rows_exported r), tl)
    /\ t = EvConnect file_path :: ts ++ tl ++ [EvClose].
Proof.
  unfold export_file_data.
  destruct (path_exists fs file_path); simpl; [|discriminate].
  destruct (endswith (lower file_path) ".hyper"); simpl; [|discriminate].
  unfold try_except, export_body, with_connection.
  unfold bind, lift, emit, ret.
  destruct (getsize fs file_path) as [size|ex]; [|discriminate].
  destruct (open_connection e file_path) as [[]|ex]; [|discriminate].
  destruct (export_schemas e) as [[schemas|ex] ts]; [|discriminate].
  destruct (for_each schemas (export_schema e sample_only max_rows) ([], 0))
    as [[acc|ex] tl] eqn:Hloop; [|discriminate].
  intros [= <- <-]. cbn [ExportedFile.schemas ExportedFile.tables
                         ExportedFile.total_rows_exported].
  exists ts, tl. split; [reflexivity|]. split; [now destruct acc|].
  simpl. now rewrite !app_nil_r, <- app_assoc.
Qed.

(** The lines a successful export prints are the data warnings of its
    tables, in order. *)
Lemma export_file_data_prints fs e file_path sample_only max_rows r t :
  export_file_data fs e file_path sample_only max_rows
  = (Returned (Exported r), t) ->
  printed_lines t
  = flat_map (data_warning e sample_only max_rows) (ExportedFile.tables r).
Proof.
  intros Hrun.
  destruct (export_file_data_run _ _ _ _ _ Hrun) as (ts & tl & Hs & Hloop & ->).
  assert (Hts : printed_lines ts = []).
  { destruct (schema_names e InformationSchemaTables) as [l|ex] eqn:Hp.
    - rewrite (export_schemas_primary _ Hp) in Hs. now injection Hs as _ <-.
    - rewrite (export_schemas_alternate _ Hp) in Hs. now injection Hs as _ <-. }
  pose proof (for_each_visited
                (export_schema e sample_only max_rows)
                (fun _ s t0 =>
                   flat_map (data_warning e sample_only max_rows) (fst s)
                   = printed_lines t0)
                (ExportedFile.schemas r)) as Hinv.
  cbn [printed_lines]. rewrite !printed_lines_app, Hts. simpl.
  rewrite app_nil_r. symmetry.
  apply (Hinv) with (visited := []) (s := ([], 0)) (t := [])
                    (s' := (ExportedFile.tables r,
                            ExportedFile.total_rows_exported r)) (t' := tl).
  - intros _ schema s t0 s' t' _ Hs0 Hstep.
    rewrite (export_schema_prints _ _ _ _ _ Hstep), Hs0, printed_lines_app.
    reflexivity.
  - reflexivity.
  - exact Hloop.
Qed.

(** The tables of a successful export are the tables of the catalog, and
    the column listing of each of them answered. *)
Lemma export_file_data_listed fs e file_path sample_only max_rows r :
  outcome_of (export_file_data fs e file_path sample_only max_rows)
  = Returned (Exported r) ->
  outcome_of (export_schemas e) = Returned (ExportedFile.schemas r)
  /\ forall schema table_name,
      In (schema, table_name) (listed_tables e (ExportedFile.schemas r)) ->
      exists col_rows, columns_of e schema table_name = Returned col_rows.
Proof.
  intros Hout.
  destruct (export_file_data fs e file_path sample_only max_rows) as [o t] eqn:Hrun.
  unfold outcome_of in Hout. simpl in Hout. subst o.
  assert (Hacc : export_accumulator e sample_only max_rows
                   (ExportedFile.tables r, ExportedFile.total_rows_exported r)).
  { apply (@export_file_data_tables fs e file_path sample_only max_rows).
    now rewrite Hrun. }
  destruct Hacc as [Hall _]. cbn [fst] in Hall.
  destruct (export_file_data_run _ _ _ _ _ Hrun) as (ts & tl & Hs & Hloop & _).
  split; [now rewrite Hs|].
  assert (Hkeys : map table_key (ExportedFile.tables r)
                  = listed_tables e (ExportedFile.schemas r)).
  { pose proof (for_each_visited
                  (export_schema e sample_only max_rows)
                  (fun visited s _ =>
                     map table_key (fst s) = listed_tables e visited)
                  (ExportedFile.schemas r)) as Hinv.
    apply (Hinv) with (visited := []) (s := ([], 0)) (t := [])
                      (s' := (ExportedFile.tables r,
                              ExportedFile.total_rows_exported r)) (t' := tl).
    - intros visited schema s t0 s' t' _ Hk Hstep.
      destruct (export_schema_keys _ _ _ _ _ Hstep) as (rows & Hrows & Hk').
      rewrite Hk', Hk, listed_tables_app. unfold listed_tables at 3.
      simpl. rewrite Hrows, app_nil_r. reflexivity.
    - reflexivity.
    - exact Hloop. }
  intros schema table_name Hin. rewrite <- Hkeys in Hin.
  apply in_map_iff in Hin. destruct Hin as (tb & Hkey & Htb).
  rewrite Forall_forall in Hall.
  destruct (Hall tb Htb) as (s0 & row & col_rows & total & tr & Hcols & _ & Htb').
  rewrite Htb' in Hkey. unfold table_key in Hkey.
  cbn [ExportedTable.schema ExportedTable.name] in Hkey.
  injection Hkey as <- <-. eauto.
Qed.

(** Past the two guards a failure comes from the handlers around the
    body, with the path. *)
Lemma export_file_data_failed fs e file_path sample_only max_rows msg where_ :
  path_exists fs file_path = true ->
  endswith (lower file_path) ".hyper" = true ->
  outcome_of (export_file_data fs e file_path sample_only max_rows)
  = Returned (ExportFailed msg where_) ->
  where_ = Some file_path /\ exists ex, msg = error_message ex.
Proof.
  intros Hexists Hext. unfold export_file_data. rewrite Hexists, Hext. simpl.
  unfold try_except, export_body, with_connection.
  unfold bind, lift, emit, ret, outcome_of.
  destruct (getsize fs file_path) as [size|ex]; [|intros [= <- <-]; eauto].
  destruct (open_connection e file_path) as [[]|ex]; [|intros [= <- <-]; eauto].
  destruct (export_schemas e) as [[schemas|ex] ts]; [|intros [= <- <-]; eauto].
  destruct (for_each schemas (export_schema e sample_only max_rows) ([], 0))
    as [[acc|ex] tl]; [discriminate|intros [= <- <-]; eauto].
Qed.

(** C3, amended: when the schema and table listings answer, (1) if the
    column listings answer too the export succeeds whatever the count and
    the scan of each table do, and holds one entry for each listed table:
    a table whose count raises has [total_rows] 0, a table whose scan
    raises has no data, [exported_rows] 0 and its warning among the
    printed lines; the printed lines are exactly the data warnings of the
    tables, so that a failed count prints nothing; (2) if the column
    listing of a listed table raises, the whole export is a failure. *)
Theorem table_failures_contained fs e file_path sample_only max_rows size schemas :
  path_exists fs file_path = true ->
  endswith (lower file_path) ".hyper" = true ->
  getsize fs file_path = Returned size ->
  open_connection e file_path = Returned tt ->
  outcome_of (export_schemas e) = Returned schemas ->
  (forall schema, In schema schemas ->
      exists rows, tables_of e schema = Returned rows) ->
  ((forall schema table_name,
       In (schema, table_name) (listed_tables e schemas) ->
       exists col_rows, columns_of e schema table_name = Returned col_rows) ->
   exists r t,
     export_file_data fs e file_path sample_only max_rows
     = (Returned (Exported r), t)
     /\ map table_key (ExportedFile.tables r) = listed_tables e schemas
     /\ Forall (failure_contained e sample_only max_rows t)
          (ExportedFile.tables r)
     /\ printed_lines t
        = flat_map (data_warning e sample_only max_rows)
            (ExportedFile.tables r))
  /\ (forall schema table_name ex,
        In (schema, table_name) (listed_tables e schemas) ->
        columns_of e schema table_name = Raised ex ->
        exists ex',
          outcome_of (export_file_data fs e file_path sample_only max_rows)
          = Returned (ExportFailed (error_message ex') (Some file_path))).
Proof.
  intros Hexists Hext Hsize Hopen Hschemas Htables. split.
  - intros Hcols.
    destruct (@export_contains_failures fs e file_path sample_only max_rows
                size schemas Hexists Hext Hsize Hopen Hschemas Htables Hcols)
      as (r & t & Hrun & Hkeys & Hall).
    exists r, t. repeat split; auto.
    exact (export_file_data_prints _ _ _ _ _ Hrun).
  - intros schema table_name ex Hin Hraised.
    destruct (export_file_data fs e file_path sample_only max_rows)
      as [[res|ex0] t] eqn:Hrun.
    + destruct res as [msg where_|r]; unfold outcome_of; simpl.
      * destruct (@export_file_data_failed fs e file_path sample_only max_rows
                    msg where_ Hexists Hext) as (-> & ex' & ->);
          [now rewrite Hrun|eauto].
      * exfalso.
        destruct (@export_file_data_listed fs e file_path sample_only max_rows r)
          as (Hs & Hcols); [now rewrite Hrun|].
        rewrite Hschemas in Hs. injection Hs as Hs. rewrite Hs in Hin.
        destruct (Hcols _ _ Hin) as (col_rows & Hc). congruence.
    + exfalso. unfold export_file_data in Hrun.
      rewrite Hexists, Hext in Hrun. simpl in Hrun. unfold try_except in Hrun.
      destruct (export_body fs e file_path sample_only max_rows) as [[a|ex1] t1];
        discriminate.
Qed.

Lemma table_failures_contained_witness :
  (exists r t,
      export_file_data sample_fs orders_scan_fails "sample-data.hyper" false None
      = (Returned (Exported r), t)
      /\ map table_key (ExportedFile.tables r)
         = listed_tables orders_scan_fails ["SampleDB"%string]
      /\ Forall (failure_contained orders_scan_fails false None t)
           (ExportedFile.tables r)
      /\ printed_lines t
         = flat_map (data_warning orders_scan_fails false None)
             (ExportedFile.tables r))
  /\ (exists ex',
        outcome_of (export_file_data sample_fs orders_columns_fail
                      "sample-data.hyper" false None)
        = Returned (ExportFailed (error_message ex')
                      (Some "sample-data.hyper"%string))).
Proof.
  split.
  - apply (@table_failures_contained sample_fs orders_scan_fails
             "sample-data.hyper" false None 65536 ["SampleDB"%string]);
      try reflexivity.
    + intros schema [<-|[]]. eexists. reflexivity.
    + intros schema table_name [H|[H|[]]]; injection H as <- <-;
        eexists; reflexivity.
  - apply (proj2 (@table_failures_contained sample_fs orders_columns_fail
                    "sample-data.hyper" false None 65536 ["SampleDB"%string]
                    eq_refl eq_refl eq_refl eq_refl eq_refl
                    (fun schema H =>
                       match H with
                       | or_introl Heq =>
                           ex_intro _ _
                             (f_equal (tables_of orders_columns_fail) (eq_sym Heq))
                       | or_intror F => match F with end
                       end))
             "SampleDB"%string "Orders"%string
             (HyperException "column listing failed")).
    + right. left. reflexivity.
    + reflexivity.
Defined.

(** C3, as stated, fails for the column listing: the listing of [Orders]
    raises, [Customers] has been read without error, and the whole export
    is a failure.  Nor is a warning printed when a count raises: the
    export of the file whose [Orders] cannot be counted prints nothing. *)
Lemma column_listing_failure_aborts_export :
  (exists col_rows,
      columns_of orders_columns_fail "SampleDB" "Customers" = Returned col_rows)
  /\ outcome_of (export_file_data sample_fs orders_columns_fail
                   "sample-data.hyper" false None)
     = Returned (ExportFailed "Hyper API error: column listing failed"
                   (Some "sample-data.hyper"%string))
  /\ export_success
       (ExportFailed "Hyper API error: column listing failed"
          (Some "sample-data.hyper"%string)) = false
  /\ (exists ex, count_rows orders_count_fails orders_full_name = Raised ex)
  /\ forall line,
      ~ In (EvPrint line)
          (effects_of (export_file_data sample_fs orders_count_fails
                         "sample-data.hyper" false None)).
Proof.
  split; [eexists; reflexivity|]. split; [reflexivity|].
  split; [reflexivity|]. split; [eexists; reflexivity|].
  intros line H. vm_compute in H.
  repeat (destruct H as [H|H]; [discriminate|]). exact H.
Qed.

(** ** The values of the rows *)

Lemma inspect_value_cases (v : value) :
  inspect_value v = VNone \/ exists s, inspect_value v = VStr s.
Proof. destruct v; simpl; eauto. Qed.

Lemma dict_set_in (d : dict) (k : string) (v : value) (kv : string * value) :
  In kv (dict_set d k v) -> In kv d \/ kv = (k, v).
Proof.
  induction d as [|[k' v'] d IH]; simpl.
  - intros [<-|[]]. now right.
  - destruct (String.eqb k' k); simpl.
    + intros [<-|H]; [now right|left; now right].
    + intros [<-|H]; [left; now left|].
      destruct (IH H); [left; now right|now right].
Qed.

(** Every entry of a converted row was there before or holds the
    conversion of a value of the scanned row. *)
Lemma export_row_values (column_names : list string) (data_row : list value) :
  forall i row_data d kv,
    export_row column_names i data_row row_data = Returned d ->
    In kv d ->
    In kv row_data \/ exists v0, In v0 data_row /\ snd kv = export_value v0.
Proof.
  induction data_row as [|v rest IH]; intros i row_data d kv; simpl.
  - intros [= <-]. now left.
  - destruct (nth_error column_names i) as [column_name|]; [|discriminate].
    intros Hrun Hin. destruct (IH _ _ _ _ Hrun Hin) as [H|(v0 & Hv0 & Heq)].
    + apply dict_set_in in H. destruct H as [H| ->]; [now left|].
      right. exists v. simpl. auto.
    + right. exists v0. auto.
Qed.

Lemma Forall2_in_right {A B} (R : A -> B -> Prop) (l : list A) (l' : list B) y :
  Forall2 R l l' -> In y l' -> exists x, In x l /\ R x y.
Proof.
  induction 1 as [|x y' l l' Hxy _ IH]; simpl; [contradiction|].
  intros [<-|Hin]; [eauto|].
  destruct (IH Hin) as (x' & Hx' & HR). eauto.
Qed.

Lemma inspect_value_shows (v : value) : sample_shows v (inspect_value v).
Proof. destruct v as [| | | |[]| |]; constructor. Qed.

Lemma export_value_stores (v : value) : export_stores v (export_value v).
Proof. destruct v; constructor. Qed.

Lemma Forall2_map_right {A B} (R : A -> B -> Prop) (f : A -> B) (l : list A) :
  (forall x, R x (f x)) -> Forall2 R l (map f l).
Proof. intros H. induction l; simpl; constructor; auto. Qed.

(** C4, amended: the sample rows of an inspected table are the scanned
    rows, value by value: null for null, the [isoformat] text for an
    object that has the method, the [str] text for any other value
    (numbers and the engine's own dates included), so that every sample
    value is null or a string; export stores the conversion of a scanned
    value: null for null, the [isoformat] text for an object that has the
    method, the value itself otherwise, so that numbers stay numbers,
    objects without the method stay objects, and the stored value is
    null, a string or a number whenever the scanned one is null, text, a
    number or an object with [isoformat]. *)
Theorem output_values fs e file_path :
  (forall r tb rows row v,
      outcome_of (inspect_file fs e file_path) = Returned (Inspected r) ->
      In tb (InspectedFile.tables r) ->
      InspectedTable.sample_data tb = SampleRows rows ->
      In row rows -> In v row ->
      v = VNone \/ exists s, v = VStr s)
  /\ (forall sample_only max_rows r tb row k v,
        outcome_of (export_file_data fs e file_path sample_only max_rows)
        = Returned (Exported r) ->
        In tb (ExportedFile.tables r) ->
        In row (ExportedTable.data tb) -> In (k, v) row ->
        exists v0,
          scanned e sample_only max_rows tb v0 /\ v = export_value v0
          /\ (plain_value v0 = true -> json_scalar v = true)
          /\ (is_number v0 = true -> v = v0)
          /\ export_stores v0 v)
  /\ (forall n, inspect_value (VInt n) = VStr (str_int n))
  /\ (forall f, inspect_value (VFloat f) = VStr (float_repr f))
  /\ (forall r tb rows,
        outcome_of (inspect_file fs e file_path) = Returned (Inspected r) ->
        In tb (InspectedFile.tables r) ->
        InspectedTable.sample_data tb = SampleRows rows ->
        exists scanned_rows,
          select_rows e (InspectedTable.full_name tb) (Some 5)
          = Returned scanned_rows
          /\ Forall2 (Forall2 sample_shows) scanned_rows rows).
Proof.
  split; [|split; [|split; [reflexivity|split; [reflexivity|]]]].
  - intros r tb rows row v Hrun Htb Hsample Hrow Hv.
    destruct (inspect_file_tables _ _ _ Hrun) as [Hall _].
    rewrite Forall_forall in Hall.
    destruct (Hall tb Htb) as (schema & table_row & col_rows & _ & ->).
    cbn [InspectedTable.sample_data] in Hsample.
    destruct (select_rows e _ (Some 5)) as [scan|ex]; simpl in Hsample;
      [|discriminate].
    injection Hsample as <-.
    apply in_map_iff in Hrow. destruct Hrow as (row0 & <- & _).
    apply in_map_iff in Hv. destruct Hv as (v0 & <- & _).
    apply inspect_value_cases.
  - intros sample_only max_rows r tb row k v Hrun Htb Hrow Hkv.
    destruct (export_file_data_tables _ _ _ _ _ Hrun) as [Hall _].
    rewrite Forall_forall in Hall. specialize (Hall tb Htb).
    destruct (exported_data_cases Hall) as [(rows & cn & Hsel & Hconv)|Hnil];
      [|rewrite Hnil in Hrow; contradiction].
    destruct (@Forall2_in_right _ _ _ _ _ row Hconv Hrow)
      as (row0 & Hrow0 & Hrun0).
    destruct (@export_row_values _ _ _ _ _ _ Hrun0 Hkv)
      as [[]|(v0 & Hv0 & Heq)].
    simpl in Heq. subst v. exists v0.
    split; [|split; [reflexivity|split; [|split]]].
    + exists rows, row0. auto.
    + destruct v0; simpl; congruence.
    + destruct v0; simpl; congruence.
    + apply export_value_stores.
  - intros r tb rows Hrun Htb Hsample.
    destruct (inspect_file_tables _ _ _ Hrun) as [Hall _].
    rewrite Forall_forall in Hall.
    destruct (Hall tb Htb) as (schema & table_row & col_rows & _ & ->).
    cbn [InspectedTable.sample_data InspectedTable.full_name] in *.
    destruct (select_rows e _ (Some 5)) as [scan|ex]; simpl in Hsample;
      [|discriminate].
    injection Hsample as <-. exists scan. split; [reflexivity|].
    apply Forall2_map_right. intros row.
    apply Forall2_map_right. apply inspect_value_shows.
Qed.

(** C4, as stated, fails for [inspect_file]: the first value of the first
    sample row of [Customers] is the number 1 in the engine's answer and
    the string [str(1)] in the result. *)
Lemma inspect_prints_numbers_as_strings :
  exists r tb rest others,
    outcome_of (inspect_file sample_fs sample_engine "sample-data.hyper")
    = Returned (Inspected r)
    /\ In tb (InspectedFile.tables r)
    /\ select_rows sample_engine (InspectedTable.full_name tb) (Some 5)
       = Returned sample_customers
    /\ hd_error (List.concat sample_customers) = Some (VInt 1)
    /\ InspectedTable.sample_data tb
       = SampleRows ((VStr "1" :: rest) :: others)
    /\ is_number (VStr "1") = false.
Proof.
  eexists. eexists. eexists. eexists.
  split; [vm_compute; reflexivity|].
  split; [left; reflexivity|].
  repeat split; reflexivity.
Qed.

Lemma output_values_witness :
  (exists r tb row v0,
      outcome_of (export_file_data sample_fs sample_engine "sample-data.hyper"
                    false None)
      = Returned (Exported r)
      /\ In tb (ExportedFile.tables r)
      /\ In row (ExportedTable.data tb)
      /\ In ("customer_id"%string, VInt 1) row
      /\ scanned sample_engine false None tb v0
      /\ VInt 1 = export_value v0
      /\ export_stores v0 (VInt 1))
  /\ (exists r tb rows scanned_rows,
        outcome_of (inspect_file sample_fs sample_engine "sample-data.hyper")
        = Returned (Inspected r)
        /\ In tb (InspectedFile.tables r)
        /\ InspectedTable.sample_data tb = SampleRows rows
        /\ select_rows sample_engine (InspectedTable.full_name tb) (Some 5)
           = Returned scanned_rows
        /\ Forall2 (Forall2 sample_shows) scanned_rows rows).
Proof.
  split.
  - eexists. eexists. eexists.
    assert (Hrun : outcome_of (export_file_data sample_fs sample_engine
                                 "sample-data.hyper" false None)
                   = Returned (Exported
                        match outcome_of (export_file_data sample_fs sample_engine
                                            "sample-data.hyper" false None) with
                        | Returned (Exported r) => r
                        | _ => ExportedFile.Make EmptyString EmptyString 0
                                 EmptyString None [] [] 0 0
                        end)) by reflexivity.
    destruct (proj1 (proj2 (output_values sample_fs sample_engine
                              "sample-data.hyper"))
                false None _ _ _ "customer_id"%string (VInt 1)
                Hrun (or_introl eq_refl) (or_introl eq_refl) (or_introl eq_refl))
      as (v0 & Hscan & Heq & _ & _ & Hstores).
    exists v0. split; [exact Hrun|].
    split; [left; reflexivity|]. split; [left; reflexivity|].
    split; [left; reflexivity|]. split; [exact Hscan|].
    split; [exact Heq|exact Hstores].
  - eexists. eexists. eexists.
    match goal with
    | |- exists s, ?A /\ ?B /\ ?C /\ _ =>
        assert (Hrun : A) by (vm_compute; reflexivity);
        assert (Htb : B) by (left; reflexivity);
        assert (Hsample : C) by reflexivity
    end.
    destruct (proj2 (proj2 (proj2 (proj2 (output_values sample_fs sample_engine
                                            "sample-data.hyper"))))
                _ _ _ Hrun Htb Hsample) as (scanned_rows & Hsel & Hshows).
    exists scanned_rows. auto.
Defined.

(** ** Paths that are rejected *)

Lemma not_found_in_file_message (p : string) :
  contains ("File not found: " ++ p)%string "not found" = true.
Proof. reflexivity. Qed.

Lemma not_found_in_directory_message (p : string) :
  contains ("Directory not found: " ++ p)%string "not found" = true.
Proof. reflexivity. Qed.

(** C6: for a path that does not exist each command returns a result
    with [success: False], an error that says "not found" and only the
    keys [error] and [success]; [inspect_file] and [export_file_data]
    reject an existing path without the extension; in all these cases
    nothing has been done: no connection was opened, no query sent. *)
Theorem unusable_paths_rejected fs e :
  (forall args,
      path_exists fs (arg_path args) = false ->
      exists r msg,
        run_command fs e args = (Returned r, [])
        /\ result_success r = false
        /\ result_error r = Some msg
        /\ contains msg "not found" = true
        /\ result_keys r = ["error"; "success"]%string)
  /\ (forall file_path sample_only max_rows,
        path_exists fs file_path = true ->
        endswith (lower file_path) ".hyper" = false ->
        inspect_file fs e file_path
        = (Returned (InspectFailed ("Not a .hyper file: " ++ file_path)%string None),
           [])
        /\ export_file_data fs e file_path sample_only max_rows
           = (Returned (ExportFailed ("Not a .hyper file: " ++ file_path)%string None),
              [])).
Proof.
  split.
  - intros [cmd p so mr] Hmissing. simpl in Hmissing.
    unfold run_command. cbn [arg_command arg_path arg_sample_only arg_max_rows].
    destruct cmd.
    + exists (OfInspect (InspectFailed ("File not found: " ++ p)%string None)),
             ("File not found: " ++ p)%string.
      unfold inspect_file. rewrite Hmissing.
      repeat split; apply not_found_in_file_message.
    + exists (OfDiscover (DiscoverFailed ("Directory not found: " ++ p)%string None)),
             ("Directory not found: " ++ p)%string.
      unfold discover_hyper_files. rewrite Hmissing.
      repeat split; apply not_found_in_directory_message.
    + exists (OfExport (ExportFailed ("File not found: " ++ p)%string None)),
             ("File not found: " ++ p)%string.
      unfold export_file_data. rewrite Hmissing.
      repeat split; apply not_found_in_file_message.
  - intros file_path sample_only max_rows Hexists Hext.
    unfold inspect_file, export_file_data. rewrite Hexists, Hext. split; reflexivity.
Qed.

Lemma unusable_paths_rejected_witness :
  path_exists sample_fs "missing.hyper" = false
  /\ path_exists sample_fs "data/notes.txt" = true
  /\ endswith (lower "data/notes.txt") ".hyper" = false
  /\ (exists r msg,
        run_command sample_fs sample_engine
          (Arguments_ CmdExport "missing.hyper" false (Some 3))
        = (Returned r, [])
        /\ result_success r = false
        /\ result_error r = Some msg
        /\ contains msg "not found" = true
        /\ result_keys r = ["error"; "success"]%string)
  /\ inspect_file sample_fs sample_engine "data/notes.txt"
     = (Returned (InspectFailed "Not a .hyper file: data/notes.txt" None), []).
Proof.
  split; [reflexivity|]. split; [reflexivity|]. split; [reflexivity|]. split.
  - apply (proj1 (unusable_paths_rejected sample_fs sample_engine)
             (Arguments_ CmdExport "missing.hyper" false (Some 3))).
    reflexivity.
  - apply (proj2 (unusable_paths_rejected sample_fs sample_engine)
             "data/notes.txt"%string false None); reflexivity.
Defined.

(** ** Discovery *)

Lemma file_info_of_eq (fs : FileSystem) (p : string) (files : list FileInfo.t)
    (st : stat_result) :
  path_stat fs p = Returned st ->
  file_info_of fs p files
  = (Returned (files ++
       [ {| FileInfo.path := path_absolute fs p;
            FileInfo.name := basename p;
            FileInfo.size := st_size st;
            FileInfo.modified := st_mtime st |} ]), []).
Proof.
  intros Hst. unfold file_info_of, bind, lift, ret. rewrite Hst. reflexivity.
Qed.

(** When every found path can be examined, the loop returns one entry
    for each, in order, and performs no effect. *)
Lemma discover_loop_returns (fs : FileSystem) (found : list string) :
  (forall p, In p found -> exists st, path_stat fs p = Returned st) ->
  exists files,
    for_each found (file_info_of fs) [] = (Returned files, [])
    /\ Forall2 (describes fs) found files.
Proof.
  intros Hstat.
  destruct (for_each_returns (file_info_of fs)
              (fun visited files t => Forall2 (describes fs) visited files
                                      /\ t = [])
              found) with (visited := @nil string) (s := @nil FileInfo.t)
                          (t := @nil event)
    as (files & t & Hloop & Hall & Ht).
  - intros visited p files t Hin [Hall ->].
    destruct (Hstat p Hin) as (st & Hst).
    eexists. exists []. split; [exact (file_info_of_eq fs p files Hst)|].
    split; [|reflexivity].
    apply Forall2_app; [exact Hall|]. constructor; [|constructor].
    exists st. auto.
  - split; [constructor|reflexivity].
  - simpl in Ht. subst t. exists files. auto.
Qed.

(** A path that cannot be examined ends the loop with its exception. *)
Lemma discover_loop_raises (fs : FileSystem) (good : list string) (p : string)
    (rest : list string) (ex : exn) :
  (forall q, In q good -> exists st, path_stat fs q = Returned st) ->
  path_stat fs p = Raised ex ->
  forall files,
    for_each (good ++ p :: rest) (file_info_of fs) files = (Raised ex, []).
Proof.
  intros Hgood Hp. induction good as [|q good IH]; intros files.
  - simpl. unfold file_info_of at 1, bind, lift. rewrite Hp. reflexivity.
  - destruct (Hgood q (in_eq _ _)) as (st & Hst).
    change ((q :: good) ++ p :: rest) with (q :: (good ++ p :: rest)).
    rewrite for_each_step, (file_info_of_eq fs q files Hst). unfold bind.
    rewrite IH; [reflexivity|].
    intros q' Hq'. apply Hgood. now right.
Qed.

(** C8, amended: a missing path and a path that is not a directory give
    a failure; for an existing directory whose walk and whose [stat] calls
    all answer, the result has [success: True], one entry (path, name,
    size, modification time) for each path found and [files_found] equal
    to the length of the list, 0 and the empty list when nothing is found;
    whenever the result is a success [files_found] is the length of
    [files]; for an existing directory whose walk raises, or in which the
    [stat] of a found path raises, the result is the failure "Error
    discovering files" with the text of the exception and the directory. *)
Theorem discover_contract fs directory :
  (path_exists fs directory = false ->
   discover_hyper_files fs directory
   = (Returned (DiscoverFailed ("Directory not found: " ++ directory)%string None),
      []))
  /\ (path_exists fs directory = true -> path_isdir fs directory = false ->
      discover_hyper_files fs directory
      = (Returned (DiscoverFailed ("Not a directory: " ++ directory)%string None),
         []))
  /\ (path_exists fs directory = true -> path_isdir fs directory = true ->
      forall found,
        rglob_hyper fs directory = Returned found ->
        (forall p, In p found -> exists st, path_stat fs p = Returned st) ->
        exists files,
          discover_hyper_files fs directory
          = (Returned (Discovered directory (Z.of_nat (List.length files)) files),
             [])
          /\ Forall2 (describes fs) found files
          /\ (found = [] -> files = []))
  /\ (forall d n files,
        outcome_of (discover_hyper_files fs directory)
        = Returned (Discovered d n files) ->
        d = directory /\ n = Z.of_nat (List.length files))
  /\ (path_exists fs directory = true -> path_isdir fs directory = true ->
      (forall ex,
          walk fs directory = Raised ex ->
          discover_hyper_files fs directory
          = (Returned (DiscoverFailed
                         ("Error discovering files: " ++ str_exn ex)%string
                         (Some directory)), []))
      /\ (forall good p rest ex,
            rglob_hyper fs directory = Returned (good ++ p :: rest) ->
            (forall q, In q good -> exists st, path_stat fs q = Returned st) ->
            path_stat fs p = Raised ex ->
            discover_hyper_files fs directory
            = (Returned (DiscoverFailed
                           ("Error discovering files: " ++ str_exn ex)%string
                           (Some directory)), []))).
Proof.
  split; [|split; [|split; [|split]]].
  - intros Hmissing. unfold discover_hyper_files. rewrite Hmissing. reflexivity.
  - intros Hexists Hdir. unfold discover_hyper_files.
    rewrite Hexists, Hdir. reflexivity.
  - intros Hexists Hdir found Hglob Hstat.
    destruct (discover_loop_returns fs found Hstat) as (files & Hloop & Hall).
    exists files. split; [|split; [exact Hall|]].
    + unfold discover_hyper_files. rewrite Hexists, Hdir. simpl.
      unfold try_except, bind, lift. rewrite Hglob, Hloop. reflexivity.
    + intros ->. inversion Hall. reflexivity.
  - intros d n files. unfold discover_hyper_files.
    destruct (path_exists fs directory); simpl; [|discriminate].
    destruct (path_isdir fs directory); simpl; [|discriminate].
    unfold try_except, bind, lift.
    destruct (rglob_hyper fs directory) as [found|ex]; [|discriminate].
    destruct (for_each found (file_info_of fs) []) as [[files'|ex] t];
      simpl; [|discriminate].
    intros [= <- <- <-]. auto.
  - intros Hexists Hdir. split.
    + intros ex Hwalk. unfold discover_hyper_files. rewrite Hexists, Hdir. simpl.
      unfold try_except, bind, lift, rglob_hyper. rewrite Hwalk. reflexivity.
    + intros good p rest ex Hglob Hgood Hp.
      unfold discover_hyper_files. rewrite Hexists, Hdir. simpl.
      unfold try_except, bind, lift. rewrite Hglob.
      rewrite (discover_loop_raises fs good p rest Hgood Hp). reflexivity.
Qed.

Lemma discover_contract_witness :
  path_exists sample_fs "data" = true
  /\ path_isdir sample_fs "data" = true
  /\ rglob_hyper sample_fs "data" = Returned ["data/a.hyper"%string]
  /\ (exists files,
        discover_hyper_files sample_fs "data"
        = (Returned (Discovered "data" (Z.of_nat (List.length files)) files), [])
        /\ Forall2 (describes sample_fs) ["data/a.hyper"%string] files
        /\ (["data/a.hyper"%string] = [] -> files = []))
  /\ path_stat dangling_fs "data/broken.hyper"
     = Raised (PyException
                 "[Errno 2] No such file or directory: 'data/broken.hyper'")
  /\ discover_hyper_files dangling_fs "data"
     = (Returned
          (DiscoverFailed
             ("Error discovering files: "
              ++ str_exn
                   (PyException
                      "[Errno 2] No such file or directory: 'data/broken.hyper'"))%string
             (Some "data"%string)), []).
Proof.
  split; [reflexivity|]. split; [reflexivity|]. split; [reflexivity|].
  split; [|split; [reflexivity|]].
  - apply (proj1 (proj2 (proj2 (discover_contract sample_fs "data"))));
      try reflexivity.
    intros p [<-|[]]. eexists. reflexivity.
  - destruct (proj2 (proj2 (proj2 (proj2 (discover_contract dangling_fs "data"))))
                eq_refl eq_refl) as [_ Hstat].
    apply (Hstat ["data/a.hyper"%string] "data/broken.hyper"%string
             (@nil string)); try reflexivity.
    intros q [<-|[]]. eexists. reflexivity.
Defined.

(** C8, as stated, fails: [data] is an existing directory, a path found
    in it cannot be examined, and the result is a failure. *)
Lemma discover_fails_on_dangling_link :
  path_exists dangling_fs "data" = true
  /\ path_isdir dangling_fs "data" = true
  /\ discover_hyper_files dangling_fs "data"
     = (Returned
          (DiscoverFailed
             "Error discovering files: [Errno 2] No such file or directory: 'data/broken.hyper'"
             (Some "data"%string)), [])
  /\ discover_success
       (DiscoverFailed
          "Error discovering files: [Errno 2] No such file or directory: 'data/broken.hyper'"
          (Some "data"%string)) = false.
Proof. repeat split; reflexivity. Qed.

(** ** The extension check *)

Lemma lower_app (a b : string) :
  lower (a ++ b)%string = (lower a ++ lower b)%string.
Proof. induction a as [|c a IH]; simpl; [reflexivity|now rewrite IH]. Qed.

Lemma length_lower (s : string) : String.length (lower s) = String.length s.
Proof. induction s as [|c s IH]; simpl; [reflexivity|now rewrite IH]. Qed.

Lemma length_append (a b : string) :
  String.length (a ++ b)%string = (String.length a + String.length b)%nat.
Proof. induction a as [|c a IH]; simpl; [reflexivity|now rewrite IH]. Qed.

Lemma endswith_refl (s : string) : endswith s s = true.
Proof. destruct s; cbn [endswith]; now rewrite String.eqb_refl. Qed.

Lemma endswith_intro (stem suffix : string) :
  endswith (stem ++ suffix)%string suffix = true.
Proof.
  induction stem as [|c stem IH]; cbn [endswith append].
  - apply endswith_refl.
  - rewrite IH. now destruct (String.eqb _ _).
Qed.

Lemma endswith_elim (s suffix : string) :
  endswith s suffix = true -> exists stem, s = (stem ++ suffix)%string.
Proof.
  induction s as [|c s IH]; cbn [endswith].
  - destruct (String.eqb_spec EmptyString suffix) as [<-|_]; [|discriminate].
    intros _. now exists EmptyString.
  - destruct (String.eqb_spec (String c s) suffix) as [<-|_].
    + intros _. now exists EmptyString.
    + intros H. destruct (IH H) as (stem & ->). now exists (String c stem).
Qed.

(** Two ways of cutting a string into a stem and an ending of the same
    length give the same ending. *)
Lemma ending_unique (stem1 stem2 end1 end2 : string) :
  (stem1 ++ end1)%string = (stem2 ++ end2)%string ->
  String.length end1 = String.length end2 ->
  end1 = end2.
Proof.
  revert stem2. induction stem1 as [|c stem1 IH]; intros [|c' stem2]; simpl.
  - auto.
  - intros -> Hlen. simpl in Hlen. rewrite length_append in Hlen. lia.
  - intros <- Hlen. simpl in Hlen. rewrite length_append in Hlen. lia.
  - intros [= _ H]. eauto.
Qed.

(** C10: the extension check of [inspect_file] and [export_file_data]
    lower-cases the path first, so an existing path whose last six
    characters spell [.hyper] in any letter case goes past it into the
    body; [discover_hyper_files] keeps exactly the walked paths whose name
    ends with the lower-case [.hyper], so a name with the extension in
    another letter case is not matched. *)
Theorem extension_check_case fs e :
  (forall stem ext sample_only max_rows,
      lower ext = ".hyper"%string ->
      path_exists fs (stem ++ ext)%string = true ->
      endswith (lower (stem ++ ext)%string) ".hyper" = true
      /\ inspect_file fs e (stem ++ ext)%string
         = try_except (inspect_body fs e (stem ++ ext)%string)
             (fun ex => ret (InspectFailed (error_message ex)
                               (Some (stem ++ ext)%string)))
      /\ export_file_data fs e (stem ++ ext)%string sample_only max_rows
         = try_except
             (export_body fs e (stem ++ ext)%string sample_only max_rows)
             (fun ex => ret (ExportFailed (error_message ex)
                               (Some (stem ++ ext)%string))))
  /\ (forall directory paths,
        walk fs directory = Returned paths ->
        exists found,
          rglob_hyper fs directory = Returned found
          /\ forall p,
              In p found
              <-> In p paths
                  /\ exists stem, basename p = (stem ++ ".hyper")%string)
  /\ (forall stem ext,
        lower ext = ".hyper"%string -> ext <> ".hyper"%string ->
        endswith (stem ++ ext)%string ".hyper" = false).
Proof.
  split; [|split].
  - intros stem ext sample_only max_rows Hext Hexists.
    assert (Hcheck : endswith (lower (stem ++ ext)%string) ".hyper" = true).
    { rewrite lower_app, Hext. apply endswith_intro. }
    split; [exact Hcheck|].
    unfold inspect_file, export_file_data. rewrite Hexists, Hcheck.
    split; reflexivity.
  - intros directory paths Hwalk. unfold rglob_hyper. rewrite Hwalk.
    eexists. split; [reflexivity|].
    intros p. rewrite filter_In. split.
    + intros [Hin Hend]. split; [exact Hin|]. now apply endswith_elim.
    + intros [Hin (stem & Hname)]. split; [exact Hin|].
      rewrite Hname. apply endswith_intro.
  - intros stem ext Hext Hne.
    destruct (endswith (stem ++ ext)%string ".hyper") eqn:Hend; [|reflexivity].
    apply endswith_elim in Hend. destruct Hend as (stem' & Heq).
    exfalso. apply Hne. apply (@ending_unique stem stem' ext ".hyper" Heq).
    rewrite <- (length_lower ext), Hext. reflexivity.
Qed.

Lemma extension_check_case_witness :
  lower ".HYPER" = ".hyper"%string
  /\ path_exists sample_fs "data/sub/B.HYPER" = true
  /\ endswith (lower "data/sub/B.HYPER") ".hyper" = true
  /\ endswith "data/sub/B.HYPER" ".hyper" = false
  /\ (exists found,
        rglob_hyper sample_fs "data" = Returned found
        /\ forall p,
            In p found
            <-> In p ["data/a.hyper"; "data/notes.txt"; "data/sub";
                      "data/sub/B.HYPER"]%string
                /\ exists stem, basename p = (stem ++ ".hyper")%string).
Proof.
  split; [reflexivity|]. split; [reflexivity|]. split; [|split].
  - apply (proj1 (extension_check_case sample_fs sample_engine)
             "data/sub/B"%string ".HYPER"%string false None); reflexivity.
  - apply (proj2 (proj2 (extension_check_case sample_fs sample_engine))
             "data/sub/B"%string ".HYPER"%string); [reflexivity|discriminate].
  - apply (proj1 (proj2 (extension_check_case sample_fs sample_engine))
             "data"%string). reflexivity.
Defined.

(** * Further properties of the code *)

(** ** Effects of composed computations *)

Section Effects.
Variable Q : event -> Prop.

Lemma effects_bind {A B} (m : M A) (k : A -> M B) :
  Forall Q (effects_of m) ->
  (forall a, Forall Q (effects_of (k a))) ->
  Forall Q (effects_of (bind m k)).
Proof.
  intros Hm Hk. unfold bind, effects_of in *. destruct m as [[a|ex] t1]; [|exact Hm].
  specialize (Hk a). destruct (k a) as [r t2]. simpl in *.
  apply Forall_app. auto.
Qed.

Lemma effects_try_except {A} (body : M A) (handler : exn -> M A) :
  Forall Q (effects_of body) ->
  (forall ex, Forall Q (effects_of (handler ex))) ->
  Forall Q (effects_of (try_except body handler)).
Proof.
  intros Hm Hk. unfold try_except, effects_of in *.
  destruct body as [[a|ex] t1]; [exact Hm|].
  specialize (Hk ex). destruct (handler ex) as [r t2]. simpl in *.
  apply Forall_app. auto.
Qed.

Lemma effects_ret {A} (a : A) : Forall Q (effects_of (ret a)).
Proof. constructor. Qed.

Lemma effects_lift {A} (o : outcome A) : Forall Q (effects_of (lift o)).
Proof. constructor. Qed.

Lemma effects_execute {A} (q : query) (answer : outcome A) :
  Q (EvQuery q) -> Forall Q (effects_of (execute q answer)).
Proof. intros Hq. rewrite execute_eq. simpl. auto. Qed.

Lemma effects_print (line : string) :
  Q (EvPrint line) -> Forall Q (effects_of (print line)).
Proof. intros Hq. simpl. auto. Qed.

Lemma effects_for_each {A S} (body : A -> S -> M S) (xs : list A) :
  (forall x s, Forall Q (effects_of (body x s))) ->
  forall s, Forall Q (effects_of (for_each xs body s)).
Proof.
  intros Hbody. induction xs as [|x xs IH]; intros s.
  - constructor.
  - rewrite for_each_step. apply effects_bind; auto.
Qed.
End Effects.

(** ** No exception leaves a method *)

Lemma try_except_ret_outcome {A} (body : M A) (f : exn -> A) :
  outcome_of (try_except body (fun ex => ret (f ex)))
  = Returned match outcome_of body with
             | Returned a => a
             | Raised ex => f ex
             end.
Proof. destruct body as [[a|ex] t]; reflexivity. Qed.

Lemma inspect_file_returns fs e file_path :
  exists r, outcome_of (inspect_file fs e file_path) = Returned r.
Proof.
  unfold inspect_file.
  destruct (negb (path_exists fs file_path)); [eexists; reflexivity|].
  destruct (negb (endswith (lower file_path) ".hyper")); [eexists; reflexivity|].
  rewrite try_except_ret_outcome. eauto.
Qed.

Lemma export_file_data_returns fs e file_path sample_only max_rows :
  exists r,
    outcome_of (export_file_data fs e file_path sample_only max_rows) = Returned r.
Proof.
  unfold export_file_data.
  destruct (negb (path_exists fs file_path)); [eexists; reflexivity|].
  destruct (negb (endswith (lower file_path) ".hyper")); [eexists; reflexivity|].
  rewrite try_except_ret_outcome. eauto.
Qed.

Lemma discover_hyper_files_returns fs directory :
  exists r, outcome_of (discover_hyper_files fs directory) = Returned r.
Proof.
  unfold discover_hyper_files.
  destruct (negb (path_exists fs directory)); [eexists; reflexivity|].
  destruct (negb (path_isdir fs directory)); [eexists; reflexivity|].
  rewrite try_except_ret_outcome. eauto.
Qed.

Lemma run_command_returns fs e args :
  exists r, outcome_of (run_command fs e args) = Returned r.
Proof.
  destruct args as [cmd p so mr]. unfold run_command, outcome_of.
  cbn [arg_command arg_path arg_sample_only arg_max_rows].
  destruct cmd; unfold bind.
  - destruct (inspect_file_returns fs e p) as (r & Hr). unfold outcome_of in Hr.
    destruct (inspect_file fs e p) as [o t]. simpl in Hr. subst o.
    eexists. reflexivity.
  - destruct (discover_hyper_files_returns fs p) as (r & Hr).
    unfold outcome_of in Hr.
    destruct (discover_hyper_files fs p) as [o t]. simpl in Hr. subst o.
    eexists. reflexivity.
  - destruct (export_file_data_returns fs e p so mr) as (r & Hr).
    unfold outcome_of in Hr.
    destruct (export_file_data fs e p so mr) as [o t]. simpl in Hr. subst o.
    eexists. reflexivity.
Qed.

(** X1: [inspect_file], [export_file_data] and [discover_hyper_files]
    always return a result: whatever the engine or the file system
    raises inside them is turned into a failure result, so that the
    dispatch of [main] never raises either. *)
Theorem methods_never_raise fs e :
  (forall file_path, exists r,
      outcome_of (inspect_file fs e file_path) = Returned r)
  /\ (forall file_path sample_only max_rows, exists r,
        outcome_of (export_file_data fs e file_path sample_only max_rows)
        = Returned r)
  /\ (forall directory, exists r,
        outcome_of (discover_hyper_files fs directory) = Returned r)
  /\ (forall args, exists r, outcome_of (run_command fs e args) = Returned r).
Proof.
  repeat split; intros.
  - apply inspect_file_returns.
  - apply export_file_data_returns.
  - apply discover_hyper_files_returns.
  - apply run_command_returns.
Qed.

(** ** The connection is scoped *)

Lemma export_data_on_connection (e : Engine) column_names full limit total :
  Forall on_connection (effects_of (export_data e column_names full limit total)).
Proof.
  destruct (export_data_spec e column_names full limit total)
    as (d & tr & Hrun & [(rows & _ & _ & ->)|(ex & _ & _ & ->)]);
    rewrite Hrun; simpl; repeat constructor.
Qed.

Lemma export_table_on_connection e sample_only max_rows schema table_row acc :
  Forall on_connection
    (effects_of (export_table e sample_only max_rows schema table_row acc)).
Proof.
  destruct acc as [tables_data total]. unfold export_table.
  apply effects_bind; [apply effects_execute; exact I|]. intros col_rows.
  apply effects_bind; [rewrite count_or_zero_eq; repeat constructor|].
  intros total_rows.
  apply effects_bind; [apply export_data_on_connection|].
  intros exported. apply effects_ret.
Qed.

Lemma export_schema_on_connection e sample_only max_rows schema acc :
  Forall on_connection
    (effects_of (export_schema e sample_only max_rows schema acc)).
Proof.
  unfold export_schema.
  apply effects_bind; [apply effects_execute; exact I|]. intros rows.
  apply effects_for_each. intros. apply export_table_on_connection.
Qed.

Lemma export_schemas_on_connection (e : Engine) :
  Forall on_connection (effects_of (export_schemas e)).
Proof.
  unfold export_schemas.
  apply effects_try_except; [|intros ex]; apply effects_execute; exact I.
Qed.

Lemma inspect_table_not_printing e schema table_row acc :
  Forall (fun ev => on_connection ev /\ not_a_print ev)
    (effects_of (inspect_table e schema table_row acc)).
Proof.
  destruct acc as [tables_info total]. unfold inspect_table.
  apply effects_bind; [apply effects_execute; split; exact I|]. intros col_rows.
  apply effects_bind;
    [rewrite count_or_unknown_eq; repeat constructor|].
  intros counted.
  apply effects_bind; [rewrite sample_of_eq; repeat constructor|].
  intros sample_data. apply effects_ret.
Qed.

Lemma inspect_schema_not_printing e schema acc :
  Forall (fun ev => on_connection ev /\ not_a_print ev)
    (effects_of (inspect_schema e schema acc)).
Proof.
  unfold inspect_schema.
  apply effects_bind; [apply effects_execute; split; exact I|]. intros rows.
  apply effects_for_each. intros. apply inspect_table_not_printing.
Qed.

(** The effects of a body run on a connection. *)
Lemma with_connection_scoped {A} (e : Engine) (database : string) (body : M A) :
  Forall on_connection (effects_of body) ->
  scoped e database (effects_of (with_connection e database body)).
Proof.
  intros Hbody. destruct (open_connection e database) as [[]|ex] eqn:Hopen.
  - rewrite (with_connection_opened _ _ _ Hopen). right. right.
    split; [exact Hopen|]. exists (effects_of body). auto.
  - rewrite (with_connection_refused _ _ _ Hopen). right. left.
    split; [reflexivity|]. eauto.
Qed.

(** X2: whatever happens inside [inspect_file] or [export_file_data],
    the effects are of one of three shapes: nothing at all (the path was
    rejected or its size could not be read); the refused attempt to
    connect and nothing else; or the connection opened first, closed last
    (also when a query raised), with only queries and printed lines in
    between. *)
Theorem connection_is_scoped fs e file_path :
  scoped e file_path (effects_of (inspect_file fs e file_path))
  /\ forall sample_only max_rows,
      scoped e file_path
        (effects_of (export_file_data fs e file_path sample_only max_rows)).
Proof.
  split; [|intros sample_only max_rows].
  - unfold inspect_file.
    destruct (negb (path_exists fs file_path)); [now left|].
    destruct (negb (endswith (lower file_path) ".hyper")); [now left|].
    unfold try_except, inspect_body, lift. unfold bind at 1.
    destruct (getsize fs file_path) as [size|ex]; [|now left].
    match goal with
    | |- context [with_connection e file_path ?b] =>
        assert (Hscoped : scoped e file_path
                            (effects_of (with_connection e file_path b)))
    end.
    { apply with_connection_scoped.
      apply effects_bind; [apply effects_execute; exact I|]. intros schemas.
      apply effects_bind; [|intros; apply effects_ret].
      apply effects_for_each. intros x s.
      eapply Forall_impl; [|apply inspect_schema_not_printing].
      intros ev [H _]. exact H. }
    unfold effects_of in *.
    destruct (with_connection e file_path _) as [[r|ex] t]; simpl in *;
      rewrite ?app_nil_r; exact Hscoped.
  - unfold export_file_data.
    destruct (negb (path_exists fs file_path)); [now left|].
    destruct (negb (endswith (lower file_path) ".hyper")); [now left|].
    unfold try_except, export_body, lift. unfold bind at 1.
    destruct (getsize fs file_path) as [size|ex]; [|now left].
    match goal with
    | |- context [with_connection e file_path ?b] =>
        assert (Hscoped : scoped e file_path
                            (effects_of (with_connection e file_path b)))
    end.
    { apply with_connection_scoped.
      apply effects_bind; [apply export_schemas_on_connection|]. intros schemas.
      apply effects_bind; [|intros; apply effects_ret].
      apply effects_for_each. intros. apply export_schema_on_connection. }
    unfold effects_of in *.
    destruct (with_connection e file_path _) as [[r|ex] t]; simpl in *;
      rewrite ?app_nil_r; exact Hscoped.
Qed.

Lemma effects_with_connection {A} (Q : event -> Prop) (e : Engine)
    (database : string) (body : M A) :
  Q (EvConnect database) -> Q EvClose ->
  Forall Q (effects_of body) ->
  Forall Q (effects_of (with_connection e database body)).
Proof.
  intros Hconnect Hclose Hbody.
  destruct (open_connection e database) as [[]|ex] eqn:Hopen.
  - rewrite (with_connection_opened _ _ _ Hopen). simpl.
    constructor; [exact Hconnect|]. apply Forall_app. auto.
  - rewrite (with_connection_refused _ _ _ Hopen). simpl. auto.
Qed.

(** ** What is printed *)

Lemma discover_effects (fs : FileSystem) (directory : string) :
  Forall (fun _ => False) (effects_of (discover_hyper_files fs directory)).
Proof.
  unfold discover_hyper_files.
  destruct (negb (path_exists fs directory)); [constructor|].
  destruct (negb (path_isdir fs directory)); [constructor|].
  apply effects_try_except; [|intros; apply effects_ret].
  apply effects_bind; [apply effects_lift|]. intros found.
  apply effects_bind; [|intros; apply effects_ret].
  apply effects_for_each. intros p files. unfold file_info_of.
  apply effects_bind; [apply effects_lift|]. intros st1.
  apply effects_bind; [apply effects_lift|]. intros st2.
  apply effects_ret.
Qed.

Lemma inspect_file_not_printing fs e file_path :
  Forall not_a_print (effects_of (inspect_file fs e file_path)).
Proof.
  unfold inspect_file.
  destruct (negb (path_exists fs file_path)); [constructor|].
  destruct (negb (endswith (lower file_path) ".hyper")); [constructor|].
  apply effects_try_except; [|intros; apply effects_ret].
  unfold inspect_body.
  apply effects_bind; [apply effects_lift|]. intros size.
  apply effects_with_connection; try exact I.
  apply effects_bind; [apply effects_execute; exact I|]. intros schemas.
  apply effects_bind; [|intros; apply effects_ret].
  apply effects_for_each. intros x s.
  eapply Forall_impl; [|apply inspect_schema_not_printing].
  intros ev [_ H]. exact H.
Qed.

Lemma discover_hyper_files_effects fs directory :
  effects_of (discover_hyper_files fs directory) = [].
Proof.
  pose proof (discover_effects fs directory) as H.
  destruct (effects_of (discover_hyper_files fs directory)) as [|ev t];
    [reflexivity|].
  inversion H; contradiction.
Qed.

(** X3: [inspect_file] never prints, whatever fails inside it, and
    [discover_hyper_files] has no effect on the engine or on the output:
    it opens no connection, sends no query and prints nothing. *)
Theorem inspect_and_discover_are_silent fs e :
  (forall file_path line,
      ~ In (EvPrint line) (effects_of (inspect_file fs e file_path)))
  /\ (forall directory, effects_of (discover_hyper_files fs directory) = []).
Proof.
  split.
  - intros file_path line Hin.
    pose proof (inspect_file_not_printing fs e file_path) as H.
    rewrite Forall_forall in H. exact (H _ Hin).
  - apply discover_hyper_files_effects.
Qed.

(** ** The tables of a result are the tables of the catalog *)

Lemma inspect_schema_keys e schema acc acc' t :
  inspect_schema e schema acc = (Returned acc', t) ->
  exists rows,
    tables_of e schema = Returned rows
    /\ map inspected_key (fst acc')
       = map inspected_key (fst acc) ++ map (fun row => (schema, fst row)) rows.
Proof.
  unfold inspect_schema. rewrite execute_eq. intros H.
  apply bind_returned in H. destruct H as (rows & t1 & t2 & [= Hrows _] & Hloop & _).
  exists rows. split; [exact Hrows|].
  pose proof (for_each_visited
                (inspect_table e schema)
                (fun visited s _ =>
                   map inspected_key (fst s)
                   = map inspected_key (fst acc)
                     ++ map (fun row => (schema, fst row)) visited)
                rows) as Hinv.
  apply (Hinv) with (visited := []) (s := acc) (t := []) (s' := acc') (t' := t2).
  - intros visited row [tables_info total] t0 s' t' _ Hkeys Hrun.
    destruct (inspect_table_listed _ _ _ _ Hrun) as (col_rows & Hcols).
    rewrite (inspect_table_spec e schema row tables_info total Hcols) in Hrun.
    injection Hrun as <- _. cbn [fst] in *.
    rewrite !map_app, Hkeys, <- app_assoc. reflexivity.
  - simpl. now rewrite app_nil_r.
  - exact Hloop.
Qed.

(** X4: the tables of a successful export or inspection are, in this
    order, the tables that the catalog lists for the schemas of the
    result, schema after schema, and [total_tables] is their number. *)
Theorem tables_follow_catalog fs e file_path :
  (forall sample_only max_rows r,
      outcome_of (export_file_data fs e file_path sample_only max_rows)
      = Returned (Exported r) ->
      map table_key (ExportedFile.tables r)
      = listed_tables e (ExportedFile.schemas r)
      /\ ExportedFile.total_tables r
         = Z.of_nat (List.length (listed_tables e (ExportedFile.schemas r))))
  /\ (forall r,
        outcome_of (inspect_file fs e file_path) = Returned (Inspected r) ->
        schema_names e PgNamespace = Returned (InspectedFile.schemas r)
        /\ map inspected_key (InspectedFile.tables r)
           = listed_tables e (InspectedFile.schemas r)
        /\ InspectedFile.total_tables r
           = Z.of_nat (List.length (listed_tables e (InspectedFile.schemas r)))).
Proof.
  split.
  - intros sample_only max_rows r Hrun.
    destruct (export_file_data_exported _ _ _ _ _ Hrun)
      as (schemas & t & Hloop & <- & Htotal).
    assert (Hkeys : map table_key (ExportedFile.tables r)
                    = listed_tables e (ExportedFile.schemas r)).
    { pose proof (for_each_visited
                    (export_schema e sample_only max_rows)
                    (fun visited s _ =>
                       map table_key (fst s) = listed_tables e visited)
                    (ExportedFile.schemas r)) as Hinv.
      apply (Hinv) with (visited := []) (s := ([], 0)) (t := [])
                        (s' := (ExportedFile.tables r,
                                ExportedFile.total_rows_exported r)) (t' := t).
      - intros visited schema s t0 s' t' _ Hkeys Hstep.
        destruct (export_schema_keys _ _ _ _ _ Hstep) as (rows & Hrows & Hk).
        rewrite Hk, Hkeys, listed_tables_app. unfold listed_tables at 3.
        simpl. rewrite Hrows, app_nil_r. reflexivity.
      - reflexivity.
      - exact Hloop. }
    split; [exact Hkeys|].
    rewrite Htotal, <- Hkeys, length_map. reflexivity.
  - intros r Hrun.
    destruct (inspect_file_inspected _ _ _ Hrun)
      as (schemas & t & Hloop & Hns & <- & Htotal).
    split; [exact Hns|].
    assert (Hkeys : map inspected_key (InspectedFile.tables r)
                    = listed_tables e (InspectedFile.schemas r)).
    { pose proof (for_each_visited
                    (inspect_schema e)
                    (fun visited s _ =>
                       map inspected_key (fst s) = listed_tables e visited)
                    (InspectedFile.schemas r)) as Hinv.
      apply (Hinv) with (visited := []) (s := ([], 0)) (t := [])
                        (s' := (InspectedFile.tables r,
                                InspectedFile.total_rows r)) (t' := t).
      - intros visited schema s t0 s' t' _ Hkeys Hstep.
        destruct (inspect_schema_keys _ _ _ Hstep) as (rows & Hrows & Hk).
        rewrite Hk, Hkeys, listed_tables_app. unfold listed_tables at 3.
        simpl. rewrite Hrows, app_nil_r. reflexivity.
      - reflexivity.
      - exact Hloop. }
    split; [exact Hkeys|].
    rewrite Htotal, <- Hkeys, length_map. reflexivity.
Qed.

(** ** Failures of one table, in an inspection *)

Lemma inspect_schema_returns e schema acc keys rows :
  tables_of e schema = Returned rows ->
  (forall row, In row rows ->
      exists col_rows, columns_of e schema (fst row) = Returned col_rows) ->
  Forall2 (inspects e) keys (fst acc) ->
  exists acc' t',
    inspect_schema e schema acc = (Returned acc', t')
    /\ Forall2 (inspects e) (keys ++ map (fun row => (schema, fst row)) rows)
         (fst acc').
Proof.
  intros Hrows Hcols Hold.
  destruct (for_each_returns
              (inspect_table e schema)
              (fun visited s _ =>
                 Forall2 (inspects e)
                   (keys ++ map (fun row => (schema, fst row)) visited) (fst s))
              rows) with (visited := @nil (string * string)) (s := acc)
                         (t := @nil event)
    as (acc' & t' & Hloop & Hall).
  - intros visited row [tables_info total] t Hin Hall.
    destruct (Hcols row Hin) as (col_rows & Hc).
    eexists. eexists.
    split; [exact (inspect_table_spec e schema row tables_info total Hc)|].
    cbn [fst] in *. rewrite map_app, app_assoc.
    apply Forall2_app; [exact Hall|].
    constructor; [|constructor]. repeat split.
  - simpl. now rewrite app_nil_r.
  - exists acc', (EvQuery (TablesOfSchema schema) :: t'). split; [|exact Hall].
    unfold inspect_schema. rewrite execute_eq, Hrows. unfold bind.
    rewrite Hloop. reflexivity.
Qed.

(** X5: when the catalog listings answer (schemas, tables of every
    schema, columns of every table), the inspection succeeds whatever the
    count and the sample scan of each table do: the result holds one entry
    for each listed table, in order, whose [row_count] is the count or
    "Unable to determine" when the count raised, and whose [sample_data]
    is the converted rows or the one error message when the scan raised. *)
Theorem inspect_failures_contained fs e file_path size schemas :
  path_exists fs file_path = true ->
  endswith (lower file_path) ".hyper" = true ->
  getsize fs file_path = Returned size ->
  open_connection e file_path = Returned tt ->
  schema_names e PgNamespace = Returned schemas ->
  (forall schema, In schema schemas ->
      exists rows, tables_of e schema = Returned rows) ->
  (forall schema table_name,
      In (schema, table_name) (listed_tables e schemas) ->
      exists col_rows, columns_of e schema table_name = Returned col_rows) ->
  exists r,
    outcome_of (inspect_file fs e file_path) = Returned (Inspected r)
    /\ InspectedFile.schemas r = schemas
    /\ Forall2 (inspects e) (listed_tables e schemas) (InspectedFile.tables r).
Proof.
  intros Hexists Hext Hsize Hopen Hschemas Htables Hcols.
  destruct (for_each_returns
              (inspect_schema e)
              (fun visited s _ =>
                 Forall2 (inspects e) (listed_tables e visited) (fst s))
              schemas) with (visited := @nil string)
                            (s := (@nil InspectedTable.t, 0)) (t := @nil event)
    as (acc & tl & Hloop & Hall).
  - intros visited schema s t Hin Hall.
    destruct (Htables schema Hin) as (rows & Hrows).
    assert (Hlisted : forall row, In row rows ->
              In (schema, fst row) (listed_tables e schemas)).
    { intros row Hrow. apply in_flat_map. exists schema. split; [exact Hin|].
      rewrite Hrows. now apply (in_map (fun row => (schema, fst row))). }
    destruct (@inspect_schema_returns e schema s (listed_tables e visited) rows
                Hrows (fun row Hrow => Hcols _ _ (Hlisted row Hrow)) Hall)
      as (s' & t' & Hrun & Hf).
    exists s', t'. split; [exact Hrun|].
    rewrite listed_tables_app. unfold listed_tables at 2.
    simpl. rewrite Hrows, app_nil_r. exact Hf.
  - constructor.
  - simpl in Hall.
    exists {| InspectedFile.file_path := file_path;
              InspectedFile.file_name := basename file_path;
              InspectedFile.file_size := size;
              InspectedFile.schemas := schemas;
              InspectedFile.tables := fst acc;
              InspectedFile.total_tables := Z.of_nat (List.length (fst acc));
              InspectedFile.total_rows := snd acc |}.
    split; [|split; [reflexivity|exact Hall]].
    unfold inspect_file. rewrite Hexists, Hext. simpl.
    unfold try_except, inspect_body, lift. unfold bind at 1. rewrite Hsize.
    rewrite (with_connection_opened _ _ _ Hopen).
    rewrite execute_eq, Hschemas. unfold bind. rewrite Hloop. reflexivity.
Qed.

Lemma inspect_failures_contained_witness :
  exists r,
    outcome_of (inspect_file sample_fs log_scan_fails "sample-data.hyper")
    = Returned (Inspected r)
    /\ InspectedFile.schemas r = ["SampleDB"%string]
    /\ Forall2 (inspects log_scan_fails)
         (listed_tables log_scan_fails ["SampleDB"%string])
         (InspectedFile.tables r).
Proof.
  apply (@inspect_failures_contained sample_fs log_scan_fails
           "sample-data.hyper" 65536 ["SampleDB"%string]);
    try reflexivity.
  - intros schema [<-|[]]. eexists. reflexivity.
  - intros schema table_name [H|[H|[H|[]]]]; injection H as <- <-;
      eexists; reflexivity.
Defined.

(** ** The options of the export *)

(** X6: [--sample-only] takes precedence over [--max-rows]: with
    [include_sample_only] set, the export sends the same queries, prints
    the same lines and returns the same result for every
    [max_rows_per_table], apart from the field that records the option. *)
Theorem sample_only_ignores_max_rows fs e file_path max_rows :
  effects_of (export_file_data fs e file_path true max_rows)
  = effects_of (export_file_data fs e file_path true None)
  /\ outcome_of (export_file_data fs e file_path true max_rows)
     = recording_max_rows max_rows
         (outcome_of (export_file_data fs e file_path true None)).
Proof.
  unfold export_file_data.
  destruct (negb (path_exists fs file_path)); [split; reflexivity|].
  destruct (negb (endswith (lower file_path) ".hyper")); [split; reflexivity|].
  unfold try_except, export_body, with_connection.
  change (export_schema e true max_rows) with (export_schema e true None).
  unfold bind, lift, emit.
  destruct (getsize fs file_path) as [size|ex]; [|split; reflexivity].
  destruct (open_connection e file_path) as [[]|ex]; [|split; reflexivity].
  destruct (export_schemas e) as [[schemas|ex] t1]; [|split; reflexivity].
  destruct (for_each schemas (export_schema e true None) ([], 0))
    as [[acc|ex] t2]; split; reflexivity.
Qed.

(** ** The rows of the export *)

Lemma dict_set_fresh (d : dict) (k : string) (v : value) :
  ~ In k (map fst d) -> dict_set d k v = d ++ [(k, v)].
Proof.
  induction d as [|[k' v'] d IH]; simpl; [reflexivity|].
  intros Hfresh. destruct (String.eqb_spec k' k) as [->|_].
  - exfalso. apply Hfresh. now left.
  - rewrite IH; [reflexivity|]. intros H. apply Hfresh. now right.
Qed.

Lemma firstn_succ_nth {A} (l : list A) (i : nat) (x : A) :
  nth_error l i = Some x -> firstn (S i) l = firstn i l ++ [x].
Proof.
  revert i. induction l as [|y l IH]; intros [|i]; simpl; try discriminate.
  - intros [= ->]. reflexivity.
  - intros H. now rewrite <- (IH i H).
Qed.

Lemma NoDup_nth_fresh {A} (l : list A) (i : nat) (x : A) :
  NoDup l -> nth_error l i = Some x -> ~ In x (firstn i l).
Proof.
  intros Hnodup. revert i. induction Hnodup as [|y l Hy _ IH]; intros [|i]; simpl;
    try discriminate; auto.
  intros Hnth [->|Hin].
  - apply Hy. eapply nth_error_In; eauto.
  - exact (IH i Hnth Hin).
Qed.

Lemma combine_snoc {A B} (l : list A) (l' : list B) (x : A) (y : B) :
  List.length l = List.length l' ->
  combine (l ++ [x]) (l' ++ [y]) = combine l l' ++ [(x, y)].
Proof.
  revert l'. induction l as [|a l IH]; intros [|b l']; simpl; try discriminate.
  - reflexivity.
  - intros [= H]. now rewrite IH.
Qed.

Lemma map_fst_combine {A B} (l : list A) (l' : list B) :
  List.length l = List.length l' -> map fst (combine l l') = l.
Proof.
  revert l'. induction l as [|a l IH]; intros [|b l']; simpl; try discriminate.
  - reflexivity.
  - intros [= H]. now rewrite IH.
Qed.

Lemma combine_firstn {A B} (l : list A) (l' : list B) :
  combine (firstn (List.length l') l) l' = combine l l'.
Proof.
  revert l'. induction l as [|a l IH]; intros [|b l']; simpl; try reflexivity.
  now rewrite IH.
Qed.

Lemma export_row_from (column_names : list string) (data_row : list value) :
  NoDup column_names ->
  forall i done,
    List.length done = i ->
    (i + List.length data_row <= List.length column_names)%nat ->
    export_row column_names i data_row (combine (firstn i column_names) done)
    = Returned (combine (firstn (i + List.length data_row) column_names)
                  (done ++ map export_value data_row)).
Proof.
  intros Hnodup. induction data_row as [|v rest IH]; intros i done Hdone Hlen;
    simpl in *.
  - now rewrite Nat.add_0_r, app_nil_r.
  - destruct (nth_error column_names i) as [column_name|] eqn:Hnth;
      [|apply nth_error_None in Hnth; lia].
    assert (Hi : List.length (firstn i column_names) = List.length done).
    { rewrite length_firstn. lia. }
    rewrite dict_set_fresh.
    + rewrite <- (combine_snoc _ _ _ _ Hi), <- (firstn_succ_nth _ _ Hnth).
      rewrite IH; [|rewrite length_app; simpl; lia|lia].
      f_equal. f_equal; [f_equal; lia|now rewrite <- app_assoc].
    + rewrite (map_fst_combine _ _ Hi). now apply NoDup_nth_fresh.
Qed.

(** X7: when the column names are distinct and the row is not wider than
    the column list, the exported row pairs the columns, in declaration
    order, with the converted values of the row, in order; a row shorter
    than the column list gives the first columns only. *)
Theorem export_row_in_column_order (column_names : list string)
    (data_row : list value) :
  NoDup column_names ->
  (List.length data_row <= List.length column_names)%nat ->
  export_row column_names 0 data_row []
  = Returned (combine column_names (map export_value data_row)).
Proof.
  intros Hnodup Hlen.
  pose proof (@export_row_from column_names data_row Hnodup 0%nat []
                eq_refl Hlen) as Hrow.
  simpl in Hrow. rewrite Hrow.
  rewrite <- (length_map export_value data_row). now rewrite combine_firstn.
Qed.

Lemma export_row_in_column_order_witness :
  export_row ["id"; "name"; "email"]%string 0 [VInt 7; date "2024-02-29"] []
  = Returned (combine ["id"; "name"; "email"]%string
                (map export_value [VInt 7; date "2024-02-29"])).
Proof.
  apply export_row_in_column_order.
  - repeat constructor; simpl; intuition discriminate.
  - simpl. lia.
Defined.

(** X8: the rows of a table are exported all or none.  When no scanned
    row is wider than the column list, the data holds one entry for each
    scanned row and nothing is printed; when some row is wider, the
    conversion raises [IndexError], the table's data is emptied, the
    running total is left as it was and the warning is printed. *)
Theorem export_data_all_or_nothing e column_names full limit total rows :
  select_rows e full limit = Returned rows ->
  (Forall (fun row => (List.length row <= List.length column_names)%nat) rows ->
   exists d,
     export_data e column_names full limit total
     = (Returned (d, total + Z.of_nat (List.length rows)),
        [EvQuery (SelectRows full limit)])
     /\ List.length d = List.length rows)
  /\ (Exists (fun row => (List.length column_names < List.length row)%nat) rows ->
      export_data e column_names full limit total
      = (Returned ([], total),
         [EvQuery (SelectRows full limit);
          EvPrint (export_warning full
                     (PyException "list index out of range"))])).
Proof.
  intros Hsel. split.
  - intros Hfit. destruct (@append_rows_fit _ _ Hfit []) as (d & Hloop & Hlen).
    exists d. split; [|exact Hlen].
    unfold export_data, try_except. rewrite execute_eq, Hsel.
    unfold bind. rewrite Hloop. simpl. now rewrite Hlen.
  - intros Hwide.
    unfold export_data, try_except. rewrite execute_eq, Hsel.
    unfold bind. rewrite (@append_rows_wide _ _ Hwide). reflexivity.
Qed.

Lemma export_data_all_or_nothing_witness :
  export_data (db_engine [ragged_table]) ["id"%string] ragged_full_name None 10
  = (Returned ([], 10),
     [EvQuery (SelectRows ragged_full_name None);
      EvPrint (export_warning ragged_full_name
                 (PyException "list index out of range"))]).
Proof.
  apply (proj2 (@export_data_all_or_nothing (db_engine [ragged_table])
                  ["id"%string] ragged_full_name None 10
                  [ [VInt 1]; [VInt 2; VStr "extra"] ] eq_refl)).
  right. left. simpl. lia.
Defined.

(** ** When both schema listings fail *)

(** X9: when the schema listing of the export fails on both views, the
    export fails with the error of the second attempt (the error of the
    first is dropped), after exactly these two queries, and the
    connection is closed. *)
Theorem both_listings_fail fs e file_path sample_only max_rows size ex1 ex2 :
  path_exists fs file_path = true ->
  endswith (lower file_path) ".hyper" = true ->
  getsize fs file_path = Returned size ->
  open_connection e file_path = Returned tt ->
  schema_names e InformationSchemaTables = Raised ex1 ->
  schema_names e PgTables = Raised ex2 ->
  export_file_data fs e file_path sample_only max_rows
  = (Returned (ExportFailed (error_message ex2) (Some file_path)),
     [EvConnect file_path;
      EvQuery (ListSchemas InformationSchemaTables);
      EvQuery (ListSchemas PgTables);
      EvClose]).
Proof.
  intros Hexists Hext Hsize Hopen H1 H2.
  unfold export_file_data. rewrite Hexists, Hext. simpl.
  unfold try_except, export_body, lift. unfold bind at 1. rewrite Hsize.
  rewrite (with_connection_opened _ _ _ Hopen).
  rewrite (export_schemas_alternate _ H1), H2. reflexivity.
Qed.

Lemma both_listings_fail_witness :
  export_file_data sample_fs no_schema_listing "sample-data.hyper" false None
  = (Returned (ExportFailed "Hyper API error: pg_tables does not exist"
                 (Some "sample-data.hyper"%string)),
     [EvConnect "sample-data.hyper";
      EvQuery (ListSchemas InformationSchemaTables);
      EvQuery (ListSchemas PgTables);
      EvClose]).
Proof.
  apply (@both_listings_fail sample_fs no_schema_listing "sample-data.hyper"
           false None 65536
           (PyException "information_schema.tables does not exist")
           (HyperException "pg_tables does not exist")); reflexivity.
Defined.

(** ** The command line *)

Lemma stdout_of_app (t1 t2 : list main_event) :
  stdout_of (t1 ++ t2) = stdout_of t1 ++ stdout_of t2.
Proof.
  induction t1 as [|ev t1 IH]; [reflexivity|].
  destruct ev as [| | |[]|]; simpl; rewrite IH; reflexivity.
Qed.

Lemma stdout_of_did (t : trace) : stdout_of (map Did t) = printed_lines t.
Proof.
  induction t as [|ev t IH]; [reflexivity|].
  destruct ev; simpl; rewrite IH; reflexivity.
Qed.

Lemma printed_lines_none (t : trace) :
  Forall not_a_print t -> printed_lines t = [].
Proof.
  induction 1 as [|ev t Hev _ IH]; [reflexivity|].
  destruct ev; simpl in *; try exact IH. contradiction.
Qed.

(** X10: the exit status of [main] is 0, 1 or 2.  It is 2 exactly when
    the parser rejects the command line, and then nothing is started,
    printed or written; after [-h] the help text is shown and the status
    is 0.  Once the arguments are parsed the status is 0 or 1, and it is
    1 exactly when the Hyper process cannot be started or the output file
    cannot be written: a result with [success: False] (a missing file, an
    engine error) still ends with status 0. *)
Theorem exit_status host fs e argv :
  (fst (main host fs e argv) = 0 \/ fst (main host fs e argv) = 1
   \/ fst (main host fs e argv) = 2)
  /\ (fst (main host fs e argv) = 2
      <-> exists message, parse_args host argv = UsageError message)
  /\ (forall message,
        parse_args host argv = UsageError message ->
        main host fs e argv = (2, []))
  /\ (forall help,
        parse_args host argv = HelpRequested help ->
        main host fs e argv = (0, [ShowedHelp help]))
  /\ (forall args output,
        parse_args host argv = Parsed args output ->
        (fst (main host fs e argv) = 0 \/ fst (main host fs e argv) = 1)
        /\ (fst (main host fs e argv) = 1
            <-> (exists ex, start_hyper_process host = Raised ex)
                \/ (exists path r ex,
                       output_given output = Some path
                       /\ outcome_of (run_command fs e args) = Returned r
                       /\ write_text host path (json_dumps host r)
                          = Raised ex))).
Proof.
  assert (Hparsed : forall args output,
             parse_args host argv = Parsed args output ->
             (fst (main host fs e argv) = 0 \/ fst (main host fs e argv) = 1)
             /\ (fst (main host fs e argv) = 1
                 <-> (exists ex, start_hyper_process host = Raised ex)
                     \/ (exists path r ex,
                            output_given output = Some path
                            /\ outcome_of (run_command fs e args) = Returned r
                            /\ write_text host path (json_dumps host r)
                               = Raised ex))).
  { intros args output Hargs.
    destruct (run_command_returns fs e args) as (r & Hr).
    unfold main, enter, outcome_of in *. rewrite Hargs.
    destruct (start_hyper_process host) as [[]|ex0].
    - destruct (run_command fs e args) as [o t]. simpl in Hr. subst o.
      destruct (output_given output) as [path|].
      + destruct (write_text host path (json_dumps host r)) as [[]|ex] eqn:Hw;
          simpl.
        * split; [now left|]. split; [discriminate|].
          intros [(ex & H)|(p' & r' & ex & [= <-] & [= <-] & H)]; congruence.
        * split; [now right|]. split; [|reflexivity].
          intros _. right. exists path, r, ex. auto.
      + simpl. split; [now left|]. split; [discriminate|].
        intros [(ex & H)|(p' & r' & ex & H & _)]; discriminate.
    - simpl. split; [now right|]. split; [|reflexivity].
      intros _. left. eauto. }
  split; [|split; [|split; [|split; [|exact Hparsed]]]].
  - destruct (parse_args host argv) as [args output|help|message] eqn:Hargs.
    + destruct (Hparsed args output eq_refl) as [[H|H] _]; auto.
    + unfold main. rewrite Hargs. now left.
    + unfold main. rewrite Hargs. now right; right.
  - destruct (parse_args host argv) as [args output|help|message] eqn:Hargs.
    + destruct (Hparsed args output eq_refl) as [[H|H] _]; rewrite H.
      * split; [discriminate|]. intros (m & Hm). discriminate.
      * split; [discriminate|]. intros (m & Hm). discriminate.
    + unfold main. rewrite Hargs. simpl.
      split; [discriminate|]. intros (m & Hm). discriminate.
    + unfold main. rewrite Hargs. simpl. split; [eauto|reflexivity].
  - intros message Hargs. unfold main. rewrite Hargs. reflexivity.
  - intros help Hargs. unfold main. rewrite Hargs. reflexivity.
Qed.

(** X11: once the arguments are parsed and the Hyper process has
    started, standard output holds the
    lines the command printed followed by the JSON document; with an
    output file (a name that is not empty) that can be written, the
    document goes to the file and standard output holds the printed lines
    only.  The commands [inspect] and [discover] print nothing, so the
    lines before the document are the warnings of an export. *)
Theorem standard_output host fs e argv args output r :
  parse_args host argv = Parsed args output ->
  start_hyper_process host = Returned tt ->
  outcome_of (run_command fs e args) = Returned r ->
  (output_given output = None ->
   stdout_of (snd (main host fs e argv))
   = printed_lines (effects_of (run_command fs e args)) ++ [json_dumps host r])
  /\ (forall path,
        output_given output = Some path ->
        write_text host path (json_dumps host r) = Returned tt ->
        stdout_of (snd (main host fs e argv))
        = printed_lines (effects_of (run_command fs e args))
        /\ In (Wrote path (json_dumps host r))
             (snd (main host fs e argv)))
  /\ (arg_command args <> CmdExport ->
      printed_lines (effects_of (run_command fs e args)) = []).
Proof.
  intros Hargs Hstart Hr. split; [|split].
  - intros Hout. unfold main, enter, outcome_of, effects_of in *.
    rewrite Hargs, Hstart, Hout.
    destruct (run_command fs e args) as [o t]. simpl in Hr. subst o. simpl.
    rewrite stdout_of_app, stdout_of_did. reflexivity.
  - intros path Hout Hw. unfold main, enter, outcome_of, effects_of in *.
    rewrite Hargs, Hstart, Hout.
    destruct (run_command fs e args) as [o t]. simpl in Hr. subst o.
    rewrite Hw. simpl. split.
    + rewrite stdout_of_app, stdout_of_did. simpl. now rewrite app_nil_r.
    + right. apply in_or_app. right. now left.
  - intros Hcmd. destruct args as [cmd p so mr]. simpl in Hcmd.
    unfold run_command. cbn [arg_command arg_path].
    destruct cmd; [| |contradiction].
    + pose proof (inspect_file_not_printing fs e p) as H.
      unfold bind, effects_of in *.
      destruct (inspect_file fs e p) as [[r1|ex] t]; simpl in *;
        rewrite ?app_nil_r; now apply printed_lines_none.
    + pose proof (discover_hyper_files_effects fs p) as H.
      unfold bind, effects_of in *.
      destruct (discover_hyper_files fs p) as [[r1|ex] t]; simpl in *;
        subst t; reflexivity.
Qed.

Lemma standard_output_witness :
  stdout_of (snd (main sample_host sample_fs orders_scan_fails
                    ["export"; "sample-data.hyper"; "--output"; EmptyString]%string))
  = [export_warning orders_full_name (HyperException "scan failed");
     "{success}"%string].
Proof.
  assert (Hrun : exists r,
             outcome_of (run_command sample_fs orders_scan_fails
                           (Arguments_ CmdExport "sample-data.hyper" false None))
             = Returned r /\ result_success r = true).
  { eexists. split; [vm_compute; reflexivity|reflexivity]. }
  destruct Hrun as (r & Hr & Hok).
  rewrite (proj1 (@standard_output sample_host sample_fs orders_scan_fails
                    ["export"; "sample-data.hyper"; "--output"; EmptyString]%string
                    (Arguments_ CmdExport "sample-data.hyper" false None)
                    (Some EmptyString) r eq_refl eq_refl Hr) eq_refl).
  simpl json_dumps. rewrite Hok. reflexivity.
Defined.

(** ** From discovery to inspection *)

Lemma append_nil_r (s : string) : (s ++ EmptyString)%string = s.
Proof. induction s as [|c s IH]; simpl; [reflexivity|now rewrite IH]. Qed.

Lemma append_assoc (a b c : string) :
  ((a ++ b) ++ c)%string = (a ++ b ++ c)%string.
Proof. induction a as [|x a IH]; simpl; [reflexivity|now rewrite IH]. Qed.

(** The name of a path is what the path ends with. *)
Lemma basename_from_suffix (p : string) :
  forall acc, exists stem, (acc ++ p)%string = (stem ++ basename_from acc p)%string.
Proof.
  induction p as [|c p IH]; intros acc; simpl.
  - exists EmptyString. now rewrite append_nil_r.
  - destruct (Ascii.eqb c "/").
    + destruct (IH EmptyString) as (stem & Hstem). simpl in Hstem.
      exists (acc ++ String c stem)%string.
      rewrite append_assoc. simpl. now rewrite <- Hstem.
    + destruct (IH (acc ++ String c EmptyString)%string) as (stem & Hstem).
      exists stem. rewrite <- Hstem, append_assoc. reflexivity.
Qed.

Lemma basename_suffix (p : string) :
  exists stem, p = (stem ++ basename p)%string.
Proof. exact (basename_from_suffix p EmptyString). Qed.

Lemma endswith_lower_hyper (stem name : string) :
  endswith name ".hyper" = true ->
  endswith (lower (stem ++ name)%string) ".hyper" = true.
Proof.
  intros H. apply endswith_elim in H. destruct H as (stem' & ->).
  rewrite <- append_assoc, lower_app. apply endswith_intro.
Qed.

(** A discovery that succeeded has examined every path found. *)
Lemma discover_hyper_files_discovered fs directory d n files :
  outcome_of (discover_hyper_files fs directory) = Returned (Discovered d n files) ->
  exists found,
    rglob_hyper fs directory = Returned found
    /\ Forall2 (describes fs) found files.
Proof.
  unfold discover_hyper_files.
  destruct (path_exists fs directory); simpl; [|discriminate].
  destruct (path_isdir fs directory); simpl; [|discriminate].
  unfold try_except, bind, lift.
  destruct (rglob_hyper fs directory) as [found|ex]; [|discriminate].
  destruct (for_each found (file_info_of fs) []) as [[files'|ex] t] eqn:Hloop;
    simpl; [|discriminate].
  intros [= _ _ <-]. exists found. split; [reflexivity|].
  pose proof (for_each_visited (file_info_of fs)
                (fun visited s _ => Forall2 (describes fs) visited s) found)
    as Hinv.
  apply (Hinv) with (visited := []) (s := []) (t := []) (s' := files') (t' := t).
  - intros visited p s t0 s' t' _ Hall Hstep.
    unfold file_info_of, bind, lift, ret in Hstep.
    destruct (path_stat fs p) as [st|ex] eqn:Hst; [|discriminate].
    injection Hstep as <- _.
    apply Forall2_app; [exact Hall|]. constructor; [|constructor].
    exists st. auto.
  - constructor.
  - exact Hloop.
Qed.

(** X12: every file that a successful discovery reports is one that
    [inspect_file] and [export_file_data] accept by its extension: its
    [name] passes their check, and so does its [path] when making a path
    absolute only puts the working directory in front of it. *)
Theorem discovered_files_pass_the_check fs directory d n files :
  outcome_of (discover_hyper_files fs directory) = Returned (Discovered d n files) ->
  Forall (fun info =>
            endswith (lower (FileInfo.name info)) ".hyper" = true
            /\ ((forall p, exists cwd, path_absolute fs p = (cwd ++ p)%string) ->
                endswith (lower (FileInfo.path info)) ".hyper" = true))
    files.
Proof.
  intros Hrun.
  destruct (discover_hyper_files_discovered _ _ Hrun) as (found & Hglob & Hall).
  assert (Hfound : Forall (fun p => endswith (basename p) ".hyper" = true) found).
  { unfold rglob_hyper in Hglob.
    destruct (walk fs directory) as [paths|ex]; [|discriminate].
    injection Hglob as <-. apply Forall_forall. intros p Hp.
    apply filter_In in Hp. tauto. }
  clear Hglob Hrun. induction Hall as [|p info found files (st & _ & ->) _ IH].
  - constructor.
  - inversion Hfound as [|? ? Hp Hrest]; subst.
    constructor; [|exact (IH Hrest)].
    cbn [FileInfo.name FileInfo.path]. split.
    + exact (endswith_lower_hyper EmptyString _ Hp).
    + intros Habs. destruct (Habs p) as (cwd & ->).
      destruct (basename_suffix p) as (stem & Hstem).
      rewrite Hstem at 1. rewrite <- append_assoc.
      now apply endswith_lower_hyper.
Qed.

Lemma discovered_files_pass_the_check_witness :
  exists files,
    outcome_of (discover_hyper_files sample_fs "data")
    = Returned (Discovered "data" 1 files)
    /\ Forall (fun info =>
                 endswith (lower (FileInfo.name info)) ".hyper" = true
                 /\ ((forall p, exists cwd,
                         path_absolute sample_fs p = (cwd ++ p)%string) ->
                     endswith (lower (FileInfo.path info)) ".hyper" = true))
         files.
Proof.
  eexists. split; [vm_compute; reflexivity|].
  apply (@discovered_files_pass_the_check sample_fs "data" "data" 1).
  reflexivity.
Defined.

(** ** The two commands on the same table *)

(** X13: the two commands agree on the size of a table: for an entry of
    a successful export and an entry of a successful inspection of the
    same table, [total_rows] is the [row_count], or 0 when the inspection
    reports "Unable to determine". *)
Theorem export_and_inspect_agree_on_counts fs e file_path sample_only max_rows
    exported inspected tb_e tb_i :
  outcome_of (export_file_data fs e file_path sample_only max_rows)
  = Returned (Exported exported) ->
  outcome_of (inspect_file fs e file_path) = Returned (Inspected inspected) ->
  In tb_e (ExportedFile.tables exported) ->
  In tb_i (InspectedFile.tables inspected) ->
  ExportedTable.full_name tb_e = InspectedTable.full_name tb_i ->
  ExportedTable.total_rows tb_e = counted_rows (InspectedTable.row_count tb_i).
Proof.
  intros He Hi Htbe Htbi Hname.
  destruct (export_file_data_tables _ _ _ _ _ He) as [Halle _].
  destruct (inspect_file_tables _ _ _ Hi) as [Halli _].
  rewrite Forall_forall in Halle, Halli.
  rewrite (inspected_row_count (Halli _ Htbi)), <- Hname.
  destruct (Halle _ Htbe)
    as (schema & table_row & col_rows & total & tr & _ & _ & ->).
  cbn [ExportedTable.total_rows ExportedTable.full_name].
  destruct (count_rows e _); reflexivity.
Qed.

Lemma export_and_inspect_agree_on_counts_witness :
  exists exported inspected tb_e tb_i,
    outcome_of (export_file_data sample_fs orders_count_fails
                  "sample-data.hyper" false None)
    = Returned (Exported exported)
    /\ outcome_of (inspect_file sample_fs orders_count_fails "sample-data.hyper")
       = Returned (Inspected inspected)
    /\ InspectedTable.row_count tb_i = UnableToDetermine
    /\ ExportedTable.full_name tb_e = orders_full_name
    /\ ExportedTable.total_rows tb_e
       = counted_rows (InspectedTable.row_count tb_i).
Proof.
  eexists. eexists. eexists. eexists.
  split; [vm_compute; reflexivity|]. split; [vm_compute; reflexivity|].
  assert (H : forall (A : Type) (a b : A), In b [a; b])
    by (intros; right; left; reflexivity).
  split; [|split];
    [| |eapply (@export_and_inspect_agree_on_counts sample_fs orders_count_fails
                "sample-data.hyper" false None);
        [reflexivity|reflexivity|apply H|apply H|reflexivity] ];
    reflexivity.
Defined.

(** ** The number of queries *)

Lemma queries_sent_app (t1 t2 : trace) :
  queries_sent (t1 ++ t2) = (queries_sent t1 + queries_sent t2)%nat.
Proof.
  induction t1 as [|ev t1 IH]; [reflexivity|].
  destruct ev; simpl; rewrite IH; reflexivity.
Qed.

Lemma export_table_queries e sample_only max_rows schema table_row acc acc' t :
  export_table e sample_only max_rows schema table_row acc = (Returned acc', t) ->
  queries_sent t = 3%nat
  /\ List.length (fst acc') = S (List.length (fst acc)).
Proof.
  intros Hrun.
  destruct (export_table_listed _ _ _ _ _ _ Hrun) as (col_rows & Hcols).
  destruct acc as [tables_data total].
  destruct (export_table_spec e sample_only max_rows schema table_row
              tables_data total Hcols) as (d & tr & Hdata & Hspec).
  rewrite Hspec in Hrun. injection Hrun as <- <-. cbn [fst].
  split; [|rewrite length_app; simpl; lia].
  destruct (export_data_spec e (map col0 col_rows)
              (full_table_name_of schema (fst table_row))
              (snd (rows_to_export_and_limit sample_only max_rows
                      match count_rows e (full_table_name_of schema (fst table_row))
                      with Returned n => n | Raised _ => 0 end))
              total) as (d' & tr' & Hrun' & Hcases).
  rewrite Hrun' in Hdata. injection Hdata as _ _ <-.
  destruct Hcases as [(rows & _ & _ & ->)|(ex & _ & _ & ->)]; reflexivity.
Qed.

Lemma inspect_table_queries e schema table_row acc acc' t :
  inspect_table e schema table_row acc = (Returned acc', t) ->
  queries_sent t = 3%nat
  /\ List.length (fst acc') = S (List.length (fst acc)).
Proof.
  intros Hrun.
  destruct (inspect_table_listed _ _ _ _ Hrun) as (col_rows & Hcols).
  destruct acc as [tables_info total].
  rewrite (inspect_table_spec e schema table_row tables_info total Hcols) in Hrun.
  injection Hrun as <- <-. cbn [fst].
  split; [reflexivity|rewrite length_app; simpl; lia].
Qed.

(** A loop over the tables of a schema that returned has sent three
    queries for each table it added. *)
Lemma table_loop_queries {T} (body : (string * string) -> list T * Z -> M (list T * Z))
    (rows : list (string * string)) :
  (forall row acc acc' t,
      body row acc = (Returned acc', t) ->
      queries_sent t = 3%nat
      /\ List.length (fst acc') = S (List.length (fst acc))) ->
  forall acc acc' t,
    for_each rows body acc = (Returned acc', t) ->
    (queries_sent t + 3 * List.length (fst acc) = 3 * List.length (fst acc'))%nat.
Proof.
  intros Hbody acc acc' t Hloop.
  pose proof (for_each_visited body
                (fun _ s t0 =>
                   (queries_sent t0 + 3 * List.length (fst acc)
                    = 3 * List.length (fst s))%nat)
                rows) as Hinv.
  apply (Hinv) with (visited := []) (s := acc) (t := []) (s' := acc') (t' := t).
  - intros _ row s t0 s' t' _ Hs Hstep.
    destruct (Hbody _ _ _ _ Hstep) as [Hq Hl].
    rewrite queries_sent_app, Hq, Hl. lia.
  - simpl. lia.
  - exact Hloop.
Qed.

(** A loop over the schemas that returned has sent one query for each
    schema and three for each table it added. *)
Lemma schema_loop_queries {T} (body : string -> list T * Z -> M (list T * Z))
    (schemas : list string) :
  (forall schema acc acc' t,
      body schema acc = (Returned acc', t) ->
      (queries_sent t + 3 * List.length (fst acc)
       = 1 + 3 * List.length (fst acc'))%nat) ->
  forall acc' t,
    for_each schemas body ([], 0) = (Returned acc', t) ->
    queries_sent t = (List.length schemas + 3 * List.length (fst acc'))%nat.
Proof.
  intros Hbody acc' t Hloop.
  pose proof (for_each_visited body
                (fun visited s t0 =>
                   queries_sent t0
                   = (List.length visited + 3 * List.length (fst s))%nat)
                schemas) as Hinv.
  apply (Hinv) with (visited := []) (s := ([], 0)) (t := []) (s' := acc') (t' := t).
  - intros visited schema s t0 s' t' _ Hs Hstep.
    pose proof (Hbody _ _ _ _ Hstep) as Hq.
    rewrite queries_sent_app, length_app, Hs. simpl. lia.
  - reflexivity.
  - exact Hloop.
Qed.

Lemma export_schema_queries e sample_only max_rows schema acc acc' t :
  export_schema e sample_only max_rows schema acc = (Returned acc', t) ->
  (queries_sent t + 3 * List.length (fst acc)
   = 1 + 3 * List.length (fst acc'))%nat.
Proof.
  unfold export_schema. rewrite execute_eq. intros H.
  apply bind_returned in H.
  destruct H as (rows & t1 & t2 & [= _ <-] & Hloop & ->).
  pose proof (table_loop_queries _ rows
                (@export_table_queries e sample_only max_rows schema)
                _ Hloop) as Hq.
  simpl. lia.
Qed.

Lemma inspect_schema_queries e schema acc acc' t :
  inspect_schema e schema acc = (Returned acc', t) ->
  (queries_sent t + 3 * List.length (fst acc)
   = 1 + 3 * List.length (fst acc'))%nat.
Proof.
  unfold inspect_schema. rewrite execute_eq. intros H.
  apply bind_returned in H.
  destruct H as (rows & t1 & t2 & [= _ <-] & Hloop & ->).
  pose proof (table_loop_queries _ rows (@inspect_table_queries e schema)
                _ Hloop) as Hq.
  simpl. lia.
Qed.

(** X14: a successful inspection has sent one query for the schema
    listing, one for each schema and three for each table; a successful
    export as many, and one more when the first schema listing failed. *)
Theorem queries_of_a_successful_run fs e file_path :
  (forall r,
      outcome_of (inspect_file fs e file_path) = Returned (Inspected r) ->
      queries_sent (effects_of (inspect_file fs e file_path))
      = (1 + List.length (InspectedFile.schemas r)
         + 3 * List.length (InspectedFile.tables r))%nat)
  /\ (forall sample_only max_rows r,
        outcome_of (export_file_data fs e file_path sample_only max_rows)
        = Returned (Exported r) ->
        queries_sent
          (effects_of (export_file_data fs e file_path sample_only max_rows))
        = (match schema_names e InformationSchemaTables with
           | Returned _ => 1
           | Raised _ => 2
           end
           + List.length (ExportedFile.schemas r)
           + 3 * List.length (ExportedFile.tables r))%nat).
Proof.
  split.
  - intros r. unfold inspect_file.
    destruct (path_exists fs file_path); simpl; [|discriminate].
    destruct (endswith (lower file_path) ".hyper"); simpl; [|discriminate].
    unfold try_except, inspect_body, with_connection. rewrite !execute_eq.
    unfold bind, lift, emit, outcome_of, effects_of.
    destruct (getsize fs file_path) as [size|ex]; [|discriminate].
    destruct (open_connection e file_path) as [[]|ex]; [|discriminate].
    destruct (schema_names e PgNamespace) as [schemas|ex]; [|discriminate].
    destruct (for_each schemas (inspect_schema e) ([], 0))
      as [[acc|ex] t2] eqn:Hloop; [|discriminate].
    intros [= <-]. cbn [fst snd InspectedFile.schemas InspectedFile.tables].
    unfold ret. simpl. rewrite ?app_nil_r, ?queries_sent_app.
    rewrite (schema_loop_queries _ schemas (@inspect_schema_queries e) Hloop).
    simpl. lia.
  - intros sample_only max_rows r. unfold export_file_data.
    destruct (path_exists fs file_path); simpl; [|discriminate].
    destruct (endswith (lower file_path) ".hyper"); simpl; [|discriminate].
    unfold try_except, export_body, with_connection.
    assert (Hlist : forall schemas ts,
               export_schemas e = (Returned schemas, ts) ->
               queries_sent ts
               = match schema_names e InformationSchemaTables with
                 | Returned _ => 1%nat
                 | Raised _ => 2%nat
                 end).
    { intros schemas ts.
      destruct (schema_names e InformationSchemaTables) as [l|ex] eqn:Hp.
      - rewrite (export_schemas_primary _ Hp). now intros [= _ <-].
      - rewrite (export_schemas_alternate _ Hp). now intros [= _ <-]. }
    unfold bind, lift, emit, outcome_of, effects_of.
    destruct (getsize fs file_path) as [size|ex]; [|discriminate].
    destruct (open_connection e file_path) as [[]|ex]; [|discriminate].
    destruct (export_schemas e) as [[schemas|ex] ts]; [|discriminate].
    specialize (Hlist schemas ts eq_refl).
    destruct (for_each schemas (export_schema e sample_only max_rows) ([], 0))
      as [[acc|ex] t2] eqn:Hloop; [|discriminate].
    intros [= <-]. cbn [fst snd ExportedFile.schemas ExportedFile.tables].
    unfold ret. simpl. rewrite ?app_nil_r, ?queries_sent_app, Hlist.
    rewrite (schema_loop_queries _ schemas
               (@export_schema_queries e sample_only max_rows) Hloop).
    simpl. lia.
Qed.

Lemma queries_of_a_successful_run_witness :
  queries_sent
    (effects_of (export_file_data sample_fs no_information_schema
                   "sample-data.hyper" false None))
  = 9%nat.
Proof.
  assert (Hrun : exists r,
             outcome_of (export_file_data sample_fs no_information_schema
                           "sample-data.hyper" false None)
             = Returned (Exported r)
             /\ List.length (ExportedFile.schemas r) = 1%nat
             /\ List.length (ExportedFile.tables r) = 2%nat).
  { eexists. split; [vm_compute; reflexivity|]. split; reflexivity. }
  destruct Hrun as (r & Hr & Hs & Ht).
  rewrite (proj2 (queries_of_a_successful_run sample_fs no_information_schema
                    "sample-data.hyper") false None r Hr).
  rewrite Hs, Ht. reflexivity.
Defined.

(** ** The Hyper process *)

(** X15: when the Hyper process cannot be started, [__enter__] raises
    its exception and [main] does nothing more: no command runs, nothing
    is printed or written, and the exit status is 1.  When the process
    starts, it is started before the command runs and closed exactly
    once, after the effects of the command; what else [main] does, before
    or after closing it, is printing or writing the output file. *)
Theorem process_lifecycle host fs e argv args output :
  parse_args host argv = Parsed args output ->
  (forall ex,
      start_hyper_process host = Raised ex ->
      enter host
      = StartFailed ("Failed to start Hyper process: " ++ str_exn ex)%string
      /\ main host fs e argv = (1, [])
      /\ stdout_of (snd (main host fs e argv)) = [])
  /\ (start_hyper_process host = Returned tt ->
      exists before after,
        snd (main host fs e argv)
        = HyperStarted :: map Did (effects_of (run_command fs e args))
          ++ before ++ HyperClosed :: after
        /\ Forall output_only before
        /\ Forall output_only after).
Proof.
  intros Hargs. split.
  - intros ex Hstart. unfold main, enter. rewrite Hargs, Hstart.
    repeat split.
  - intros Hstart. unfold main, enter, effects_of. rewrite Hargs, Hstart.
    destruct (run_command fs e args) as [[r|ex] t].
    + destruct (output_given output) as [path|].
      * destruct (write_text host path (json_dumps host r)) as [[]|ex]; simpl.
        -- exists [Wrote path (json_dumps host r)], []. repeat constructor.
        -- exists [], (critical_error host ex). repeat constructor.
      * simpl. exists [Did (EvPrint (json_dumps host r))], [].
        repeat constructor.
    + simpl. exists [], (critical_error host ex). repeat constructor.
Qed.

Lemma process_lifecycle_witness :
  main no_hyper_host sample_fs sample_engine
    ["inspect"; "sample-data.hyper"]%string = (1, [])
  /\ exists before after,
      snd (main sample_host sample_fs sample_engine
             ["inspect"; "missing.hyper"; "--output"; "out.json"]%string)
      = HyperStarted
        :: map Did (effects_of (run_command sample_fs sample_engine
                                  (Arguments_ CmdInspect "missing.hyper" false None)))
        ++ before ++ HyperClosed :: after
      /\ Forall output_only before
      /\ Forall output_only after.
Proof.
  split.
  - apply (proj1 (@process_lifecycle no_hyper_host sample_fs sample_engine
                    ["inspect"; "sample-data.hyper"]%string
                    (Arguments_ CmdInspect "sample-data.hyper" false None)
                    None eq_refl)
             (PyException "hyperd not found") eq_refl).
  - apply (proj2 (@process_lifecycle sample_host sample_fs sample_engine
                    ["inspect"; "missing.hyper"; "--output"; "out.json"]%string
                    (Arguments_ CmdInspect "missing.hyper" false None)
                    (Some "out.json"%string) eq_refl)).
    reflexivity.
Defined.

(** ** A count that fails and a scan that answers *)

(** X16: a failed count does not keep the data of a table from being
    exported: when the columns are listed, the count raises and the scan
    answers with rows no wider than the column list, the entry of the
    table has [total_rows] 0 and [exported_rows] the number of scanned
    rows, which are added to the running total. *)
Theorem failed_count_keeps_data e sample_only max_rows schema table_row
    tables_data total col_rows ex rows :
  let full := full_table_name_of schema (fst table_row) in
  columns_of e schema (fst table_row) = Returned col_rows ->
  count_rows e full = Raised ex ->
  select_rows e full (snd (rows_to_export_and_limit sample_only max_rows 0))
  = Returned rows ->
  Forall (fun row => (List.length row <= List.length col_rows)%nat) rows ->
  exists info t,
    export_table e sample_only max_rows schema table_row (tables_data, total)
    = (Returned (tables_data ++ [info], total + Z.of_nat (List.length rows)), t)
    /\ ExportedTable.total_rows info = 0
    /\ ExportedTable.exported_rows info = Z.of_nat (List.length rows)
    /\ List.length (ExportedTable.data info) = List.length rows.
Proof.
  intros full Hcols Hcount Hsel Hfit.
  destruct (export_table_spec e sample_only max_rows schema table_row
              tables_data total Hcols) as (d & tr & Hdata & Hspec).
  fold full in Hdata, Hspec. rewrite Hcount in Hdata, Hspec.
  assert (Hfit' : Forall (fun row => (List.length row
                                      <= List.length (map col0 col_rows))%nat)
                    rows)
    by (now rewrite length_map).
  destruct (@append_rows_fit _ _ Hfit' []) as (ds & Hloop & Hlen).
  assert (Hd : d = ds).
  { revert Hdata. unfold export_data, try_except.
    rewrite execute_eq, Hsel. unfold bind. rewrite Hloop. simpl.
    now intros [= <- _]. }
  subst d. rewrite Hlen in Hspec.
  eexists. eexists. split; [exact Hspec|].
  cbn [ExportedTable.total_rows ExportedTable.exported_rows ExportedTable.data].
  auto.
Qed.

Lemma failed_count_keeps_data_witness :
  exists info t,
    export_table orders_count_fails false None "SampleDB"
      ("Orders"%string, "TABLE"%string) ([], 0)
    = (Returned ([] ++ [info], 0 + Z.of_nat (List.length sample_orders)), t)
    /\ ExportedTable.total_rows info = 0
    /\ ExportedTable.exported_rows info = Z.of_nat (List.length sample_orders)
    /\ List.length (ExportedTable.data info) = List.length sample_orders.
Proof.
  apply (@failed_count_keeps_data orders_count_fails false None "SampleDB"
           ("Orders"%string, "TABLE"%string) [] 0
           (stored_columns orders_table) (HyperException "count failed")
           sample_orders); try reflexivity.
  repeat constructor.
Defined.

Lemma tables_follow_catalog_witness :
  exists r,
    outcome_of (export_file_data sample_fs orders_scan_fails "sample-data.hyper"
                  true (Some 2))
    = Returned (Exported r)
    /\ map table_key (ExportedFile.tables r)
       = [("SampleDB", "Customers"); ("SampleDB", "Orders")]%string
    /\ map table_key (ExportedFile.tables r)
       = listed_tables orders_scan_fails (ExportedFile.schemas r)
    /\ ExportedFile.total_tables r
       = Z.of_nat (List.length
                     (listed_tables orders_scan_fails (ExportedFile.schemas r))).
Proof.
  eexists. split; [vm_compute; reflexivity|]. split; [reflexivity|].
  apply (proj1 (tables_follow_catalog sample_fs orders_scan_fails
                  "sample-data.hyper") true (Some 2)).
  reflexivity.
Defined.

Lemma exit_status_witness :
  result_success
    (OfInspect (InspectFailed "File not found: missing.hyper" None)) = false
  /\ outcome_of (run_command sample_fs sample_engine
                  (Arguments_ CmdInspect "missing.hyper" false None))
     = Returned (OfInspect (InspectFailed "File not found: missing.hyper" None))
  /\ fst (main sample_host sample_fs sample_engine
           ["inspect"; "missing.hyper"; "--output"; "out.json"]%string) = 0
  /\ main sample_host sample_fs sample_engine
       ["frobnicate"; "sample-data.hyper"]%string = (2, []).
Proof.
  split; [reflexivity|]. split; [reflexivity|]. split.
  - destruct (proj2 (proj2 (proj2 (proj2
               (exit_status sample_host sample_fs sample_engine
                  ["inspect"; "missing.hyper"; "--output"; "out.json"]%string))))
                (Arguments_ CmdInspect "missing.hyper" false None)
                (Some "out.json"%string) eq_refl) as [[H|H] Hiff]; [exact H|].
    apply Hiff in H.
    destruct H as [(ex & H)|(path & r & ex & _ & _ & H)]; discriminate.
  - apply (proj1 (proj2 (proj2
             (exit_status sample_host sample_fs sample_engine
                ["frobnicate"; "sample-data.hyper"]%string)))
             "argument command: invalid choice"%string).
    reflexivity.
Defined.
